(** * Latent-space interpolation script of the point-cloud autoencoder

    A shallow embedding of [include/autoencoder_lr_interpolation.py]:
    the floating-point formulas of the interpolation loop, the seeded
    selection and resampling of the shapes, and the script itself as a
    computation over a log of observable effects.

    Python's [float] and numpy's [float64] are IEEE 754 binary64, and the
    arrays fetched from the TensorFlow graph are binary32 or binary64;
    both are modelled with the Standard Library's executable
    specification of IEEE arithmetic ([SpecFloat]), rounding to nearest,
    ties to even. *)

From Stdlib Require Import ZArith NArith List Bool Lia String Ascii SpecFloat.
From Stdlib Require Import DecimalString.
From Stdlib Require Decimal DecimalFacts DecimalPos DecimalZ.
Import ListNotations.

Local Open Scope Z_scope.

(* ================================================================== *)
(** ** IEEE 754 binary formats *)

Module IEEE.

(** The element types an array of the script can have. *)
Inductive dtype : Type := float32 | float64.

Definition prec (dt : dtype) : Z :=
  match dt with float32 => 24 | float64 => 53 end.

Definition emax (dt : dtype) : Z :=
  match dt with float32 => 128 | float64 => 1024 end.

Definition float : Type := spec_float.

Definition add (dt : dtype) : float -> float -> float := SFadd (prec dt) (emax dt).
Definition sub (dt : dtype) : float -> float -> float := SFsub (prec dt) (emax dt).
Definition mul (dt : dtype) : float -> float -> float := SFmul (prec dt) (emax dt).
Definition div (dt : dtype) : float -> float -> float := SFdiv (prec dt) (emax dt).

(** [==] and [<=] of IEEE 754: a NaN compares false with everything,
    the two zeros compare equal. *)
Definition eqb : float -> float -> bool := SFeqb.
Definition leb : float -> float -> bool := SFleb.

(** Nearest value of the format to an integer. *)
Definition of_Z (dt : dtype) (z : Z) : float :=
  binary_normalize (prec dt) (emax dt) z 0 false.

(** Conversion of a value of another format (rounding to nearest). *)
Definition cast (dt : dtype) (x : float) : float :=
  match x with
  | S754_finite s m e => binary_round (prec dt) (emax dt) s m e
  | _ => x
  end.

(** A zero or a finite number that the format represents. *)
Definition is_finite (dt : dtype) (x : float) : bool :=
  match x with
  | S754_zero _ => true
  | S754_finite _ m e => bounded (prec dt) (emax dt) m e
  | _ => false
  end.

Definition is_nan (x : float) : bool :=
  match x with S754_nan => true | _ => false end.

Definition is_infinite (x : float) : bool :=
  match x with S754_infinity _ => true | _ => false end.

Definition is_zero (x : float) : bool :=
  match x with S754_zero _ => true | _ => false end.

(** A finite number other than zero. *)
Definition is_finite_nonzero (x : float) : bool :=
  match x with S754_finite _ _ _ => true | _ => false end.

(** The same float, or two zeros whatever their signs. *)
Definition same_value (x y : float) : Prop :=
  x = y \/ (is_zero x = true /\ is_zero y = true).

Definition zero : float := S754_zero false.
Definition one (dt : dtype) : float := SFone (prec dt) (emax dt).
Definition infinity : float := S754_infinity false.
Definition nan : float := S754_nan.

End IEEE.

(* ================================================================== *)
(** ** The fragment of Python and numpy the script uses *)

Module Py.

Import IEEE.

(** Exceptions the modelled statements can raise. *)
Inductive exn : Type :=
| ZeroDivisionError
| OverflowError
| TypeError
| ValueError
| IndexError
| NameError
| AttributeError
| ImportError
| FileNotFoundError.

Inductive result (A : Type) : Type :=
| Ok (a : A)
| Raise (e : exn).
Arguments Ok {A} a.
Arguments Raise {A} e.

Definition rbind {A B : Type} (r : result A) (k : A -> result B) : result B :=
  match r with
  | Ok a => k a
  | Raise e => Raise e
  end.

(** [float(z)] for an [int]: the nearest binary64 value, and
    [OverflowError] when that is not finite. *)
Definition float_of_int (z : Z) : result float :=
  let x := of_Z float64 z in
  if is_infinite x then Raise OverflowError else Ok x.

(** [x / b] for a float [x] and a float [b]. *)
Definition float_truediv (x b : float) : result float :=
  match b with
  | S754_zero _ => Raise ZeroDivisionError
  | _ => Ok (div float64 x b)
  end.

(** [x / n] for a float [x] and an [int] [n]: the integer is converted
    first. *)
Definition float_truediv_int (x : float) (n : Z) : result float :=
  rbind (float_of_int n) (float_truediv x).

(** [a / b] for two [int]s.  CPython divides the two converted
    operands when both have at most 53 bits, which is the case modelled
    (longer operands go through a correctly rounded long division). *)
Definition int_truediv (a b : Z) : result float :=
  rbind (float_of_int a) (fun x => float_truediv_int x b).

(** [n - x], [x * n] and [x + y] with an [int] [n] and floats [x], [y]. *)
Definition int_sub_float (n : Z) (x : float) : result float :=
  rbind (float_of_int n) (fun y => Ok (sub float64 y x)).

Definition float_mul_int (x : float) (n : Z) : result float :=
  rbind (float_of_int n) (fun y => Ok (mul float64 x y)).

Definition float_add (x y : float) : float := add float64 x y.

(** A one-dimensional numpy array, flattened. *)
Definition ndarray : Type := list float.

(** [arr * w] for an array of element type [dt] and a Python float
    [w]: the scalar takes the element type of the array. *)
Definition array_mul_scalar (dt : dtype) (arr : ndarray) (w : float) : ndarray :=
  map (fun x => mul dt x (cast dt w)) arr.

(** [w * arr], the same product with the scalar on the left. *)
Definition scalar_mul_array (dt : dtype) (w : float) (arr : ndarray) : ndarray :=
  map (fun x => mul dt (cast dt w) x) arr.

(** [a + b] for two arrays of one shape. *)
Fixpoint array_add (dt : dtype) (a b : ndarray) : ndarray :=
  match a, b with
  | x :: a', y :: b' => add dt x y :: array_add dt a' b'
  | _, _ => []
  end.

(** Element-wise [==], as [numpy.array_equal]. *)
Fixpoint array_eqb (a b : ndarray) : bool :=
  match a, b with
  | [], [] => true
  | x :: a', y :: b' => eqb x y && array_eqb a' b'
  | _, _ => false
  end.

(** The literal [0.5]. *)
Definition lit_0_5 : float := S754_finite false 4503599627370496 (-53).
(** The literal [0.1]. *)
Definition lit_0_1 : float := S754_finite false 7205759403792794 (-56).
(** The literal [0.9]. *)
Definition lit_0_9 : float := S754_finite false 8106479329266893 (-53).
(** The literal [1.0]. *)
Definition lit_1_0 : float := S754_finite false 4503599627370496 (-52).

End Py.

(* ================================================================== *)
(** ** The arithmetic of one frame (lines 356-397 of the script) *)

Module Frame.

Import IEEE Py.

(** [np.float(j)/(n_steps_interp-1)] *)
Definition step_fraction (j n_steps_interp : Z) : result float :=
  rbind (float_of_int j) (fun x => float_truediv_int x (n_steps_interp - 1)).

(** [row_i*(1-np.float(j)/(n_steps_interp-1)) +
     row_i1*(np.float(j)/(n_steps_interp-1))], on two rows of an array
    of element type [dt]. *)
Definition blend (dt : dtype) (row_i row_i1 : ndarray) (j n_steps_interp : Z)
  : result ndarray :=
  rbind (step_fraction j n_steps_interp) (fun w =>
  rbind (int_sub_float 1 w) (fun w1 =>
  let left := array_mul_scalar dt row_i w1 in
  rbind (step_fraction j n_steps_interp) (fun w2 =>
  let right := array_mul_scalar dt row_i1 w2 in
  Ok (array_add dt left right)))).

(** [shp_interp], from rows [i] and [i+1] of [latent_rep_total]. *)
Definition shp_interp (dt : dtype) (lat_i lat_i1 : ndarray) (j n_steps_interp : Z)
  : result ndarray :=
  blend dt lat_i lat_i1 j n_steps_interp.

(** [col_interp], from rows [i] and [i+1] of [color_shape] (a
    [np.zeros] array, hence binary64). *)
Definition col_interp (col_i col_i1 : ndarray) (j n_steps_interp : Z)
  : result ndarray :=
  rbind (blend float64 col_i col_i1 j n_steps_interp) (fun s =>
  Ok (scalar_mul_array float64 lit_0_5 s)).

(** [ar_range = 180] *)
Definition ar_range : Z := 180.

(** [az = (90-ar_range/2) + (cntr/(n_shapes*n_steps_interp))*ar_range] *)
Definition az (cntr n_shapes n_steps_interp : Z) : result float :=
  rbind (int_truediv ar_range 2) (fun h =>
  rbind (int_sub_float 90 h) (fun start =>
  rbind (int_truediv cntr (n_shapes * n_steps_interp)) (fun frac =>
  rbind (float_mul_int frac ar_range) (fun sweep =>
  Ok (float_add start sweep))))).

End Frame.

(* ================================================================== *)
(** ** The random number generators *)

Module Rng.

(** numpy's global generator and the one of Python's [random] module.
    Both are library code: a state, the state a seed gives, and for
    [np.random.choice] the positions it draws from a population of
    [pop] elements, as a function of the state. *)
Record generators : Type := {
  np_state : Type;
  np_seed : Z -> np_state;
  np_draw : np_state -> forall (pop size : nat) (replace : bool), list nat * np_state;
  py_state : Type;
  py_seed : Z -> py_state
}.

(** What numpy documents of [choice]: [size] draws, each a position of
    the population. *)
Record numpy_contract (G : generators) : Prop := {
  draw_length : forall s pop size replace,
    List.length (fst (np_draw G s pop size replace)) = size;
  draw_range : forall s pop size replace,
    (0 < pop)%nat ->
    Forall (fun k => (k < pop)%nat) (fst (np_draw G s pop size replace))
}.

(** A small generator that meets the contract, to run the model on. *)
Definition counter_generators : generators := {|
  np_state := nat;
  np_seed := fun s => Z.to_nat s;
  np_draw := fun s pop size _ =>
    (map (fun k => ((s + k) mod pop)%nat) (seq 0 size), (s + size)%nat);
  py_state := nat;
  py_seed := fun s => Z.to_nat s
|}.

End Rng.

(* ================================================================== *)
(** ** The script *)

Module Script.

Import IEEE Py Frame Rng.
Local Open Scope string_scope.

(** *** Values read from outside *)

(** [args], as [argparse] leaves it: an option that was not given is
    [None]. *)
Record args : Type := {
  N : option Z;
  LR : option Z;
  GPU : option Z;
  VAE : option string
}.

Definition point : Type := (float * float * float)%type.
Definition cloud : Type := list point.

(** The files, the trained model and the command line of one run. *)
Record world : Type := {
  argv : args;
  (** [osp.exists] *)
  path_exists : string -> bool;
  (** [log_dictionary["pc_size"]], when the module can be imported *)
  log_dictionary : option nat;
  (** column 0 of [pd.read_csv(path, header=None)], for the lists of
      geometry files *)
  csv_names : string -> option (list string);
  (** columns 0 to 2 of a point file *)
  csv_points : string -> option cloud;
  (** [normvalues.csv], flattened *)
  csv_values : string -> option (list float);
  (** element type and values of the tensor [latent_rep:0], one row per
      shape of the batch *)
  latent_dtype : dtype;
  encoder : list cloud -> list ndarray;
  (** the tensor [PC:0] for one latent code *)
  decoder : ndarray -> cloud
}.

(** *** Settings (lines 214-220) *)

Record settings : Type := {
  n_shapes_trainingset : nat;
  n_shapes_testset : nat;
  n_steps_interp : nat
}.

(** The values the script assigns. *)
Definition script_settings : settings := {|
  n_shapes_trainingset := 5;
  n_shapes_testset := 5;
  n_steps_interp := 5
|}.

(** *** Strings *)

(** [str(z)] for an [int]. *)
Definition str_of_int (z : Z) : string := NilZero.string_of_int (Z.to_int z).

(** ['{}'.format(v)] for an [int] or [None]. *)
Definition format_arg (v : option Z) : string :=
  match v with
  | None => "None"
  | Some z => str_of_int z
  end.

Fixpoint zeros (n : nat) : string :=
  match n with
  | O => ""
  | S n' => String "0" (zeros n')
  end.

(** [s.zfill(width)] for the decimal of a natural number. *)
Definition zfill (width : nat) (s : string) : string :=
  zeros (width - String.length s) ++ s.

(** [c.lower()] on an ASCII letter.  Outside ASCII [str.lower] never
    yields one of the letters of ["true"], and such characters are left
    as they are. *)
Definition lower_ascii (c : ascii) : ascii :=
  let n := nat_of_ascii c in
  if ((65 <=? n) && (n <=? 90))%nat then ascii_of_nat (n + 32) else c.

Fixpoint lower (s : string) : string :=
  match s with
  | EmptyString => EmptyString
  | String c s' => String (lower_ascii c) (lower s')
  end.

(** *** The VAE flag (lines 104-110) *)

(** [v.lower()], where [v] may be [None], which has no such method. *)
Definition method_lower (v : option string) : result string :=
  match v with
  | None => Raise AttributeError
  | Some s => Ok (lower s)
  end.

Definition flagVAE (a : args) : result bool :=
  match VAE a with
  | None => Ok false
  | Some _ =>
      rbind (method_lower (VAE a)) (fun l =>
      if String.eqb l "true" then Ok true else Ok false)
  end.

(** [name_exp] (lines 211-212) *)
Definition name_exp (a : args) (flag : bool) : string :=
  let base := "pcae_N" ++ format_arg (N a) ++ "_LR" ++ format_arg (LR a) in
  if flag then "v_" ++ base else base.

(** [top_dir] (line 225) *)
Definition top_dir (a : args) (flag : bool) : string :=
  "Network_" ++ name_exp a flag.

(** *** Calls of the functions defined in the script *)

(** Parameters of a [def], the last [n_defaults] of them with a
    default value. *)
Record signature : Type := {
  params : list string;
  n_defaults : nat
}.

(** [def plot3(PC, Filename, colorname='tan')] *)
Definition plot3_signature : signature :=
  {| params := ["PC"; "Filename"; "colorname"]; n_defaults := 1 |}.

(** [def PC_html(PC1, PC2, figname)] *)
Definition PC_html_signature : signature :=
  {| params := ["PC1"; "PC2"; "figname"]; n_defaults := 0 |}.

Definition mem (k : string) (l : list string) : bool :=
  existsb (String.eqb k) l.

(** Python binds a call with [n_pos] positional arguments and the
    keywords [kw] when the positional ones fit, every keyword names a
    parameter that is still free, and every parameter without a default
    gets a value; otherwise the call raises [TypeError] before the body
    runs. *)
Definition binds (sg : signature) (n_pos : nat) (kw : list string) : bool :=
  let free := skipn n_pos (params sg) in
  let required := firstn (List.length (params sg) - n_defaults sg) (params sg) in
  (n_pos <=? List.length (params sg))%nat
  && forallb (fun k => mem k free) kw
  && forallb (fun p => mem p kw) (skipn n_pos required).

(** *** Observable effects *)

(** A value passed to a function by keyword: a number or an array. *)
Inductive value : Type :=
| Number (x : float)
| Array (a : ndarray).

(** The effects of the script, with what they are given: the decoder
    runs on a latent code, and a frame is rendered into a file by a call
    of [plot3] with its keyword arguments. *)
Inductive event : Type :=
| Putenv (name value : string)
| System (command : string)
| Print (text : string)
| Import (module : string)
| ReadCsv (path : string)
| WriteCsv (path : string) (rows : list string)
| RestoreGraph (meta directory : string)
| RunEncoder (n_shapes : nat)
| RunDecoder (latent_interp : ndarray)
| WriteHtml (path : string)
| WritePng (path : string) (kw : list (string * value)).

(** An effect that reads geometry, normalization or model data, or
    writes a file. *)
Definition loads_or_writes (e : event) : bool :=
  match e with
  | Putenv _ _ | Print _ => false
  | System c => negb (String.eqb c "clear")
  | _ => true
  end.

Definition is_png (e : event) : bool :=
  match e with WritePng _ _ => true | _ => false end.

Definition is_html (e : event) : bool :=
  match e with WriteHtml _ => true | _ => false end.

(** The number of PNG frames a log holds. *)
Definition count_png (l : list event) : nat := List.length (filter is_png l).

Definition count_html (l : list event) : nat := List.length (filter is_html l).

(** The file an effect writes, for the files the script writes
    itself. *)
Definition written (e : event) : option string :=
  match e with
  | WriteCsv path _ | WriteHtml path | WritePng path _ => Some path
  | _ => None
  end.

(** The value a call passed for the keyword [k]. *)
Definition keyword (k : string) (kw : list (string * value)) : option value :=
  match find (fun p => String.eqb k (fst p)) kw with
  | Some p => Some (snd p)
  | None => None
  end.

(** The azimuth a frame was rendered with. *)
Definition azimuth (e : event) : option float :=
  match e with
  | WritePng _ kw =>
      match keyword "az" kw with
      | Some (Number a) => Some a
      | _ => None
      end
  | _ => None
  end.

(** The azimuths of the frames of a log, in rendering order. *)
Fixpoint angles (l : list event) : list float :=
  match l with
  | [] => []
  | e :: l' =>
      match azimuth e with
      | Some a => a :: angles l'
      | None => angles l'
      end
  end.

(** The latent codes a log gave to the decoder, in order. *)
Fixpoint decoded (l : list event) : list ndarray :=
  match l with
  | [] => []
  | RunDecoder latent_interp :: l' => latent_interp :: decoded l'
  | _ :: l' => decoded l'
  end.

(** *** The computation: a state, an outcome, a log *)

Section Run.

Context (G : generators).

(** One call of [np.random.choice]: what it was asked and what it
    drew. *)
Record draw : Type := {
  population : nat;
  sample_size : nat;
  with_replacement : bool;
  drawn : list nat
}.

(** The two generators, the calls of [np.random.choice] so far and
    the effects so far, oldest first. *)
Record state : Type := {
  np_rng : np_state G;
  py_rng : py_state G;
  draws : list draw;
  log : list event
}.

(** How a statement ends: normally, by an exception, or by [exit()]. *)
Inductive outcome (A : Type) : Type :=
| Return (a : A)
| Raised (e : exn)
| Exited.
Arguments Return {A} a.
Arguments Raised {A} e.
Arguments Exited {A}.

Definition M (A : Type) : Type := state -> outcome A * state.

Definition ret {A : Type} (a : A) : M A := fun s => (Return a, s).

Definition bind {A B : Type} (c : M A) (k : A -> M B) : M B :=
  fun s =>
    match c s with
    | (Return a, s') => k a s'
    | (Raised e, s') => (Raised e, s')
    | (Exited, s') => (Exited, s')
    end.

Definition raise {A : Type} (e : exn) : M A := fun s => (Raised e, s).

(** [exit()] *)
Definition exit {A : Type} : M A := fun s => (Exited, s).

Definition lift {A : Type} (r : result A) : M A :=
  match r with
  | Ok a => ret a
  | Raise e => raise e
  end.

Definition emit (e : event) : M unit :=
  fun s => (Return tt,
            {| np_rng := np_rng s; py_rng := py_rng s;
               draws := draws s; log := log s ++ [e] |}).

(** [c] only adds effects to the log, and each of them satisfies
    [P]. *)
Definition appends {A : Type} (P : event -> Prop) (c : M A) : Prop :=
  forall s, exists es, log (snd (c s)) = (log s ++ es)%list /\ Forall P es.

Notation "x <- c ;; k" := (bind c (fun x => k))
  (at level 61, c at next level, right associativity).
Notation "c ;;; k" := (bind c (fun _ => k))
  (at level 61, right associativity).

(** A [for] loop that carries the variables [acc] it assigns. *)
Fixpoint for_each {A B : Type} (l : list A) (body : B -> A -> M B) (acc : B) : M B :=
  match l with
  | [] => ret acc
  | a :: l' => acc' <- body acc a ;; for_each l' body acc'
  end.

(** [np.random.seed(seed=z)] and [random.seed(z)] *)
Definition np_random_seed (z : Z) : M unit :=
  fun s => (Return tt,
            {| np_rng := np_seed G z; py_rng := py_rng s;
               draws := draws s; log := log s |}).

Definition random_seed (z : Z) : M unit :=
  fun s => (Return tt,
            {| np_rng := np_rng s; py_rng := py_seed G z;
               draws := draws s; log := log s |}).

(** [np.random.choice(np.array(range(pop)).flatten(), size, replace)]:
    numpy refuses an empty population unless no sample is taken, and
    a sample without replacement larger than the population. *)
Definition np_random_choice (pop size : nat) (replace : bool) : M (list nat) :=
  fun s =>
    if ((pop =? 0) && negb (size =? 0))%nat then (Raised ValueError, s)
    else if (negb replace && (pop <? size))%nat then (Raised ValueError, s)
    else
      let (idx, rng') := np_draw G (np_rng s) pop size replace in
      (Return idx,
       {| np_rng := rng'; py_rng := py_rng s;
          draws := draws s ++ [{| population := pop; sample_size := size;
                                  with_replacement := replace; drawn := idx |}];
          log := log s |}).

(** *** Arrays *)

(** [l[i]] *)
Definition index {A : Type} (l : list A) (i : nat) : result A :=
  match nth_error l i with
  | Some a => Ok a
  | None => Raise IndexError
  end.

(** [l[i] = v] *)
Fixpoint assign {A : Type} (l : list A) (i : nat) (v : A) : result (list A) :=
  match l, i with
  | [], _ => Raise IndexError
  | _ :: l', O => Ok (v :: l')
  | a :: l', S i' => rbind (assign l' i' v) (fun r => Ok (a :: r))
  end.

(** [l[-1] = v] *)
Definition assign_last {A : Type} (l : list A) (v : A) : result (list A) :=
  match List.length l with
  | O => Raise IndexError
  | S n => assign l n v
  end.

(** [pc_load[pc_sample,:]] *)
Fixpoint take_rows (pc_load : cloud) (pc_sample : list nat) : result cloud :=
  match pc_sample with
  | [] => Ok []
  | k :: rest =>
      rbind (index pc_load k) (fun p =>
      rbind (take_rows pc_load rest) (fun ps => Ok (p :: ps)))
  end.

(** [vis_set[k,:,:] = rows], into a batch of [pc_size] points a
    shape: the rows must be as many. *)
Definition set_rows (vis_set : list cloud) (pc_size k : nat) (rows : cloud)
  : result (list cloud) :=
  if (List.length rows =? pc_size)%nat then assign vis_set k rows
  else Raise ValueError.

(** [color_shape[k,c] = 1] *)
Definition set_color (color_shape : list ndarray) (k c : nat)
  : result (list ndarray) :=
  rbind (index color_shape k) (fun row =>
  rbind (assign row c lit_1_0) (fun row' =>
  assign color_shape k row')).

Definition origin : point := (zero, zero, zero).

(** The coordinates of a batch, shape by shape and point by point. *)
Definition coordinates (batch : list cloud) : list float :=
  flat_map (flat_map (fun p : point => let '(x, y, z) := p in [x; y; z])) batch.

(** A batch of [n] clouds of [pc_size] points each. *)
Definition batch_shaped (pc_size n : nat) (vis : list cloud) : Prop :=
  List.length vis = n /\ Forall (fun c => List.length c = pc_size) vis.

(** *** Loading the shapes (lines 252-304) *)

Context (w : world) (st : settings).

Definition read_names (path : string) : M (list string) :=
  emit (ReadCsv path) ;;;
  match csv_names w path with
  | Some l => ret l
  | None => raise FileNotFoundError
  end.

Definition read_points (path : string) : M cloud :=
  emit (ReadCsv path) ;;;
  match csv_points w path with
  | Some l => ret l
  | None => raise FileNotFoundError
  end.

Definition read_values (path : string) : M (list float) :=
  emit (ReadCsv path) ;;;
  match csv_values w path with
  | Some l => ret l
  | None => raise FileNotFoundError
  end.

(** The variables the loading loops assign; [pc_load] and
    [pc_sample] are unbound until a loop body has run. *)
Record loading : Type := {
  i_sel_training : list nat;
  i_sel_testing : list nat;
  vis_set : list cloud;
  color_shape : list ndarray;
  log_reconst : list string;
  cntr : nat;
  pc_load : option cloud;
  pc_sample : option (list nat)
}.

(** The [if pc_load.shape[0] < pc_size] statement of both loops. *)
Definition resample (pts : cloud) (pc_size : nat) : M (list nat) :=
  if (List.length pts <? pc_size)%nat
  then np_random_choice (List.length pts) pc_size true
  else np_random_choice (List.length pts) pc_size false.

(** The body of the two loops, for shape [i] of the list [geom]; the
    training loop marks component 2 of the color and the test loop
    component 0.  (The two bodies append to [log_reconst] on either
    side of reading the file, which no effect tells apart.) *)
Definition load_shape (geom : list string) (pc_size component : nat)
           (v : loading) (i : nat) : M loading :=
  name <- lift (index geom i) ;;
  pts <- read_points name ;;
  idx <- resample pts pc_size ;;
  colors <- lift (set_color (color_shape v) (cntr v) component) ;;
  rows <- lift (take_rows pts idx) ;;
  vis <- lift (set_rows (vis_set v) pc_size (cntr v) rows) ;;
  ret {| i_sel_training := i_sel_training v;
         i_sel_testing := i_sel_testing v;
         vis_set := vis;
         color_shape := colors;
         log_reconst := log_reconst v ++ [name];
         cntr := S (cntr v);
         pc_load := Some pts;
         pc_sample := Some idx |}.

Definition bound {A : Type} (v : option A) : M A :=
  match v with
  | Some a => ret a
  | None => raise NameError
  end.

Definition load_shapes (geom_training geom_testing : list string) (pc_size : nat)
  : M loading :=
  sel_training <-
    np_random_choice (List.length geom_training) (n_shapes_trainingset st) false ;;
  sel_testing <-
    np_random_choice (List.length geom_testing) (n_shapes_testset st) false ;;
  let n := (n_shapes_trainingset st + n_shapes_testset st)%nat in
  let v0 := {| i_sel_training := sel_training;
               i_sel_testing := sel_testing;
               vis_set := repeat (repeat origin pc_size) n;
               color_shape := repeat (repeat zero 3) (n + 1);
               log_reconst := [];
               cntr := 0;
               pc_load := None;
               pc_sample := None |} in
  v1 <- for_each sel_training (load_shape geom_training pc_size 2) v0 ;;
  v2 <- for_each sel_testing (load_shape geom_testing pc_size 0) v1 ;;
  (* vis_set[-1,:,:] = pc_load[pc_sample,:] *)
  pts <- bound (pc_load v2) ;;
  idx <- bound (pc_sample v2) ;;
  rows <- lift (take_rows pts idx) ;;
  vis <- lift (if (List.length rows =? pc_size)%nat
               then assign_last (vis_set v2) rows
               else Raise ValueError) ;;
  (* color_shape[-1, 2] = 1 *)
  colors <- lift (set_color (color_shape v2) (List.length (color_shape v2) - 1) 2) ;;
  ret {| i_sel_training := sel_training;
         i_sel_testing := sel_testing;
         vis_set := vis;
         color_shape := colors;
         log_reconst := log_reconst v2;
         cntr := cntr v2;
         pc_load := pc_load v2;
         pc_sample := pc_sample v2 |}.

(** Row [row] of the batch holds the points of the geometry file
    [fst nd] at the positions drawn in the call [snd nd] of
    [np.random.choice]. *)
Definition sampled_from (pc_size : nat) (nd : string * draw) (row : cloud) : Prop :=
  exists pts,
    csv_points w (fst nd) = Some pts
    /\ population (snd nd) = List.length pts
    /\ sample_size (snd nd) = pc_size
    /\ take_rows pts (drawn (snd nd)) = Ok row.

(** *** Normalization (lines 306-319) *)

(** Modelled from the spec: [data_set_norm] of the module
    [preproc_scripts], which the script imports and which is not among
    the sources.  The spec has it normalize the point clouds "into a
    fixed numeric range using dataset-wide min/max statistics": each
    coordinate is taken to its position between the input limits and
    from there to the same position between the output limits. *)
Definition rescale (out_lim inp_lim : float * float) (x : float) : float :=
  let unit := div float64 (sub float64 x (fst inp_lim))
                          (sub float64 (snd inp_lim) (fst inp_lim)) in
  add float64 (mul float64 unit (sub float64 (snd out_lim) (fst out_lim)))
              (fst out_lim).

Definition rescale_point (out_lim inp_lim : float * float) (p : point) : point :=
  let '(x, y, z) := p in
  (rescale out_lim inp_lim x, rescale out_lim inp_lim y, rescale out_lim inp_lim z).

(** Modelled from the spec: the call returns the normalized batch and
    the input limits it used. *)
Definition data_set_norm (batch : list cloud) (out_lim inp_lim : float * float)
  : list cloud * (float * float) :=
  (map (map (rescale_point out_lim inp_lim)) batch, inp_lim).

(** Lines 308-315: [maX = normDS[0]], [miX = normDS[1]],
    [Delta = maX - miX] and the call of [data_set_norm]. *)
Definition normalize_with (normDS : list float) (batch : list cloud)
  : result (list cloud) :=
  rbind (index normDS 0) (fun maX =>
  rbind (index normDS 1) (fun miX =>
  let Delta := sub float64 maX miX in
  Ok (fst (data_set_norm batch (lit_0_1, lit_0_9) (miX, maX))))).

Definition normalize (top : string) (v : loading) : M (list cloud) :=
  normDS <- read_values (top ++ "/normvalues.csv") ;;
  vis <- lift (normalize_with normDS (vis_set v)) ;;
  emit (WriteCsv (top ++ "/geometries_reconstruction.csv") (log_reconst v)) ;;;
  ret vis.

(** *** Interpolation and plots (lines 321-403) *)

(** A call [plot3(PC, Filename, **kw)] of a function with signature
    [sg]; the body takes a screenshot into [Filename]. *)
Definition plot3 (sg : signature) (Filename : string) (kw : list (string * value))
  : M unit :=
  if binds sg 2 (map fst kw) then emit (WritePng Filename kw) else raise TypeError.

(** [PC_html(PC1, PC2, figname)]; the body writes [figname]. *)
Definition PC_html (figname : string) : M unit :=
  if binds PC_html_signature 3 [] then emit (WriteHtml figname) else raise TypeError.

(** ["{}/PC_{}_reconstruction.html".format(dir_pc_plot, i)] *)
Definition html_name (dir_pc_plot : string) (i : nat) : string :=
  dir_pc_plot ++ "/PC_" ++ str_of_int (Z.of_nat i) ++ "_reconstruction.html".

(** ["{}/PC_{}_{}.png".format(dir_pc_plot, str(i).zfill(5), str(j).zfill(3))] *)
Definition pc_name (dir_pc_plot : string) (i j : nat) : string :=
  dir_pc_plot ++ "/PC_" ++ zfill 5 (str_of_int (Z.of_nat i))
              ++ "_" ++ zfill 3 (str_of_int (Z.of_nat j)) ++ ".png".

(** One pass of the inner loop; [cntr] is the global frame counter. *)
Definition frame (sg : signature) (dir_pc_plot : string)
           (vis : list cloud) (latent_rep_total color : list ndarray)
           (n_shapes i : nat) (cntr j : nat) : M nat :=
  let steps := Z.of_nat (n_steps_interp st) in
  lat_i <- lift (index latent_rep_total i) ;;
  lat_i1 <- lift (index latent_rep_total (i + 1)) ;;
  latent_interp <-
    lift (shp_interp (latent_dtype w) lat_i lat_i1 (Z.of_nat j) steps) ;;
  col_i <- lift (index color i) ;;
  col_i1 <- lift (index color (i + 1)) ;;
  col <- lift (col_interp col_i col_i1 (Z.of_nat j) steps) ;;
  emit (RunDecoder latent_interp) ;;;
  let pc_interpolated := decoder w latent_interp in
  (if (j =? 0)%nat
   then shape <- lift (index vis i) ;; PC_html (html_name dir_pc_plot i)
   else ret tt) ;;;
  a <- lift (az (Z.of_nat cntr) (Z.of_nat n_shapes) steps) ;;
  let cntr' := S cntr in
  plot3 sg (pc_name dir_pc_plot i j) [("az", Number a); ("col", Array col)] ;;;
  ret cntr'.

(** The state after more effects, and the effects of one frame before
    it calls [plot3]. *)
Definition logged (s : state) (es : list event) : state :=
  {| np_rng := np_rng s; py_rng := py_rng s; draws := draws s;
     log := (log s ++ es)%list |}.

Definition frame_effects (dir_pc_plot : string) (i j : nat) (latent_interp : ndarray)
  : list event :=
  RunDecoder latent_interp
  :: (if (j =? 0)%nat then [WriteHtml (html_name dir_pc_plot i)] else []).

(** The frames of [es] were rendered with the azimuths of the
    counters [c], [c+1], ... in this order, one counter for each frame:
    line 396 with [cntr] the number of frames rendered before. *)
Definition ramp (n_shapes c : nat) (es : list event) : Prop :=
  Forall2 (fun k a => az (Z.of_nat k) (Z.of_nat n_shapes)
                         (Z.of_nat (n_steps_interp st)) = Ok a)
          (seq c (count_png es)) (angles es).

(** The nested loop, for a function [plot3] of signature [sg]; the
    result is the final [cntr]. *)
Definition interpolation_loop_with (sg : signature) (dir_pc_plot : string)
           (vis : list cloud) (latent_rep_total color : list ndarray) : M nat :=
  let n_shapes := List.length vis in
  for_each (seq 0 n_shapes)
    (fun cntr i =>
       for_each (seq 0 (n_steps_interp st))
         (fun cntr j =>
            frame sg dir_pc_plot vis latent_rep_total color n_shapes i cntr j)
         cntr)
    0%nat.

(** The loop of the script, which calls the [plot3] it defines. *)
Definition interpolation_loop : string -> list cloud -> list ndarray ->
                                list ndarray -> M nat :=
  interpolation_loop_with plot3_signature.

(** Lines 321-403, for a function [plot3] of signature [sg]. *)
Definition visualize_with (sg : signature) (flag : bool) (top : string)
           (vis : list cloud) (color : list ndarray) : M unit :=
  let dir_pc_plot := top ++ "/point_cloud_interpolation" in
  let metaf := if flag then "vpcae" else "pcae" in
  emit (System ("mkdir " ++ dir_pc_plot)) ;;;
  emit (RestoreGraph (top ++ "/" ++ metaf ++ ".meta") (top ++ "/")) ;;;
  emit (RunEncoder (List.length vis)) ;;;
  let latent := encoder w vis in
  first <- lift (index latent 0) ;;
  let latent_rep_total := (latent ++ [first])%list in
  interpolation_loop_with sg dir_pc_plot vis latent_rep_total color ;;;
  emit (System ("convert -delay 40 -loop 0 " ++ dir_pc_plot
                  ++ "/*.png         " ++ dir_pc_plot ++ "/interpolation.gif")).

(** The same with the [plot3] the script defines. *)
Definition visualize : bool -> string -> list cloud -> list ndarray -> M unit :=
  visualize_with plot3_signature.

(** *** The script, top to bottom *)

(** Lines 101-120. *)
Definition initialization : M bool :=
  emit (Putenv "CUDA_VISIBLE_DEVICES" (format_arg (GPU (argv w)))) ;;;
  flag <- lift (flagVAE (argv w)) ;;
  emit (System "clear") ;;;
  np_random_seed 0 ;;;
  random_seed 0 ;;;
  ret flag.

(** Lines 225-228. *)
Definition check_top_dir (top : string) : M unit :=
  if negb (path_exists w top)
  then emit (Print ("Directory " ++ top ++ " does not exist!")) ;;; exit
  else ret tt.

(** Lines 230-233 and 254. *)
Definition import_log_dictionary (top : string) : M nat :=
  emit (System ("cp " ++ top ++ "/log_dictionary.py .")) ;;;
  emit (Import "log_dictionary") ;;;
  pc_size <- (match log_dictionary w with
              | Some d => ret d
              | None => raise ImportError
              end) ;;
  emit (System "rm log_dictionary.py") ;;;
  ret pc_size.

(** The script up to the end of the loading loops (line 304). *)
Definition select_shapes : M (bool * string * loading) :=
  flag <- initialization ;;
  let top := top_dir (argv w) flag in
  check_top_dir top ;;;
  pc_size <- import_log_dictionary top ;;
  geom_training <- read_names (top ++ "/geometries_training.csv") ;;
  geom_testing <- read_names (top ++ "/geometries_testing.csv") ;;
  v <- load_shapes geom_training geom_testing pc_size ;;
  ret (flag, top, v).

Definition main : M unit :=
  sel <- select_shapes ;;
  let '(flag, top, v) := sel in
  vis <- normalize top v ;;
  visualize flag top vis (color_shape v) ;;;
  exit.

(** The state a run starts in: whatever the two generators hold, no
    draw and no effect yet. *)
Definition initial (np0 : np_state G) (py0 : py_state G) : state :=
  {| np_rng := np0; py_rng := py0; draws := []; log := [] |}.

End Run.

Arguments Return {A} a.
Arguments Raised {A} e.
Arguments Exited {A}.
Arguments np_rng {G} s.
Arguments py_rng {G} s.
Arguments draws {G} s.
Arguments log {G} s.
Arguments logged {G} s es.

End Script.

(* ================================================================== *)
(** ** Small worlds to run the script on *)

Module Examples.

Import IEEE Py Rng Script.
Local Open Scope string_scope.

Definition pt (z : Z) : point :=
  (of_Z float64 z, of_Z float64 (z + 1), of_Z float64 (z + 2)).

(** A network directory with three training and two test geometries;
    geometry [a] has three points, the others six; the model was trained
    on clouds of four points and has two latent variables. *)
Definition small_world : world := {|
  argv := {| N := Some 4; LR := Some 2; GPU := Some 0; VAE := Some "False" |};
  path_exists := fun _ => true;
  log_dictionary := Some 4%nat;
  csv_names := fun p =>
    if String.eqb p "Network_pcae_N4_LR2/geometries_training.csv"
    then Some ["a"; "b"; "c"] else Some ["d"; "e"];
  csv_points := fun p =>
    if String.eqb p "a" then Some (map pt [1; 2; 3])
    else Some (map pt [1; 2; 3; 4; 5; 6]);
  csv_values := fun _ => Some [of_Z float64 10; of_Z float64 0];
  latent_dtype := float32;
  encoder := fun vs =>
    map (fun c => [of_Z float32 (Z.of_nat (List.length c)); of_Z float32 7]) vs;
  decoder := fun l => map (fun x => (x, x, x)) l
|}.

(** The same command line where no directory exists. *)
Definition empty_world : world := {|
  argv := argv small_world;
  path_exists := fun _ => false;
  log_dictionary := None;
  csv_names := fun _ => None;
  csv_points := fun _ => None;
  csv_values := fun _ => None;
  latent_dtype := float32;
  encoder := fun _ => [];
  decoder := fun _ => []
|}.

(** Two training shapes, two test shapes, five steps. *)
Definition two_two_five : settings := {|
  n_shapes_trainingset := 2;
  n_shapes_testset := 2;
  n_steps_interp := 5
|}.

(** The start of a run with the small generator. *)
Definition start : state counter_generators := initial counter_generators 0%nat 0%nat.

(** A batch of two shapes, of two and of three points. *)
Definition two_shapes : list cloud := [map pt [1; 2]; map pt [1; 2; 3]].

(** A [plot3] that takes the keywords of the call in the loop. *)
Definition plot3_with_az_col : signature :=
  {| params := ["PC"; "Filename"; "az"; "col"]; n_defaults := 2 |}.

End Examples.

(* ================================================================== *)
(** ** What the spec says, in its own words *)

Module Spec.

Import IEEE Py Frame Script.

(** "floating-point division of the integers j and S-1" *)
Definition fraction (j S : Z) : float :=
  div float64 (of_Z float64 j) (of_Z float64 (S - 1)).

(** "A*(1 - j/(S-1)) + B*(j/(S-1))" *)
Definition interpolation (dt : dtype) (A B : ndarray) (j S : Z) : ndarray :=
  array_add dt
    (array_mul_scalar dt A (sub float64 (of_Z float64 1) (fraction j S)))
    (array_mul_scalar dt B (fraction j S)).

(** "half of C" *)
Definition half (C : ndarray) : ndarray := scalar_mul_array float64 lit_0_5 C.

(** "0.5 * (C1*(1 - j/(S-1)) + C2*(j/(S-1)))" *)
Definition color_blend (C1 C2 : ndarray) (j S : Z) : ndarray :=
  half (interpolation float64 C1 C2 j S).

(** A vector of numbers of the format: no infinity, no NaN. *)
Definition numeric (dt : dtype) (A : ndarray) : Prop :=
  Forall (fun x => is_finite dt x = true) A.

(** "a 3-component color label" *)
Definition color_label (C : ndarray) : Prop :=
  List.length C = 3%nat /\ numeric float64 C.

(** An array of [n] color labels. *)
Definition colors_labelled (n : nat) (colors : list ndarray) : Prop :=
  Forall color_label colors /\ List.length colors = n.


(** A sequence of angles that never decreases. *)
Definition nondecreasing (l : list float) : Prop :=
  forall k k' a a',
    (k <= k')%nat -> nth_error l k = Some a -> nth_error l k' = Some a' ->
    leb a a' = true.

(** "compares equal to "true" case-insensitively" *)
Definition either (lo up c : ascii) : bool := Ascii.eqb c lo || Ascii.eqb c up.

Definition caseless_true (s : string) : bool :=
  match s with
  | String c1 (String c2 (String c3 (String c4 EmptyString))) =>
      either "t" "T" c1 && either "r" "R" c2 && either "u" "U" c3 && either "e" "E" c4
  | _ => false
  end.

End Spec.

(* ================================================================== *)
(** ** Rounding to nearest, on fractions

    The float nearest to a positive fraction, written with integer
    division: the vocabulary in which the quotient and the product of
    the azimuth formula are compared from one frame to the next. *)

Module Rounding.

Import IEEE.

(** Where [a/b] lies: its floor, whether it is at least half-way to the
    next integer, and whether it is off both the integer and the half. *)
Definition locate (a b : Z) : shr_record :=
  let r := a mod b in
  {| shr_m := a / b;
     shr_r := b <=? 2 * r;
     shr_s := negb (2 * r =? (if b <=? 2 * r then b else 0)) |}.

(** The nearest integer, ties to even. *)
Definition nearest (rec : shr_record) : Z :=
  round_nearest_even (shr_m rec) (loc_of_shr_record rec).

(** The float of mantissa [r] in [[2^52, 2^53]] at exponent [E]. *)
Definition finalize (s : bool) (r E : Z) : float :=
  if r =? 2 ^ 53 then S754_finite s (Z.to_pos (2 ^ 52)) (E + 1)
  else S754_finite s (Z.to_pos r) E.

(** The float nearest to [a / (b * 2^G)], for a fraction [a/b] whose
    floor has [53 + k] bits. *)
Definition rounded (a b k G : Z) : float :=
  finalize false (nearest (locate a (b * 2 ^ k))) (k - G).

(** [x] is the float nearest to [P/Q], a fraction in the range of the
    normal numbers below [2^53]. *)
Definition rounds_to (P Q : Z) (x : float) : Prop :=
  exists a b k G,
    x = rounded a b k G
    /\ 0 < b /\ 0 <= k <= G
    /\ 2 ^ 52 * (b * 2 ^ k) <= a < 2 ^ 53 * (b * 2 ^ k)
    /\ a * Q = P * (b * 2 ^ G).


End Rounding.

(* ================================================================== *)
(** ** Facts of IEEE arithmetic *)

Module IEEE_facts.

Import IEEE.

(** *** Rounding a number the format represents *)

Section Format.

Variables p emx : Z.

Lemma iter_pos_nat {A : Type} (f : A -> A) (n : positive) (x : A) :
  iter_pos f n x = Nat.iter (Pos.to_nat n) f x.
Proof.
  revert x. induction n as [n IH|n IH|]; intros x; cbn [iter_pos].
  - rewrite !IH, Pos2Nat.inj_xI.
    replace (S (2 * Pos.to_nat n))%nat
      with (Pos.to_nat n + S (Pos.to_nat n))%nat by lia.
    rewrite Nat.iter_add, Nat.iter_succ_r. reflexivity.
  - rewrite !IH, Pos2Nat.inj_xO.
    replace (2 * Pos.to_nat n)%nat with (Pos.to_nat n + Pos.to_nat n)%nat by lia.
    rewrite Nat.iter_add. reflexivity.
  - reflexivity.
Qed.

Lemma digits2_shl (n : nat) (m : positive) :
  Zpos (digits2_pos (Nat.iter n xO m)) = Zpos (digits2_pos m) + Z.of_nat n.
Proof.
  induction n as [|n IH].
  - cbn. lia.
  - change (Nat.iter (S n) xO m) with (xO (Nat.iter n xO m)).
    cbn [digits2_pos]. rewrite Pos2Z.inj_succ, IH. lia.
Qed.

Lemma shr_shl (n : nat) (m : positive) :
  Nat.iter n shr_1 (Build_shr_record (Zpos (Nat.iter n xO m)) false false)
  = Build_shr_record (Zpos m) false false.
Proof.
  induction n as [|n IH].
  - reflexivity.
  - rewrite Nat.iter_succ_r.
    change (Nat.iter (S n) xO m) with (xO (Nat.iter n xO m)).
    cbn [shr_1 orb]. exact IH.
Qed.

Lemma bounded_fexp (m : positive) (e : Z) :
  bounded p emx m e = true ->
  fexp p emx (Zpos (digits2_pos m) + e) = e /\ (e <=? emx - p) = true.
Proof.
  unfold bounded, canonical_mantissa. intros H.
  apply andb_prop in H. destruct H as [Hc He]. split.
  - apply Z.eqb_eq. exact Hc.
  - exact He.
Qed.

(** A mantissa shifted left by [n] bits rounds back to itself. *)
Lemma round_exact (s : bool) (m : positive) (e : Z) (n : nat) :
  bounded p emx m e = true ->
  binary_round_aux p emx s (Zpos (Nat.iter n xO m)) (e - Z.of_nat n) loc_Exact
  = S754_finite s m e.
Proof.
  intros Hb. destruct (bounded_fexp m e Hb) as [Hf He].
  assert (Hshift :
            shr_fexp p emx (Zpos (Nat.iter n xO m)) (e - Z.of_nat n) loc_Exact
            = (Build_shr_record (Zpos m) false false, e)).
  { unfold shr_fexp. cbn [Zdigits2 shr_record_of_loc].
    rewrite digits2_shl.
    replace (Zpos (digits2_pos m) + Z.of_nat n + (e - Z.of_nat n))
      with (Zpos (digits2_pos m) + e) by lia.
    rewrite Hf.
    replace (e - (e - Z.of_nat n)) with (Z.of_nat n) by lia.
    destruct n as [|n].
    - cbn. f_equal. lia.
    - remember (Nat.iter (S n) xO m) as q eqn:Hq.
      cbn [Z.of_nat]. unfold shr.
      rewrite iter_pos_nat, SuccNat2Pos.id_succ. subst q.
      rewrite shr_shl. f_equal. lia. }
  unfold binary_round_aux. rewrite Hshift.
  cbn [shr_m loc_of_shr_record round_nearest_even].
  unfold shr_fexp. cbn [Zdigits2 shr_record_of_loc]. rewrite Hf, Z.sub_diag.
  cbn [shr shr_m]. rewrite He. reflexivity.
Qed.

(** *** Rounding never yields a NaN *)

Lemma shr_1_nonneg (r : shr_record) : 0 <= shr_m r -> 0 <= shr_m (shr_1 r).
Proof.
  destruct r as [m r s]. cbn [shr_m]. intros H.
  destruct m as [|[q|q|]|q]; cbn; lia.
Qed.

Lemma shr_nonneg (r : shr_record) (e n : Z) :
  0 <= shr_m r -> 0 <= shr_m (fst (shr r e n)).
Proof.
  intros H. destruct n as [|k|k]; cbn [shr fst]; try assumption.
  rewrite iter_pos_nat. induction (Pos.to_nat k) as [|j IH].
  - exact H.
  - cbn [Nat.iter nat_rect]. apply shr_1_nonneg. exact IH.
Qed.

Lemma shr_fexp_nonneg (m e : Z) (l : location) :
  0 <= m -> 0 <= shr_m (fst (shr_fexp p emx m e l)).
Proof.
  intros H. unfold shr_fexp. apply shr_nonneg.
  destruct l as [|[]]; cbn; exact H.
Qed.

Lemma round_nearest_even_nonneg (m : Z) (l : location) :
  0 <= m -> 0 <= round_nearest_even m l.
Proof.
  intros H. destruct l as [|[]]; cbn [round_nearest_even]; try lia.
  destruct (Z.even m); lia.
Qed.

Lemma round_not_nan (s : bool) (m e : Z) (l : location) :
  0 <= m -> binary_round_aux p emx s m e l <> S754_nan.
Proof.
  intros H. unfold binary_round_aux.
  pose proof (shr_fexp_nonneg m e l H) as H1.
  destruct (shr_fexp p emx m e l) as [r1 e1]. cbn [fst] in H1.
  pose proof (shr_fexp_nonneg _ e1 loc_Exact
                (round_nearest_even_nonneg _ (loc_of_shr_record r1) H1)) as H2.
  destruct (shr_fexp p emx (round_nearest_even (shr_m r1) (loc_of_shr_record r1))
              e1 loc_Exact) as [r2 e2].
  cbn [fst] in H2.
  destruct (shr_m r2) as [|q|q]; try lia.
  - discriminate.
  - destruct (e2 <=? emx - p); discriminate.
Qed.

End Format.

(** *** The two formats *)

Lemma cast_one (dt : dtype) :
  cast dt Py.lit_1_0 = S754_finite false (Nat.iter (Z.to_nat (prec dt - 1)) xO 1%positive)
                                   (1 - prec dt).
Proof. destruct dt; reflexivity. Qed.

Lemma cast_zero (dt : dtype) (s : bool) : cast dt (S754_zero s) = S754_zero s.
Proof. reflexivity. Qed.

Lemma mul_one_r (dt : dtype) (x : float) :
  is_finite dt x = true -> mul dt x (cast dt Py.lit_1_0) = x.
Proof.
  intros Hx. rewrite cast_one. destruct x as [s|s| |s m e]; try discriminate.
  - cbn. rewrite xorb_false_r. reflexivity.
  - cbn [is_finite] in Hx. unfold mul, SFmul. rewrite xorb_false_r, Pos.mul_comm.
    replace (Nat.iter (Z.to_nat (prec dt - 1)) xO 1 * m)%positive
      with (Nat.iter (Z.to_nat (prec dt - 1)) xO m)
      by (destruct dt; reflexivity).
    replace (e + (1 - prec dt)) with (e - Z.of_nat (Z.to_nat (prec dt - 1)))
      by (destruct dt; cbn; lia).
    apply round_exact. exact Hx.
Qed.

Lemma mul_zero_r (dt : dtype) (x : float) (s : bool) :
  is_finite dt x = true -> is_zero (mul dt x (S754_zero s)) = true.
Proof. destruct x; intros H; try discriminate; reflexivity. Qed.

Lemma mul_zero_l (dt : dtype) (x : float) (s : bool) :
  is_finite dt x = true -> is_zero (mul dt (S754_zero s) x) = true.
Proof. destruct x; intros H; try discriminate; reflexivity. Qed.

Lemma add_zero_r (dt : dtype) (x z : float) :
  is_finite dt x = true -> is_zero z = true -> same_value (add dt x z) x.
Proof.
  intros Hx Hz. destruct z as [sz| | |]; try discriminate.
  destruct x as [sx| | |sx m e]; try discriminate.
  - right. destruct sx, sz; split; reflexivity.
  - left. reflexivity.
Qed.

Lemma add_zero_l (dt : dtype) (x z : float) :
  is_finite dt x = true -> is_zero z = true -> same_value (add dt z x) x.
Proof.
  intros Hx Hz. destruct z as [sz| | |]; try discriminate.
  destruct x as [sx| | |sx m e]; try discriminate.
  - right. destruct sx, sz; split; reflexivity.
  - left. reflexivity.
Qed.

Lemma mul_not_nan (dt : dtype) (x y : float) :
  is_finite dt x = true -> is_finite dt y = true -> mul dt x y <> S754_nan.
Proof.
  intros Hx Hy.
  destruct x as [sx| | |sx mx ex]; try discriminate;
    destruct y as [sy| | |sy my ey]; try discriminate; try (cbn; discriminate).
  unfold mul, SFmul. apply round_not_nan. lia.
Qed.

(** *** Comparisons *)

Lemma eqb_refl (x : float) : x <> S754_nan -> eqb x x = true.
Proof.
  intros H. destruct x as [s|s| |s m e]; try reflexivity.
  - destruct s; reflexivity.
  - contradiction.
  - unfold eqb, SFeqb, SFcompare.
    rewrite Z.compare_refl, Pos.compare_cont_refl. destruct s; reflexivity.
Qed.

Lemma eqb_zeros (x y : float) : is_zero x = true -> is_zero y = true -> eqb x y = true.
Proof. destruct x, y; intros; try discriminate; reflexivity. Qed.

Lemma same_value_eqb (x y : float) :
  same_value x y -> y <> S754_nan -> eqb x y = true.
Proof.
  intros [->|[Hx Hy]] Hn.
  - apply eqb_refl. exact Hn.
  - apply eqb_zeros; assumption.
Qed.

Lemma compare_cont_eq (m n : positive) : Pos.compare_cont Eq m n = Eq -> m = n.
Proof. intros H. apply Pos.compare_eq. exact H. Qed.

Lemma eqb_same_value (x y : float) : eqb x y = true -> same_value x y.
Proof.
  unfold eqb, SFeqb, SFcompare.
  destruct x as [sx|sx| |sx mx ex], y as [sy|sy| |sy my ey]; intros H;
    try discriminate;
    try (right; split; reflexivity);
    try (destruct sx; discriminate);
    try (destruct sy; discriminate).
  - left. destruct sx, sy; try discriminate; reflexivity.
  - left.
    destruct sx, sy; try discriminate;
      (destruct (Z.compare_spec ex ey) as [He|He|He]; try discriminate; subst ey;
       destruct (Pos.compare_cont Eq mx my) eqn:Hm; try discriminate;
       apply compare_cont_eq in Hm; subst my; reflexivity).
Qed.

Lemma finite_not_nan (dt : dtype) (x : float) : is_finite dt x = true -> x <> S754_nan.
Proof. destruct x; intros H; discriminate. Qed.

End IEEE_facts.

(* ================================================================== *)
(** ** Facts of the Python fragment *)

Module Py_facts.

Import IEEE Py IEEE_facts.

Lemma digits2_size (q : positive) : digits2_pos q = Pos.size q.
Proof. induction q; cbn; congruence. Qed.

Lemma digits2_small (q : positive) : Zpos q < 2 ^ 53 -> Zpos (digits2_pos q) <= 53.
Proof.
  intros H. rewrite digits2_size.
  pose proof (Pos.size_le q) as Hle.
  destruct (Z_le_gt_dec (Zpos (Pos.size q)) 53) as [|Hgt]; [assumption|exfalso].
  assert (H54 : 2 ^ 54 <= 2 ^ Zpos (Pos.size q)) by (apply Z.pow_le_mono_r; lia).
  assert (Hq : Zpos (2 ^ Pos.size q) <= Zpos q~0) by exact Hle.
  rewrite Pos2Z.inj_pow in Hq. change (Z.pos 2) with 2 in Hq. lia.
Qed.

(** Integers below [2^53] convert without rounding: the result is a
    finite, nonzero float of the format. *)
Lemma of_Z_small (z : Z) :
  0 < z < 2 ^ 53 ->
  exists m e, of_Z float64 z = S754_finite false m e
              /\ bounded 53 1024 m e = true.
Proof.
  intros [Hpos Hlt]. destruct z as [|q|q]; try lia.
  pose proof (digits2_small q Hlt) as Hd.
  assert (Hd0 : 0 < Zpos (digits2_pos q)) by lia.
  unfold of_Z. cbn [binary_normalize prec emax]. unfold binary_round.
  replace (fexp 53 1024 (Zpos (digits2_pos q) + 0)) with (Zpos (digits2_pos q) - 53)
    by (unfold fexp, emin; lia).
  unfold shl_align.
  destruct (Zpos (digits2_pos q) - 53 - 0) as [|k|k] eqn:Hk; try lia.
  - exists q, 0.
    assert (Hb : bounded 53 1024 q 0 = true).
    { unfold bounded, canonical_mantissa, fexp, emin.
      apply andb_true_intro; split; [apply Z.eqb_eq|apply Z.leb_le]; lia. }
    split; [|exact Hb].
    exact (round_exact 53 1024 false q 0 0 Hb).
  - rewrite Pos2Nat.inj_iter.
    exists (Nat.iter (Pos.to_nat k) xO q), (Zpos (digits2_pos q) - 53).
    assert (Hb : bounded 53 1024 (Nat.iter (Pos.to_nat k) xO q)
                         (Zpos (digits2_pos q) - 53) = true).
    { unfold bounded, canonical_mantissa, fexp, emin.
      rewrite digits2_shl, positive_nat_Z.
      apply andb_true_intro; split; [apply Z.eqb_eq|apply Z.leb_le]; lia. }
    split; [|exact Hb].
    pose proof (round_exact 53 1024 false _ _ 0%nat Hb) as Hr.
    cbn [Nat.iter nat_rect Z.of_nat] in Hr. rewrite Z.sub_0_r in Hr. exact Hr.
Qed.

Lemma float_of_int_pos (z : Z) :
  0 < z < 2 ^ 53 ->
  exists m e, float_of_int z = Ok (S754_finite false m e)
              /\ of_Z float64 z = S754_finite false m e.
Proof.
  intros H. destruct (of_Z_small z H) as (m & e & Hz & _).
  exists m, e. unfold float_of_int. rewrite Hz. split; reflexivity.
Qed.

Lemma float_of_int_nonneg (z : Z) :
  0 <= z < 2 ^ 53 -> float_of_int z = Ok (of_Z float64 z).
Proof.
  intros H. destruct (Z.eq_dec z 0) as [->|Hz].
  - reflexivity.
  - destruct (float_of_int_pos z ltac:(lia)) as (m & e & Hf & Ho).
    rewrite Hf, Ho. reflexivity.
Qed.

Lemma div_eucl_exact (a b : Z) : 0 < b -> Z.div_eucl (b * a) b = (a, 0).
Proof.
  intros Hb.
  pose proof (Z.div_mul a b ltac:(lia)) as Hq.
  pose proof (Z.mod_mul a b ltac:(lia)) as Hr.
  unfold Z.div, Z.modulo in Hq, Hr. rewrite (Z.mul_comm a b) in Hq, Hr.
  destruct (Z.div_eucl (b * a) b) as [q r]. cbn [fst snd] in Hq, Hr. congruence.
Qed.

Lemma new_location_0 (n : Z) : new_location n 0 = loc_Exact.
Proof. unfold new_location. destruct (Z.even n); reflexivity. Qed.

(** A finite nonzero float divided by itself is [1.0]. *)
Lemma div_self (s : bool) (m : positive) (e : Z) :
  div float64 (S754_finite s m e) (S754_finite s m e) = lit_1_0.
Proof.
  unfold div, SFdiv, SFdiv_core_binary. cbn [prec emax].
  rewrite !Z.sub_diag, xorb_nilpotent.
  change (Z.min (fexp 53 1024 0) 0) with (-53).
  change (0 - -53) with 53.
  cbv iota beta.
  rewrite Z.shiftl_mul_pow2 by lia.
  rewrite div_eucl_exact by lia.
  rewrite new_location_0. reflexivity.
Qed.

Lemma sub_self (x : float) :
  is_finite float64 x = true -> sub float64 x x = zero.
Proof.
  destruct x as [s|s| |s m e]; intros H; try discriminate.
  - destruct s; reflexivity.
  - unfold sub, SFsub. rewrite Z.min_id.
    unfold shl_align. rewrite !Z.sub_diag. reflexivity.
Qed.

End Py_facts.

Module Frame_facts.

Import IEEE Py Frame IEEE_facts Py_facts.

Lemma step_fraction_spec (j S : Z) :
  2 <= S <= 2 ^ 53 -> 0 <= j < S ->
  step_fraction j S = Ok (Spec.fraction j S).
Proof.
  intros HS Hj. unfold step_fraction, float_truediv_int, Spec.fraction.
  rewrite (float_of_int_nonneg j) by lia. cbn [rbind].
  destruct (float_of_int_pos (S - 1) ltac:(lia)) as (m & e & Hf & Ho).
  rewrite Hf, Ho. reflexivity.
Qed.

Lemma fraction_first (S : Z) : 2 <= S <= 2 ^ 53 -> Spec.fraction 0 S = zero.
Proof.
  intros HS. unfold Spec.fraction.
  destruct (float_of_int_pos (S - 1) ltac:(lia)) as (m & e & _ & Ho).
  rewrite Ho. reflexivity.
Qed.

Lemma fraction_last (S : Z) : 2 <= S <= 2 ^ 53 -> Spec.fraction (S - 1) S = lit_1_0.
Proof.
  intros HS. unfold Spec.fraction.
  destruct (float_of_int_pos (S - 1) ltac:(lia)) as (m & e & _ & Ho).
  rewrite Ho. apply div_self.
Qed.

(** The blend of the code is the formula of the spec, and raises
    nothing. *)
Lemma blend_spec (dt : dtype) (A B : ndarray) (j S : Z) :
  2 <= S <= 2 ^ 53 -> 0 <= j < S ->
  blend dt A B j S = Ok (Spec.interpolation dt A B j S).
Proof.
  intros HS Hj. unfold blend. rewrite (step_fraction_spec j S HS Hj).
  cbn [rbind]. unfold int_sub_float. reflexivity.
Qed.

(** *** The two ends *)

Lemma interpolation_first (dt : dtype) (A B : ndarray) (S : Z) :
  2 <= S <= 2 ^ 53 ->
  List.length A = List.length B -> Spec.numeric dt A -> Spec.numeric dt B ->
  Forall2 same_value (Spec.interpolation dt A B 0 S) A.
Proof.
  intros HS Hlen HA. unfold Spec.interpolation.
  rewrite (fraction_first S HS).
  change (sub float64 (of_Z float64 1) zero) with lit_1_0.
  revert B Hlen. induction HA as [|a A Ha HA IH]; intros B Hlen HB.
  - destruct B; [constructor|discriminate].
  - destruct B as [|b B]; [discriminate|].
    inversion HB as [|? ? Hb HB']; subst.
    cbn [array_mul_scalar map array_add]. constructor.
    + rewrite (mul_one_r dt a Ha).
      apply add_zero_r; [exact Ha|].
      apply (mul_zero_r dt b false Hb).
    + apply IH; [cbn in Hlen; lia|exact HB'].
Qed.

Lemma interpolation_last (dt : dtype) (A B : ndarray) (S : Z) :
  2 <= S <= 2 ^ 53 ->
  List.length A = List.length B -> Spec.numeric dt A -> Spec.numeric dt B ->
  Forall2 same_value (Spec.interpolation dt A B (S - 1) S) B.
Proof.
  intros HS Hlen HA. unfold Spec.interpolation.
  rewrite (fraction_last S HS).
  change (sub float64 (of_Z float64 1) lit_1_0) with zero.
  revert B Hlen. induction HA as [|a A Ha HA IH]; intros B Hlen HB.
  - destruct B; [constructor|discriminate].
  - destruct B as [|b B]; [discriminate|].
    inversion HB as [|? ? Hb HB']; subst.
    cbn [array_mul_scalar map array_add]. constructor.
    + rewrite (mul_one_r dt b Hb).
      apply add_zero_l; [exact Hb|].
      apply (mul_zero_r dt a false Ha).
    + apply IH; [cbn in Hlen; lia|exact HB'].
Qed.

Lemma same_value_array_eqb (dt : dtype) (R A : ndarray) :
  Forall2 same_value R A -> Spec.numeric dt A -> array_eqb R A = true.
Proof.
  induction 1 as [|r a R A Hra HRA IH]; intros HA.
  - reflexivity.
  - inversion HA as [|? ? Ha HA']; subst. cbn [array_eqb].
    rewrite (same_value_eqb r a Hra (finite_not_nan dt a Ha)).
    rewrite (IH HA'). reflexivity.
Qed.

End Frame_facts.

(* ================================================================== *)
(** ** Rounding of quotients and products *)

Module Rounding_facts.

Import IEEE Py Frame Rounding.

(** *** Shifts and the nearest integer *)

Lemma shr_1_nonneg_eq (m : Z) (r s : bool) :
  0 <= m ->
  shr_1 (Build_shr_record m r s) = Build_shr_record (m / 2) (Z.odd m) (r || s).
Proof.
  intros Hm. destruct m as [|[q|q|]|q]; try lia; cbn [shr_1].
  - reflexivity.
  - f_equal. rewrite Pos2Z.inj_xI. rewrite Z.mul_comm, Z.div_add_l by lia. reflexivity.
  - f_equal. rewrite Pos2Z.inj_xO. rewrite Z.mul_comm, Z.div_mul by lia. reflexivity.
  - reflexivity.
Qed.

Lemma shr_1_locate (a b : Z) :
  0 <= a -> 0 < b -> shr_1 (locate a b) = locate a (2 * b).
Proof.
  intros Ha Hb. unfold locate.
  rewrite shr_1_nonneg_eq by (apply Z.div_pos; lia).
  pose proof (Z.mod_pos_bound a b Hb) as Hr.
  assert (Hq : 0 <= a / b) by (apply Z.div_pos; lia).
  assert (Hdiv : a / (2 * b) = a / b / 2)
    by (rewrite (Z.mul_comm 2 b); symmetry; apply Z.div_div; lia).
  assert (Hmod : a mod (2 * b) = a mod b + b * ((a / b) mod 2))
    by (rewrite (Z.mul_comm 2 b); apply Z.rem_mul_r; lia).
  rewrite Hdiv, Hmod.
  pose proof (Z.mod_pos_bound (a / b) 2 ltac:(lia)) as H2.
  rewrite Zodd_mod.
  destruct (Z.eq_dec ((a / b) mod 2) 0) as [E0|E0].
  - rewrite E0. f_equal.
    + apply eq_sym. apply Z.leb_gt. lia.
    + replace (2 * b <=? 2 * (a mod b + b * 0)) with false
        by (symmetry; apply Z.leb_gt; lia).
      destruct (b <=? 2 * (a mod b)) eqn:Hh.
      * apply Z.leb_le in Hh. cbn [orb]. symmetry. apply negb_true_iff.
        apply Z.eqb_neq. lia.
      * apply Z.leb_gt in Hh. cbn [orb]. f_equal.
        destruct (Z.eqb_spec (2 * (a mod b)) 0), (Z.eqb_spec (2 * (a mod b + b * 0)) 0);
          try reflexivity; lia.
  - assert (E1 : (a / b) mod 2 = 1) by lia. rewrite E1. f_equal.
    + apply eq_sym. apply Z.leb_le. lia.
    + replace (2 * b <=? 2 * (a mod b + b * 1)) with true
        by (symmetry; apply Z.leb_le; lia).
      destruct (b <=? 2 * (a mod b)) eqn:Hh.
      * apply Z.leb_le in Hh. cbn [orb]. symmetry. apply negb_true_iff.
        apply Z.eqb_neq. lia.
      * apply Z.leb_gt in Hh. cbn [orb].
        destruct (Z.eqb_spec (2 * (a mod b)) 0),
                 (Z.eqb_spec (2 * (a mod b + b * 1)) (2 * b));
          try reflexivity; lia.
Qed.

Lemma shr_locate (k : nat) (a b : Z) :
  0 <= a -> 0 < b ->
  Nat.iter k shr_1 (locate a b) = locate a (b * 2 ^ Z.of_nat k).
Proof.
  intros Ha Hb. induction k as [|k IH].
  - cbn. rewrite Z.mul_1_r. reflexivity.
  - cbn [Nat.iter nat_rect]. change (nat_rect _ _ _ k) with (Nat.iter k shr_1 (locate a b)).
    rewrite IH, shr_1_locate by lia.
    f_equal. rewrite Nat2Z.inj_succ, Z.pow_succ_r by lia. ring.
Qed.

(** *** Nearest integers *)

Lemma nearest_cases (a b : Z) :
  0 < b ->
  let q := a / b in
  let r := a mod b in
  (2 * r < b /\ nearest (locate a b) = q)
  \/ (2 * r = b /\ nearest (locate a b) = if Z.even q then q else q + 1)
  \/ (b < 2 * r /\ nearest (locate a b) = q + 1).
Proof.
  intros Hb q r. unfold nearest, locate. cbn [shr_m loc_of_shr_record].
  fold q. fold r.
  pose proof (Z.mod_pos_bound a b Hb) as Hr. fold r in Hr.
  destruct (b <=? 2 * r) eqn:Hh.
  - apply Z.leb_le in Hh.
    destruct (Z.eqb_spec (2 * r) b) as [He|He]; cbn [negb round_nearest_even].
    + right. left. split; [exact He|reflexivity].
    + right. right. split; [lia|reflexivity].
  - apply Z.leb_gt in Hh. left. split; [exact Hh|].
    destruct (Z.eqb_spec (2 * r) 0); reflexivity.
Qed.

Lemma nearest_bounds (a b : Z) :
  0 < b -> a / b <= nearest (locate a b) <= a / b + 1.
Proof.
  intros Hb. destruct (nearest_cases a b Hb) as [[_ ->]|[[_ ->]|[_ ->]]];
    try destruct (Z.even (a / b)); lia.
Qed.

Lemma nearest_integer (a : Z) : nearest (locate a 1) = a.
Proof.
  destruct (nearest_cases a 1 ltac:(lia)) as [[_ H]|[[H _]|[H _]]].
  - rewrite H. apply Z.div_1_r.
  - rewrite Z.mod_1_r in H. lia.
  - rewrite Z.mod_1_r in H. lia.
Qed.

Lemma div_cross (a b a' b' : Z) :
  0 < b -> 0 < b' -> a * b' <= a' * b -> a / b <= a' / b'.
Proof.
  intros Hb Hb' H.
  pose proof (Z.div_mod a b ltac:(lia)) as Ha.
  pose proof (Z.div_mod a' b' ltac:(lia)) as Ha'.
  pose proof (Z.mod_pos_bound a b Hb) as Hr.
  pose proof (Z.mod_pos_bound a' b' Hb') as Hr'.
  destruct (Z_le_gt_dec (a / b) (a' / b')) as [|Hgt]; [assumption|exfalso].
  assert (a' / b' + 1 <= a / b) by lia.
  assert (b * b' * (a' / b' + 1) <= b * b' * (a / b)) by (apply Z.mul_le_mono_nonneg_l; nia).
  nia.
Qed.

(** Rounding to the nearest integer keeps the order of the fractions. *)
Lemma nearest_monotone (a b a' b' : Z) :
  0 < b -> 0 < b' -> a * b' <= a' * b ->
  nearest (locate a b) <= nearest (locate a' b').
Proof.
  intros Hb Hb' H.
  pose proof (div_cross a b a' b' Hb Hb' H) as Hq.
  pose proof (nearest_bounds a b Hb) as Hn.
  pose proof (nearest_bounds a' b' Hb') as Hn'.
  destruct (Z.eq_dec (a / b) (a' / b')) as [Heq|Hne]; [|lia].
  pose proof (Z.div_mod a b ltac:(lia)) as Ha.
  pose proof (Z.div_mod a' b' ltac:(lia)) as Ha'.
  pose proof (Z.mod_pos_bound a b Hb) as Hr.
  pose proof (Z.mod_pos_bound a' b' Hb') as Hr'.
  assert (Hrem : (a mod b) * b' <= (a' mod b') * b) by nia.
  destruct (nearest_cases a b Hb) as [[H1 E1]|[[H1 E1]|[H1 E1]]];
    destruct (nearest_cases a' b' Hb') as [[H2 E2]|[[H2 E2]|[H2 E2]]];
    rewrite E1, E2, <- ?Heq; try destruct (Z.even (a / b)); try lia; exfalso; nia.
Qed.

(** *** Digits *)

Lemma digits_bounds (q : positive) :
  2 ^ (Zpos (digits2_pos q) - 1) <= Zpos q < 2 ^ Zpos (digits2_pos q).
Proof.
  rewrite Py_facts.digits2_size.
  pose proof (Pos.size_gt q) as Hgt. pose proof (Pos.size_le q) as Hle.
  assert (Hgt' : Zpos q < Zpos (2 ^ Pos.size q)) by exact Hgt.
  assert (Hle' : Zpos (2 ^ Pos.size q) <= Zpos q~0) by exact Hle.
  rewrite Pos2Z.inj_pow in Hgt', Hle'. change (Z.pos 2) with 2 in *.
  split; [|exact Hgt'].
  replace (2 ^ Zpos (Pos.size q)) with (2 * 2 ^ (Zpos (Pos.size q) - 1)) in Hle'.
  - lia.
  - rewrite <- Z.pow_succ_r by lia. f_equal. lia.
Qed.

Lemma digits_unique (m d : Z) :
  2 ^ (d - 1) <= m < 2 ^ d -> 1 <= d -> Zdigits2 m = d.
Proof.
  intros [Hlo Hhi] Hd.
  assert (Hm : 0 < m) by (pose proof (Z.pow_pos_nonneg 2 (d - 1)); lia).
  destruct m as [|q|q]; try lia. cbn [Zdigits2].
  pose proof (digits_bounds q) as [Hl Hh].
  destruct (Z.lt_trichotomy (Zpos (digits2_pos q)) d) as [Hlt|[Heq|Hgt]].
  - exfalso. assert (2 ^ Zpos (digits2_pos q) <= 2 ^ (d - 1))
      by (apply Z.pow_le_mono_r; lia). lia.
  - exact Heq.
  - exfalso. assert (2 ^ d <= 2 ^ (Zpos (digits2_pos q) - 1))
      by (apply Z.pow_le_mono_r; lia). lia.
Qed.

(** *** What rounding computes *)

Lemma shr_steps (rec : shr_record) (e k : Z) (a b : Z) :
  rec = locate a b -> 0 <= a -> 0 < b -> 0 <= k ->
  shr rec e k = (locate a (b * 2 ^ k), e + k).
Proof.
  intros -> Ha Hb Hk. destruct k as [|p|p]; try lia.
  - cbn [shr]. rewrite Z.mul_1_r, Z.add_0_r. reflexivity.
  - cbn [shr]. rewrite IEEE_facts.iter_pos_nat, shr_locate by lia.
    rewrite positive_nat_Z. reflexivity.
Qed.

(** A located fraction whose floor has [53 + k] bits is rounded at
    [k] bits further up. *)
Lemma round_aux_spec (s : bool) (a b e k : Z) (lx : location) :
  0 < b -> 0 <= k ->
  2 ^ 52 * (b * 2 ^ k) <= a < 2 ^ 53 * (b * 2 ^ k) ->
  shr_record_of_loc (a / b) lx = locate a b ->
  -1074 <= e + k -> e + k + 1 <= 971 ->
  binary_round_aux 53 1024 s (a / b) e lx
  = finalize s (nearest (locate a (b * 2 ^ k))) (e + k).
Proof.
  intros Hb Hk [Hlo Hhi] Hloc He1 He2.
  assert (H2k : 0 < 2 ^ k) by (apply Z.pow_pos_nonneg; lia).
  assert (Ha : 0 <= a) by nia.
  assert (Hm : 2 ^ (52 + k) <= a / b < 2 ^ (53 + k)).
  { rewrite !Z.pow_add_r by lia. split.
    - apply Z.div_le_lower_bound; [lia|]. nia.
    - apply Z.div_lt_upper_bound; [lia|]. nia. }
  assert (Hd : Zdigits2 (a / b) = 53 + k).
  { apply digits_unique; [|lia]. replace (53 + k - 1) with (52 + k) by lia. exact Hm. }
  unfold binary_round_aux, shr_fexp. rewrite Hd, Hloc.
  replace (fexp 53 1024 (53 + k + e) - e) with k by (unfold fexp, emin; lia).
  rewrite (shr_steps _ e k a b eq_refl Ha Hb Hk).
  fold (nearest (locate a (b * 2 ^ k))).
  set (r := nearest (locate a (b * 2 ^ k))).
  assert (Hn : 2 ^ 52 <= a / (b * 2 ^ k) < 2 ^ 53).
  { split.
    - apply Z.div_le_lower_bound; [nia|]. lia.
    - apply Z.div_lt_upper_bound; [nia|]. lia. }
  pose proof (nearest_bounds a (b * 2 ^ k) ltac:(nia)) as Hr. fold r in Hr.
  assert (Hr' : 2 ^ 52 <= r <= 2 ^ 53) by lia.
  unfold finalize. destruct (Z.eqb_spec r (2 ^ 53)) as [Hcarry|Hnc].
  - rewrite Hcarry. cbn [shr_record_of_loc].
    replace (Zdigits2 (2 ^ 53)) with 54 by reflexivity.
    replace (fexp 53 1024 (54 + (e + k)) - (e + k)) with 1
      by (unfold fexp, emin; lia).
    cbn [shr iter_pos]. change (2 ^ 53) with 9007199254740992.
    cbn [shr_1 orb shr_m].
    replace (e + k + 1 <=? 1024 - 53) with true by (symmetry; apply Z.leb_le; lia).
    reflexivity.
  - assert (Hdr : Zdigits2 r = 53) by (apply digits_unique; lia).
    cbn [shr_record_of_loc]. rewrite Hdr.
    replace (fexp 53 1024 (53 + (e + k)) - (e + k)) with 0
      by (unfold fexp, emin; lia).
    cbn [shr shr_m].
    destruct r as [|q|q]; try lia.
    replace (e + k <=? 1024 - 53) with true by (symmetry; apply Z.leb_le; lia).
    reflexivity.
Qed.

Lemma new_location_locate (a b : Z) :
  0 < b -> shr_record_of_loc (a / b) (new_location b (a mod b)) = locate a b.
Proof.
  intros Hb. unfold locate, new_location, new_location_even, new_location_odd.
  pose proof (Z.mod_pos_bound a b Hb) as Hr.
  set (r := a mod b) in *.
  destruct (Z.even b) eqn:Heven.
  - destruct (Z.eqb_spec r 0) as [H0|H0].
    + cbn [shr_record_of_loc]. f_equal.
      * symmetry. apply Z.leb_gt. lia.
      * replace (b <=? 2 * r) with false by (symmetry; apply Z.leb_gt; lia).
        rewrite H0. reflexivity.
    + destruct (Z.compare_spec (2 * r) b) as [H|H|H]; cbn [shr_record_of_loc]; f_equal.
      * symmetry. apply Z.leb_le. lia.
      * replace (b <=? 2 * r) with true by (symmetry; apply Z.leb_le; lia).
        rewrite H, Z.eqb_refl. reflexivity.
      * symmetry. apply Z.leb_gt. lia.
      * replace (b <=? 2 * r) with false by (symmetry; apply Z.leb_gt; lia).
        symmetry. apply negb_true_iff. apply Z.eqb_neq. lia.
      * symmetry. apply Z.leb_le. lia.
      * replace (b <=? 2 * r) with true by (symmetry; apply Z.leb_le; lia).
        symmetry. apply negb_true_iff. apply Z.eqb_neq. lia.
  - assert (Hodd : b <> 2 * r).
    { intros E. rewrite E in Heven. rewrite Z.even_mul in Heven. discriminate. }
    destruct (Z.eqb_spec r 0) as [H0|H0].
    + cbn [shr_record_of_loc]. f_equal.
      * symmetry. apply Z.leb_gt. lia.
      * replace (b <=? 2 * r) with false by (symmetry; apply Z.leb_gt; lia).
        rewrite H0. reflexivity.
    + destruct (Z.compare_spec (2 * r + 1) b) as [H|H|H]; cbn [shr_record_of_loc]; f_equal.
      * symmetry. apply Z.leb_gt. lia.
      * replace (b <=? 2 * r) with false by (symmetry; apply Z.leb_gt; lia).
        symmetry. apply negb_true_iff. apply Z.eqb_neq. lia.
      * symmetry. apply Z.leb_gt. lia.
      * replace (b <=? 2 * r) with false by (symmetry; apply Z.leb_gt; lia).
        symmetry. apply negb_true_iff. apply Z.eqb_neq. lia.
      * symmetry. apply Z.leb_le. lia.
      * replace (b <=? 2 * r) with true by (symmetry; apply Z.leb_le; lia).
        symmetry. apply negb_true_iff. apply Z.eqb_neq. lia.
Qed.

Lemma exact_locate (m : Z) : shr_record_of_loc (m / 1) loc_Exact = locate m 1.
Proof.
  unfold locate. rewrite Z.mod_1_r. cbn [shr_record_of_loc]. reflexivity.
Qed.

(** *** Order of positive floats *)

Lemma leb_finite (m m' : positive) (e e' : Z) :
  leb (S754_finite false m e) (S754_finite false m' e') = true
  <-> e < e' \/ (e = e' /\ Zpos m <= Zpos m').
Proof.
  unfold leb, SFleb, SFcompare.
  destruct (Z.compare_spec e e') as [He|He|He].
  - rewrite Pos.compare_cont_spec. unfold Pos.switch_Eq.
    destruct (Pos.compare_spec m m') as [Hm|Hm|Hm]; split; intros H;
      try reflexivity; try discriminate; try lia.
  - split; [intros _; left; exact He|reflexivity].
  - split; [discriminate|lia].
Qed.


Lemma finalize_finite (r E : Z) :
  2 ^ 52 <= r <= 2 ^ 53 ->
  exists m e, finalize false r E = S754_finite false m e
              /\ 2 ^ 52 <= Zpos m < 2 ^ 53
              /\ ((r < 2 ^ 53 /\ Zpos m = r /\ e = E)
                  \/ (r = 2 ^ 53 /\ Zpos m = 2 ^ 52 /\ e = E + 1)).
Proof.
  intros Hr. unfold finalize. destruct (Z.eqb_spec r (2 ^ 53)) as [H|H].
  - exists (Z.to_pos (2 ^ 52)), (E + 1). split; [reflexivity|].
    split; [cbn; lia|]. right. repeat split; assumption.
  - exists (Z.to_pos r), E. split; [reflexivity|].
    rewrite Z2Pos.id by lia. split; [lia|]. left. repeat split. lia.
Qed.

Lemma finalize_leb (r E r' E' : Z) :
  2 ^ 52 <= r <= 2 ^ 53 -> 2 ^ 52 <= r' <= 2 ^ 53 ->
  E < E' \/ (E = E' /\ r <= r') ->
  leb (finalize false r E) (finalize false r' E') = true.
Proof.
  intros Hr Hr' H.
  destruct (finalize_finite r E Hr) as (m & e & -> & Hm & Hc).
  destruct (finalize_finite r' E' Hr') as (m' & e' & -> & Hm' & Hc').
  apply leb_finite. lia.
Qed.

(** *** Floats nearest to fractions *)

Lemma rounded_mantissa (a b k : Z) :
  0 < b -> 0 <= k ->
  2 ^ 52 * (b * 2 ^ k) <= a < 2 ^ 53 * (b * 2 ^ k) ->
  2 ^ 52 <= nearest (locate a (b * 2 ^ k)) <= 2 ^ 53.
Proof.
  intros Hb Hk [Hlo Hhi].
  assert (H2k : 0 < 2 ^ k) by (apply Z.pow_pos_nonneg; lia).
  assert (HB : 0 < b * 2 ^ k) by nia.
  pose proof (nearest_bounds a (b * 2 ^ k) HB) as Hr.
  assert (Hn : 2 ^ 52 <= a / (b * 2 ^ k) < 2 ^ 53).
  { split.
    - apply Z.div_le_lower_bound; [exact HB|]. lia.
    - apply Z.div_lt_upper_bound; [exact HB|]. lia. }
  lia.
Qed.

Lemma rounds_to_finite (P Q : Z) (x : float) :
  rounds_to P Q x ->
  exists m e, x = S754_finite false m e /\ 2 ^ 52 <= Zpos m < 2 ^ 53.
Proof.
  intros (a & b & k & G & -> & Hb & Hk & Hab & _).
  pose proof (rounded_mantissa a b k Hb (proj1 Hk) Hab) as Hr.
  destruct (finalize_finite _ (k - G) Hr) as (m & e & Hf & Hm & _).
  exists m, e. split; assumption.
Qed.

(** Rounding keeps the order of the fractions. *)
Theorem rounds_to_monotone (P Q P' Q' : Z) (x x' : float) :
  0 < Q -> 0 < Q' -> rounds_to P Q x -> rounds_to P' Q' x' ->
  P * Q' <= P' * Q -> leb x x' = true.
Proof.
  intros HQ HQ' (a & b & k & G & -> & Hb & Hk & Hab & Hv)
         (a' & b' & k' & G' & -> & Hb' & Hk' & Hab' & Hv') HPQ.
  pose proof (rounded_mantissa a b k Hb (proj1 Hk) Hab) as Hr.
  pose proof (rounded_mantissa a' b' k' Hb' (proj1 Hk') Hab') as Hr'.
  unfold rounded. apply finalize_leb; try assumption.
  set (F := G - k). set (F' := G' - k').
  set (B := b * 2 ^ k) in *. set (B' := b' * 2 ^ k') in *.
  assert (H2k : 0 < 2 ^ k) by (apply Z.pow_pos_nonneg; lia).
  assert (H2k' : 0 < 2 ^ k') by (apply Z.pow_pos_nonneg; lia).
  assert (HB : 0 < B) by (unfold B; nia).
  assert (HB' : 0 < B') by (unfold B'; nia).
  assert (HT : 0 < 2 ^ F) by (apply Z.pow_pos_nonneg; unfold F; lia).
  assert (HT' : 0 < 2 ^ F') by (apply Z.pow_pos_nonneg; unfold F'; lia).
  assert (HG : b * 2 ^ G = B * 2 ^ F).
  { unfold B, F. rewrite <- Z.mul_assoc, <- Z.pow_add_r by lia. do 2 f_equal. lia. }
  assert (HG' : b' * 2 ^ G' = B' * 2 ^ F').
  { unfold B', F'. rewrite <- Z.mul_assoc, <- Z.pow_add_r by lia. do 2 f_equal. lia. }
  rewrite HG in Hv. rewrite HG' in Hv'.
  (* the order of the fractions, on the rounding scale *)
  assert (Hord : a * (B' * 2 ^ F') <= a' * (B * 2 ^ F)).
  { apply (Zmult_le_reg_r _ _ (Q * Q')); [nia|].
    replace (a * (B' * 2 ^ F') * (Q * Q')) with ((a * Q) * (B' * 2 ^ F' * Q')) by ring.
    replace (a' * (B * 2 ^ F) * (Q * Q')) with ((a' * Q') * (B * 2 ^ F * Q)) by ring.
    rewrite Hv, Hv'.
    replace (P * (B * 2 ^ F) * (B' * 2 ^ F' * Q'))
      with ((P * Q') * ((B * 2 ^ F) * (B' * 2 ^ F'))) by ring.
    replace (P' * (B' * 2 ^ F') * (B * 2 ^ F * Q))
      with ((P' * Q) * ((B * 2 ^ F) * (B' * 2 ^ F'))) by ring.
    apply Z.mul_le_mono_nonneg_r; [nia|exact HPQ]. }
  replace (k - G) with (- F) by (unfold F; lia).
  replace (k' - G') with (- F') by (unfold F'; lia).
  destruct (Z.lt_trichotomy F F') as [Hlt|[Heq|Hgt]].
  - exfalso.
    assert (Hpow : 2 * 2 ^ F <= 2 ^ F').
    { rewrite <- Z.pow_succ_r by (unfold F; lia).
      apply Z.pow_le_mono_r; lia. }
    assert (H1 : 2 ^ 52 * B * (B' * 2 ^ F') <= a * (B' * 2 ^ F'))
      by (apply Z.mul_le_mono_nonneg_r; [nia|lia]).
    assert (H3 : a' * (B * 2 ^ F) < 2 ^ 53 * B' * (B * 2 ^ F))
      by (apply Z.mul_lt_mono_pos_r; [nia|lia]).
    assert (H4 : 2 ^ 52 * B * (B' * 2 ^ F') < 2 ^ 53 * B' * (B * 2 ^ F)) by lia.
    assert (H5 : (B * B' * 2 ^ 52) * 2 ^ F' < (B * B' * 2 ^ 52) * (2 * 2 ^ F)).
    { replace ((B * B' * 2 ^ 52) * 2 ^ F') with (2 ^ 52 * B * (B' * 2 ^ F')) by ring.
      replace ((B * B' * 2 ^ 52) * (2 * 2 ^ F)) with (2 ^ 53 * B' * (B * 2 ^ F)).
      - exact H4.
      - change (2 ^ 53) with (2 * 2 ^ 52). ring. }
    apply Z.mul_lt_mono_pos_l in H5; [lia|]. nia.
  - right. split; [lia|].
    apply nearest_monotone; try assumption.
    rewrite Heq in Hord.
    apply (Zmult_le_reg_r _ _ (2 ^ F')); [lia|].
    replace (a * B' * 2 ^ F') with (a * (B' * 2 ^ F')) by ring.
    replace (a' * B * 2 ^ F') with (a' * (B * 2 ^ F')) by ring.
    exact Hord.
  - left. lia.
Qed.

(** A float with a full mantissa and an exponent at most zero is the
    rounding of its own value. *)
Lemma exact_rounds_to (m : positive) (e : Z) :
  2 ^ 52 <= Zpos m < 2 ^ 53 -> e <= 0 ->
  rounds_to (Zpos m) (2 ^ (- e)) (S754_finite false m e).
Proof.
  intros Hm He. exists (Zpos m), 1, 0, (- e). repeat split; try lia.
  unfold rounded. change (1 * 2 ^ 0) with 1. rewrite nearest_integer.
  unfold finalize. destruct (Z.eqb_spec (Zpos m) (2 ^ 53)) as [H|H]; [lia|].
  cbn [Z.to_pos]. f_equal. lia.
Qed.

(** *** Integers as floats *)

Lemma iter_xO_value (n : nat) (q : positive) :
  Zpos (Nat.iter n xO q) = Zpos q * 2 ^ Z.of_nat n.
Proof.
  induction n as [|n IH].
  - cbn. lia.
  - change (Nat.iter (S n) xO q) with (xO (Nat.iter n xO q)).
    rewrite Pos2Z.inj_xO, IH, Nat2Z.inj_succ, Z.pow_succ_r by lia. ring.
Qed.

(** An integer below [2^53] as a float: a full mantissa, the integer
    scaled by a power of two. *)
Lemma of_Z_value (z : Z) :
  0 < z < 2 ^ 53 ->
  exists m e, of_Z float64 z = S754_finite false m e
              /\ -52 <= e <= 0
              /\ Zpos m = z * 2 ^ (- e)
              /\ 2 ^ 52 <= Zpos m < 2 ^ 53.
Proof.
  intros [Hpos Hlt]. destruct z as [|q|q]; try lia.
  pose proof (Py_facts.digits2_small q Hlt) as Hd.
  pose proof (digits_bounds q) as Hq.
  assert (Hd0 : 0 < Zpos (digits2_pos q)) by lia.
  unfold of_Z. cbn [binary_normalize prec emax]. unfold binary_round.
  replace (fexp 53 1024 (Zpos (digits2_pos q) + 0)) with (Zpos (digits2_pos q) - 53)
    by (unfold fexp, emin; lia).
  unfold shl_align.
  destruct (Zpos (digits2_pos q) - 53 - 0) as [|k|k] eqn:Hk; try lia.
  - exists q, 0.
    assert (Hb : bounded 53 1024 q 0 = true).
    { unfold bounded, canonical_mantissa, fexp, emin.
      apply andb_true_intro; split; [apply Z.eqb_eq|apply Z.leb_le]; lia. }
    split; [exact (IEEE_facts.round_exact 53 1024 false q 0 0 Hb)|].
    replace (Zpos (digits2_pos q)) with 53 in Hq by lia.
    change (53 - 1) with 52 in Hq. cbn [Z.opp Z.pow]. lia.
  - rewrite Pos2Nat.inj_iter.
    exists (Nat.iter (Pos.to_nat k) xO q), (Zpos (digits2_pos q) - 53).
    assert (Hb : bounded 53 1024 (Nat.iter (Pos.to_nat k) xO q)
                         (Zpos (digits2_pos q) - 53) = true).
    { unfold bounded, canonical_mantissa, fexp, emin.
      rewrite IEEE_facts.digits2_shl, positive_nat_Z.
      apply andb_true_intro; split; [apply Z.eqb_eq|apply Z.leb_le]; lia. }
    split.
    { pose proof (IEEE_facts.round_exact 53 1024 false _ _ 0%nat Hb) as Hr.
      cbn [Nat.iter nat_rect Z.of_nat] in Hr. rewrite Z.sub_0_r in Hr. exact Hr. }
    split; [lia|].
    assert (Hval : Zpos (Nat.iter (Pos.to_nat k) xO q)
                   = Zpos q * 2 ^ (- (Zpos (digits2_pos q) - 53))).
    { rewrite iter_xO_value, positive_nat_Z. do 2 f_equal. lia. }
    split; [exact Hval|].
    pose proof (digits_bounds (Nat.iter (Pos.to_nat k) xO q)) as Hm.
    rewrite IEEE_facts.digits2_shl, positive_nat_Z in Hm.
    replace (Zpos (digits2_pos q) + Zpos k) with 53 in Hm by lia.
    exact Hm.
Qed.

(** *** Quotients of integers *)

Lemma div_rounds_to (c n : Z) :
  0 < c < n -> n < 2 ^ 53 ->
  rounds_to c n (div float64 (of_Z float64 c) (of_Z float64 n)).
Proof.
  intros Hc Hn.
  destruct (of_Z_value c ltac:(lia)) as (mc & ec & -> & Hec & Hmc & Hbc).
  destruct (of_Z_value n ltac:(lia)) as (mn & en & -> & Hen & Hmn & Hbn).
  unfold div, SFdiv, SFdiv_core_binary. cbn [prec emax xorb Zdigits2].
  assert (Hdc : Zpos (digits2_pos mc) = 53)
    by (apply (digits_unique (Zpos mc) 53); [exact Hbc|lia]).
  assert (Hdn : Zpos (digits2_pos mn) = 53)
    by (apply (digits_unique (Zpos mn) 53); [exact Hbn|lia]).
  rewrite Hdc, Hdn.
  replace (Z.min (fexp 53 1024 (53 + ec - (53 + en))) (ec - en)) with (ec - en - 53)
    by (unfold fexp, emin; lia).
  replace (ec - en - (ec - en - 53)) with 53 by lia.
  cbv iota beta. rewrite Z.shiftl_mul_pow2 by lia.
  set (a := Zpos mc * 2 ^ 53).
  assert (Hqr : Z.div_eucl a (Zpos mn) = (a / Zpos mn, a mod Zpos mn))
    by (unfold Z.div, Z.modulo; destruct (Z.div_eucl a (Zpos mn)); reflexivity).
  rewrite Hqr.
  set (k := if Zpos mc <? Zpos mn then 0 else 1).
  assert (Hk : 0 <= k <= 1) by (unfold k; destruct (Zpos mc <? Zpos mn); lia).
  assert (Hab : 2 ^ 52 * (Zpos mn * 2 ^ k) <= a < 2 ^ 53 * (Zpos mn * 2 ^ k)).
  { unfold k, a. destruct (Z.ltb_spec (Zpos mc) (Zpos mn)) as [Hlt|Hge].
    - change (2 ^ 0) with 1. change (2 ^ 53) with (2 * 2 ^ 52) at 1. nia.
    - change (2 ^ 1) with 2. change (2 ^ 53) with (2 * 2 ^ 52) at 1. nia. }
  rewrite (round_aux_spec false a (Zpos mn) (ec - en - 53) k
             (new_location (Zpos mn) (a mod Zpos mn)));
    try lia; try exact Hab; try (apply new_location_locate; lia).
  exists a, (Zpos mn), k, (53 + en - ec).
  split; [unfold rounded; f_equal; lia|].
  split; [lia|].
  (* the quotient is below one: the shift is within the exponent *)
  assert (Hle : ec <= en).
  { destruct (Z_le_gt_dec ec en) as [|Hgt]; [assumption|exfalso].
    (* a larger exponent means a shorter integer *)
    assert (Hpow : 2 * 2 ^ (- ec) <= 2 ^ (- en)).
    { rewrite <- Z.pow_succ_r by lia. apply Z.pow_le_mono_r; lia. }
    assert (H2 : 0 < 2 ^ (- ec)) by (apply Z.pow_pos_nonneg; lia).
    nia. }
  split.
  { split; [lia|]. unfold k. destruct (Z.ltb_spec (Zpos mc) (Zpos mn)) as [Hlt|Hge]; [lia|].
    destruct (Z.eq_dec ec en) as [Heq|Hne]; [|lia].
    exfalso. rewrite Heq in Hmc.
    assert (H2 : 0 < 2 ^ (- en)) by (apply Z.pow_pos_nonneg; lia). nia. }
  split; [exact Hab|].
  unfold a. rewrite Hmc, Hmn.
  replace (53 + en - ec) with (53 + - ec + en + 0) by lia.
  replace (2 ^ (- en)) with (2 ^ (- en) * 2 ^ 0) by (cbn [Z.pow]; lia).
  assert (Hpow : 2 ^ (- en) * 2 ^ (53 + - ec + en + 0) = 2 ^ 53 * 2 ^ (- ec)).
  { rewrite <- !Z.pow_add_r by lia. f_equal. lia. }
  change (2 ^ 0) with 1. rewrite Z.mul_1_r.
  transitivity (c * n * (2 ^ 53 * 2 ^ (- ec))); [ring|].
  rewrite <- Hpow. ring.
Qed.

(** *** Products *)

Lemma mul_rounds_to (mu mw : positive) (eu ew : Z) :
  2 ^ 52 <= Zpos mu < 2 ^ 53 -> 2 ^ 52 <= Zpos mw < 2 ^ 53 ->
  eu + ew + 53 <= 0 -> -1074 <= eu + ew + 52 ->
  rounds_to (Zpos mu * Zpos mw) (2 ^ (- (eu + ew)))
            (mul float64 (S754_finite false mu eu) (S754_finite false mw ew)).
Proof.
  intros Hu Hw Hhi Hlo.
  unfold mul, SFmul. cbn [prec emax xorb].
  rewrite Pos2Z.inj_mul.
  set (a := Zpos mu * Zpos mw).
  assert (Ha : 2 ^ 104 <= a < 2 ^ 106).
  { unfold a. change (2 ^ 104) with (2 ^ 52 * 2 ^ 52).
    change (2 ^ 106) with (2 ^ 53 * 2 ^ 53). nia. }
  set (k := if a <? 2 ^ 105 then 52 else 53).
  assert (Hk : 52 <= k <= 53) by (unfold k; destruct (a <? 2 ^ 105); lia).
  assert (Hab : 2 ^ 52 * (1 * 2 ^ k) <= a < 2 ^ 53 * (1 * 2 ^ k)).
  { unfold k. destruct (Z.ltb_spec a (2 ^ 105)) as [Hlt|Hge].
    - change (2 ^ 52 * (1 * 2 ^ 52)) with (2 ^ 104).
      change (2 ^ 53 * (1 * 2 ^ 52)) with (2 ^ 105). lia.
    - change (2 ^ 52 * (1 * 2 ^ 53)) with (2 ^ 105).
      change (2 ^ 53 * (1 * 2 ^ 53)) with (2 ^ 106). lia. }
  replace (binary_round_aux 53 1024 false a (eu + ew) loc_Exact)
    with (binary_round_aux 53 1024 false (a / 1) (eu + ew) loc_Exact)
    by (rewrite Z.div_1_r; reflexivity).
  rewrite (round_aux_spec false a 1 (eu + ew) k loc_Exact);
    try lia; try exact Hab; try apply exact_locate.
  exists a, 1, k, (- (eu + ew)).
  split; [unfold rounded; f_equal; lia|].
  repeat split; try lia.
Qed.

(** Two floats with full mantissas, in order, as fractions. *)
Lemma leb_fractions (m m' : positive) (e e' : Z) :
  2 ^ 52 <= Zpos m < 2 ^ 53 -> 2 ^ 52 <= Zpos m' < 2 ^ 53 ->
  e <= 0 -> e' <= 0 ->
  leb (S754_finite false m e) (S754_finite false m' e') = true ->
  Zpos m * 2 ^ (- e') <= Zpos m' * 2 ^ (- e).
Proof.
  intros Hm Hm' He He' H. apply leb_finite in H.
  destruct H as [Hlt|[-> Hle]].
  - replace (- e) with ((- e') + (e' - e)) by lia.
    rewrite Z.pow_add_r by lia.
    assert (H2 : 0 < 2 ^ (- e')) by (apply Z.pow_pos_nonneg; lia).
    assert (Hp : 2 ^ 1 <= 2 ^ (e' - e)) by (apply Z.pow_le_mono_r; lia).
    change (2 ^ 1) with 2 in Hp.
    assert (Hmm : Zpos m <= Zpos m' * 2 ^ (e' - e)) by nia.
    replace (Zpos m' * (2 ^ (- e') * 2 ^ (e' - e)))
      with ((Zpos m' * 2 ^ (e' - e)) * 2 ^ (- e')) by ring.
    apply Z.mul_le_mono_nonneg_r; lia.
  - assert (H2 : 0 < 2 ^ (- e')) by (apply Z.pow_pos_nonneg; lia). nia.
Qed.

(** Multiplying by a positive float keeps the order. *)
Lemma mul_monotone (mu mu' mw : positive) (eu eu' ew : Z) :
  2 ^ 52 <= Zpos mu < 2 ^ 53 -> 2 ^ 52 <= Zpos mu' < 2 ^ 53 ->
  2 ^ 52 <= Zpos mw < 2 ^ 53 ->
  eu <= 0 -> eu' <= 0 -> ew <= 0 ->
  eu + ew + 53 <= 0 -> -1074 <= eu + ew + 52 ->
  eu' + ew + 53 <= 0 -> -1074 <= eu' + ew + 52 ->
  leb (S754_finite false mu eu) (S754_finite false mu' eu') = true ->
  leb (mul float64 (S754_finite false mu eu) (S754_finite false mw ew))
      (mul float64 (S754_finite false mu' eu') (S754_finite false mw ew)) = true.
Proof.
  intros Hu Hu' Hw He He' Hew H1 H2 H1' H2' Hle.
  pose proof (leb_fractions mu mu' eu eu' Hu Hu' He He' Hle) as Hfr.
  apply (rounds_to_monotone (Zpos mu * Zpos mw) (2 ^ (- (eu + ew)))
                            (Zpos mu' * Zpos mw) (2 ^ (- (eu' + ew)))).
  - apply Z.pow_pos_nonneg; lia.
  - apply Z.pow_pos_nonneg; lia.
  - apply mul_rounds_to; assumption.
  - apply mul_rounds_to; assumption.
  - replace (- (eu' + ew)) with (- eu' + - ew) by lia.
    replace (- (eu + ew)) with (- eu + - ew) by lia.
    rewrite !Z.pow_add_r by lia.
    assert (Hp : 0 < 2 ^ (- ew)) by (apply Z.pow_pos_nonneg; lia).
    set (T := 2 ^ (- ew)) in *.
    replace (Zpos mu * Zpos mw * (2 ^ (- eu') * T))
      with ((Zpos mu * 2 ^ (- eu')) * (Zpos mw * T)) by ring.
    replace (Zpos mu' * Zpos mw * (2 ^ (- eu) * T))
      with ((Zpos mu' * 2 ^ (- eu)) * (Zpos mw * T)) by ring.
    apply Z.mul_le_mono_nonneg_r; [|exact Hfr]. nia.
Qed.

(** *** The fraction of the sweep *)

(** The largest float below one, and the smallest quotient of two
    integers below [2^53]. *)
Lemma below_one_rounds_to :
  rounds_to (2 ^ 53 - 1) (2 ^ 53) (S754_finite false 9007199254740991 (-53)).
Proof. apply (exact_rounds_to 9007199254740991 (-53)); cbn; lia. Qed.

Lemma smallest_rounds_to :
  rounds_to (2 ^ 52) (2 ^ 105) (S754_finite false 4503599627370496 (-105)).
Proof. apply (exact_rounds_to 4503599627370496 (-105)); cbn; lia. Qed.

(** [c/n] for [0 < c < n < 2^53]: a float below one. *)
Lemma quotient_value (c n : Z) :
  0 < c < n -> n < 2 ^ 53 ->
  exists m e,
    div float64 (of_Z float64 c) (of_Z float64 n) = S754_finite false m e
    /\ 2 ^ 52 <= Zpos m < 2 ^ 53
    /\ -105 <= e <= -53
    /\ rounds_to c n (S754_finite false m e).
Proof.
  intros Hc Hn.
  pose proof (div_rounds_to c n Hc Hn) as Hr.
  destruct (rounds_to_finite _ _ _ Hr) as (m & e & Hx & Hm).
  rewrite Hx in Hr |- *. exists m, e.
  split; [reflexivity|]. split; [exact Hm|]. split; [|exact Hr].
  assert (Hhi : leb (S754_finite false m e)
                    (S754_finite false 9007199254740991 (-53)) = true).
  { apply (rounds_to_monotone c n (2 ^ 53 - 1) (2 ^ 53));
      first [exact Hr | exact below_one_rounds_to | lia | nia]. }
  assert (Hlo : leb (S754_finite false 4503599627370496 (-105))
                    (S754_finite false m e) = true).
  { apply (rounds_to_monotone (2 ^ 52) (2 ^ 105) c n);
      first [exact Hr | exact smallest_rounds_to | lia | nia]. }
  apply leb_finite in Hhi, Hlo. lia.
Qed.

(** *** The azimuth of a frame *)

Lemma of_Z_180 : of_Z float64 180 = S754_finite false 6333186975989760 (-45).
Proof. reflexivity. Qed.

Lemma of_Z_finite (z : Z) :
  0 < z < 2 ^ 53 -> float_of_int z = Ok (of_Z float64 z).
Proof.
  intros Hz. unfold float_of_int.
  destruct (of_Z_value z Hz) as (m & e & -> & _). reflexivity.
Qed.

(** The first frame. *)
Lemma az_zero (n_shapes n_steps_interp : Z) :
  0 < n_shapes * n_steps_interp < 2 ^ 53 ->
  az 0 n_shapes n_steps_interp = Ok zero.
Proof.
  intros Hn. unfold az, int_truediv, float_truediv_int.
  change (rbind (float_of_int ar_range) (fun x => rbind (float_of_int 2) (float_truediv x)))
    with (Ok (S754_finite false 6333186975989760 (-46))).
  cbn [rbind].
  change (int_sub_float 90 (S754_finite false 6333186975989760 (-46)))
    with (Ok zero).
  cbn [rbind].
  change (float_of_int 0) with (Ok zero). cbn [rbind].
  rewrite (of_Z_finite _ Hn). cbn [rbind].
  destruct (of_Z_value _ Hn) as (m & e & -> & _).
  reflexivity.
Qed.

(** A later frame: the fraction of the sweep times the range. *)
Lemma az_value (c n_shapes n_steps_interp : Z) :
  0 < c < n_shapes * n_steps_interp -> n_shapes * n_steps_interp < 2 ^ 53 ->
  exists m e,
    div float64 (of_Z float64 c) (of_Z float64 (n_shapes * n_steps_interp))
      = S754_finite false m e
    /\ 2 ^ 52 <= Zpos m < 2 ^ 53
    /\ -105 <= e <= -53
    /\ rounds_to c (n_shapes * n_steps_interp) (S754_finite false m e)
    /\ az c n_shapes n_steps_interp
       = Ok (mul float64 (S754_finite false m e)
                         (S754_finite false 6333186975989760 (-45))).
Proof.
  intros Hc Hn.
  destruct (quotient_value c _ Hc Hn) as (m & e & Hq & Hm & He & Hr).
  exists m, e. repeat split; try assumption; try lia.
  unfold az, int_truediv, float_truediv_int.
  change (rbind (float_of_int ar_range) (fun x => rbind (float_of_int 2) (float_truediv x)))
    with (Ok (S754_finite false 6333186975989760 (-46))).
  cbn [rbind].
  change (int_sub_float 90 (S754_finite false 6333186975989760 (-46)))
    with (Ok zero).
  cbn [rbind].
  rewrite (of_Z_finite c) by lia. cbn [rbind].
  rewrite (of_Z_finite (n_shapes * n_steps_interp)) by lia. cbn [rbind].
  assert (Hdiv : float_truediv (of_Z float64 c) (of_Z float64 (n_shapes * n_steps_interp))
                 = Ok (S754_finite false m e)).
  { rewrite <- Hq. unfold float_truediv.
    destruct (of_Z_value (n_shapes * n_steps_interp) ltac:(lia)) as (mn & en & -> & _).
    reflexivity. }
  rewrite Hdiv. cbn [rbind].
  unfold float_mul_int.
  change (float_of_int ar_range) with (Ok (S754_finite false 6333186975989760 (-45))).
  cbn [rbind]. f_equal.
  pose proof (mul_rounds_to m 6333186975989760 e (-45) Hm ltac:(cbn; lia)
                            ltac:(lia) ltac:(lia)) as Hv.
  destruct (rounds_to_finite _ _ _ Hv) as (mv & ev & -> & _).
  reflexivity.
Qed.

End Rounding_facts.

(* ================================================================== *)
(** ** Latent and color interpolation *)

Module Interpolation.

Import IEEE Py Frame IEEE_facts Py_facts Frame_facts.

(** C1.  For latent vectors [A] and [B] of equal length whose
    components are numbers of the array's format, and a step count
    [S >= 2] (an integer a float holds exactly), [shp_interp] at every
    step [j] of [[0, S)] raises nothing and is
    [A*(1 - j/(S-1)) + B*(j/(S-1))] with [j/(S-1)] the float quotient
    of the two integers; at [j = 0] the result equals [A] and at
    [j = S-1] it equals [B], component by component under [==], and is
    the same float except for the sign of a zero. *)
Theorem shp_interp_endpoints (dt : dtype) (A B : ndarray) (S : Z) :
  2 <= S <= 2 ^ 53 ->
  List.length A = List.length B ->
  Spec.numeric dt A -> Spec.numeric dt B ->
  (forall j, 0 <= j < S ->
             shp_interp dt A B j S = Ok (Spec.interpolation dt A B j S))
  /\ (exists R, shp_interp dt A B 0 S = Ok R
                /\ Forall2 same_value R A /\ array_eqb R A = true)
  /\ (exists R, shp_interp dt A B (S - 1) S = Ok R
                /\ Forall2 same_value R B /\ array_eqb R B = true).
Proof.
  intros HS Hlen HA HB. unfold shp_interp. repeat split.
  - intros j Hj. apply blend_spec; assumption.
  - exists (Spec.interpolation dt A B 0 S).
    pose proof (interpolation_first dt A B S HS Hlen HA HB) as H0.
    repeat split.
    + apply blend_spec; lia.
    + exact H0.
    + exact (same_value_array_eqb dt _ _ H0 HA).
  - exists (Spec.interpolation dt A B (S - 1) S).
    pose proof (interpolation_last dt A B S HS Hlen HA HB) as H1.
    repeat split.
    + apply blend_spec; lia.
    + exact H1.
    + exact (same_value_array_eqb dt _ _ H1 HB).
Qed.

Lemma numeric_of_forallb (dt : dtype) (A : ndarray) :
  forallb (is_finite dt) A = true -> Spec.numeric dt A.
Proof.
  intros H. apply Forall_forall. intros x Hx.
  rewrite forallb_forall in H. apply H. exact Hx.
Qed.

Lemma shp_interp_endpoints_witness :
  let A := [of_Z float32 1; of_Z float32 (-2); S754_zero true] in
  let B := [of_Z float32 3; of_Z float32 7; of_Z float32 5] in
  (forall j, 0 <= j < 5 ->
             shp_interp float32 A B j 5 = Ok (Spec.interpolation float32 A B j 5))
  /\ (exists R, shp_interp float32 A B 0 5 = Ok R
                /\ Forall2 same_value R A /\ array_eqb R A = true)
  /\ (exists R, shp_interp float32 A B (5 - 1) 5 = Ok R
                /\ Forall2 same_value R B /\ array_eqb R B = true).
Proof.
  intros A B.
  apply (shp_interp_endpoints float32 A B 5).
  - lia.
  - reflexivity.
  - apply numeric_of_forallb. reflexivity.
  - apply numeric_of_forallb. reflexivity.
Defined.

(** Outside the numbers the ends are not kept: an infinite component
    of [B] times the weight [0.0] is a NaN. *)
Example shp_interp_infinite :
  shp_interp float64 [lit_1_0] [infinity] 0 5 = Ok [nan].
Proof. reflexivity. Qed.

(** A negative zero of [A] can come back as a positive zero. *)
Example shp_interp_negative_zero :
  shp_interp float64 [S754_zero true] [lit_1_0] 0 5 = Ok [S754_zero false].
Proof. reflexivity. Qed.

Lemma half_eqb (R A : ndarray) :
  Forall2 same_value R A -> Spec.numeric float64 A ->
  array_eqb (Spec.half R) (Spec.half A) = true.
Proof.
  assert (Hh : is_finite float64 (cast float64 lit_0_5) = true) by reflexivity.
  induction 1 as [|r a R A Hra HRA IH]; intros HA.
  - reflexivity.
  - inversion HA as [|? ? Ha HA']; subst.
    unfold Spec.half, scalar_mul_array in *. cbn [map array_eqb].
    rewrite (IH HA'), andb_true_r.
    destruct Hra as [->|[Hr Hz]].
    + apply eqb_refl. apply mul_not_nan; assumption.
    + destruct r as [sr| | |]; try discriminate.
      destruct a as [sa| | |]; try discriminate.
      reflexivity.
Qed.

(** C4.  For two color labels (three components, each a number) and
    a step count [S >= 2], [col_interp] at every step [j] of [[0, S)]
    raises nothing and is [0.5 * (C1*(1 - j/(S-1)) + C2*(j/(S-1)))]; at
    step 0 it equals half of [C1] and at step [S-1] half of [C2]. *)
Theorem col_interp_endpoints (C1 C2 : ndarray) (S : Z) :
  2 <= S <= 2 ^ 53 ->
  Spec.color_label C1 -> Spec.color_label C2 ->
  (forall j, 0 <= j < S ->
             col_interp C1 C2 j S = Ok (Spec.color_blend C1 C2 j S))
  /\ (exists R, col_interp C1 C2 0 S = Ok R
                /\ array_eqb R (Spec.half C1) = true)
  /\ (exists R, col_interp C1 C2 (S - 1) S = Ok R
                /\ array_eqb R (Spec.half C2) = true).
Proof.
  intros HS [Hl1 Hn1] [Hl2 Hn2].
  assert (Hlen : List.length C1 = List.length C2) by congruence.
  assert (Hcol : forall j, 0 <= j < S ->
                           col_interp C1 C2 j S = Ok (Spec.color_blend C1 C2 j S)).
  { intros j Hj. unfold col_interp. rewrite blend_spec by assumption. reflexivity. }
  repeat split.
  - exact Hcol.
  - exists (Spec.color_blend C1 C2 0 S). split.
    + apply Hcol. lia.
    + apply half_eqb; [|exact Hn1].
      apply interpolation_first; assumption.
  - exists (Spec.color_blend C1 C2 (S - 1) S). split.
    + apply Hcol. lia.
    + apply half_eqb; [|exact Hn2].
      apply interpolation_last; assumption.
Qed.

Lemma col_interp_endpoints_witness :
  let blue := [zero; zero; lit_1_0] in
  let red := [lit_1_0; zero; zero] in
  (forall j, 0 <= j < 5 ->
             col_interp blue red j 5 = Ok (Spec.color_blend blue red j 5))
  /\ (exists R, col_interp blue red 0 5 = Ok R
                /\ array_eqb R (Spec.half blue) = true)
  /\ (exists R, col_interp blue red (5 - 1) 5 = Ok R
                /\ array_eqb R (Spec.half red) = true).
Proof.
  intros blue red.
  apply (col_interp_endpoints blue red 5).
  - lia.
  - split; [reflexivity|apply numeric_of_forallb; reflexivity].
  - split; [reflexivity|apply numeric_of_forallb; reflexivity].
Defined.

End Interpolation.

(* ================================================================== *)
(** ** Camera azimuth *)

Module Azimuth.

Import IEEE Py Frame Rounding Rounding_facts.

(** The angle depends on the two counts through their product only. *)
Lemma az_product (c a b : Z) : az c a b = az c (a * b) 1.
Proof. unfold az. rewrite Z.mul_1_r. reflexivity. Qed.

(** The angle of a frame after the first: a positive float, the
    product of the fraction of the sweep and the range. *)
Lemma az_positive (c n_shapes n_steps_interp : Z) :
  0 < c < n_shapes * n_steps_interp -> n_shapes * n_steps_interp < 2 ^ 53 ->
  exists m e mv ev,
    2 ^ 52 <= Zpos m < 2 ^ 53 /\ -105 <= e <= -53
    /\ rounds_to c (n_shapes * n_steps_interp) (S754_finite false m e)
    /\ mul float64 (S754_finite false m e) (S754_finite false 6333186975989760 (-45))
       = S754_finite false mv ev
    /\ az c n_shapes n_steps_interp = Ok (S754_finite false mv ev).
Proof.
  intros Hc Hn.
  destruct (az_value c n_shapes n_steps_interp Hc Hn)
    as (m & e & _ & Hm & He & Hr & Haz).
  pose proof (mul_rounds_to m 6333186975989760 e (-45) Hm ltac:(cbn; lia)
                            ltac:(lia) ltac:(lia)) as Hv.
  destruct (rounds_to_finite _ _ _ Hv) as (mv & ev & Hmul & _).
  exists m, e, mv, ev. rewrite Haz, Hmul. repeat split; try assumption; lia.
Qed.


(** The angle of an earlier counter is at most the angle of a later
    one, for every number of frames below [2^53]. *)
Lemma az_monotone (n_shapes n_steps_interp c1 c2 : Z) :
  n_shapes * n_steps_interp < 2 ^ 53 ->
  0 <= c1 -> c1 <= c2 -> c2 < n_shapes * n_steps_interp ->
  exists a1 a2,
    az c1 n_shapes n_steps_interp = Ok a1
    /\ az c2 n_shapes n_steps_interp = Ok a2
    /\ leb a1 a2 = true.
Proof.
  intros Hn Hc1 Hc12 Hc2. destruct (Z.eq_dec c1 0) as [->|Hpos].
  - exists zero. rewrite az_zero by lia.
    destruct (Z.eq_dec c2 0) as [->|Hpos2].
    + exists zero. rewrite az_zero by lia. repeat split.
    + destruct (az_positive c2 n_shapes n_steps_interp ltac:(lia) Hn)
        as (m & e & mv & ev & _ & _ & _ & _ & Haz).
      exists (S754_finite false mv ev). repeat split. exact Haz.
  - destruct (az_positive c1 n_shapes n_steps_interp ltac:(lia) Hn)
      as (m1 & e1 & mv1 & ev1 & Hm1 & He1 & Hr1 & Hmul1 & Haz1).
    destruct (az_positive c2 n_shapes n_steps_interp ltac:(lia) Hn)
      as (m2 & e2 & mv2 & ev2 & Hm2 & He2 & Hr2 & Hmul2 & Haz2).
    exists (S754_finite false mv1 ev1), (S754_finite false mv2 ev2).
    split; [exact Haz1|]. split; [exact Haz2|].
    rewrite <- Hmul1, <- Hmul2.
    apply mul_monotone; try assumption; try lia; try (cbn; lia).
    apply (rounds_to_monotone c1 (n_shapes * n_steps_interp)
                              c2 (n_shapes * n_steps_interp));
      first [assumption | lia | nia].
Qed.


(** *** How far an angle is from the straight line *)





End Azimuth.

(* ================================================================== *)
(** ** The command line and the start of the script *)

Module Startup.

Import IEEE Py Rng Script.
Local Open Scope string_scope.

(** *** The VAE flag *)

Ltac by_bits c := destruct c as [[] [] [] [] [] [] [] []]; reflexivity.

Lemma lower_t (c : ascii) : Ascii.eqb (lower_ascii c) "t" = Spec.either "t" "T" c.
Proof. by_bits c. Qed.

Lemma lower_r (c : ascii) : Ascii.eqb (lower_ascii c) "r" = Spec.either "r" "R" c.
Proof. by_bits c. Qed.

Lemma lower_u (c : ascii) : Ascii.eqb (lower_ascii c) "u" = Spec.either "u" "U" c.
Proof. by_bits c. Qed.

Lemma lower_e (c : ascii) : Ascii.eqb (lower_ascii c) "e" = Spec.either "e" "E" c.
Proof. by_bits c. Qed.

Lemma lower_true (v : string) :
  String.eqb (lower v) "true" = Spec.caseless_true v.
Proof.
  destruct v as [|c1 [|c2 [|c3 [|c4 [|c5 v]]]]]; cbn [lower String.eqb Spec.caseless_true];
    rewrite ?lower_t, ?lower_r, ?lower_u, ?lower_e;
    repeat match goal with
           | |- context [Spec.either ?a ?b ?c] => destruct (Spec.either a b c)
           end; reflexivity.
Qed.

(** C9.  The flag is computed without an exception, and it is [True]
    exactly when [--VAE] was given with a value that is ["true"] up to
    the case of its letters; without the option it is [False]. *)
Theorem flagVAE_caseless (a : args) :
  exists flag, flagVAE a = Ok flag
    /\ (flag = true <-> exists v, VAE a = Some v /\ Spec.caseless_true v = true)
    /\ (VAE a = None -> flag = false).
Proof.
  unfold flagVAE. destruct (VAE a) as [v|].
  - cbn [method_lower rbind]. rewrite lower_true.
    destruct (Spec.caseless_true v) eqn:Hv.
    + exists true. repeat split; try discriminate.
      exists v. split; [reflexivity|exact Hv].
    + exists false. repeat split; try discriminate.
      intros (v' & Hv' & Ht). injection Hv' as <-. congruence.
  - exists false. repeat split; try discriminate.
    intros (v & Hv & _). discriminate.
Qed.

Lemma flagVAE_total (a : args) : exists flag, flagVAE a = Ok flag.
Proof.
  unfold flagVAE. destruct (VAE a) as [v|]; [|exists false; reflexivity].
  cbn [method_lower rbind]. destruct (String.eqb (lower v) "true"); eexists; reflexivity.
Qed.

(** *** The directory of the network *)

Section Runs.

Context (G : generators) (w : world) (st : settings).

Lemma initialization_run (flag : bool) (s : state G) :
  flagVAE (argv w) = Ok flag ->
  initialization G w s
  = (Return flag,
     {| np_rng := np_seed G 0; py_rng := py_seed G 0; draws := draws s;
        log := (log s ++ [Putenv "CUDA_VISIBLE_DEVICES" (format_arg (GPU (argv w)))])
                 ++ [System "clear"] |}).
Proof.
  intros Hflag. unfold initialization, bind, emit, lift, np_random_seed, random_seed, ret.
  cbn. rewrite Hflag. reflexivity.
Qed.

(** C7.  When the directory of the network does not exist, the run
    ends at the [exit()] of line 228: it has set the environment variable,
    cleared the screen, seeded the generators and printed the message
    with the name of the directory, and nothing else; no file was read or
    written and no number drawn. *)
Theorem missing_directory_exits (flag : bool) (np0 : np_state G) (py0 : py_state G) :
  flagVAE (argv w) = Ok flag ->
  path_exists w (top_dir (argv w) flag) = false ->
  exists s, main G w st (initial G np0 py0) = (Exited, s)
    /\ log s = [Putenv "CUDA_VISIBLE_DEVICES" (format_arg (GPU (argv w)));
                System "clear";
                Print ("Directory " ++ top_dir (argv w) flag ++ " does not exist!")]
    /\ existsb loads_or_writes (log s) = false
    /\ draws s = [].
Proof.
  intros Hflag Hdir.
  unfold main, select_shapes.
  unfold bind at 1. unfold bind at 1. unfold bind at 1.
  rewrite (initialization_run flag _ Hflag).
  unfold bind at 1. unfold check_top_dir. rewrite Hdir. cbn [negb].
  eexists. split; [reflexivity|]. cbn. repeat split; reflexivity.
Qed.

(** *** Seeds *)

Lemma initialization_seeded (np1 np2 : np_state G) (py1 py2 : py_state G) :
  initialization G w (initial G np1 py1) = initialization G w (initial G np2 py2).
Proof.
  destruct (flagVAE_total (argv w)) as (flag & Hflag).
  rewrite !(initialization_run flag _ Hflag). reflexivity.
Qed.

(** Whatever follows the seeding starts alike from any two states of
    the generators. *)
Lemma initialization_then {A : Type} (k : bool -> M G A)
      (np1 np2 : np_state G) (py1 py2 : py_state G) :
  bind G (initialization G w) k (initial G np1 py1)
  = bind G (initialization G w) k (initial G np2 py2).
Proof.
  unfold bind. rewrite (initialization_seeded np1 np2 py1 py2). reflexivity.
Qed.

(** C10.  Whatever the two generators hold when the script starts,
    two runs on the same files and command line end the loading of the
    shapes alike: the same outcome, with the same [i_sel_training] and
    [i_sel_testing], and the same draws of [np.random.choice], the
    resampled point indices of every shape among them. *)
Theorem selection_deterministic
        (np1 np2 : np_state G) (py1 py2 : py_state G) :
  select_shapes G w st (initial G np1 py1) = select_shapes G w st (initial G np2 py2).
Proof.
  unfold select_shapes. unfold bind at 1. unfold bind at 6.
  rewrite (initialization_seeded np1 np2 py1 py2). reflexivity.
Qed.

(** The whole run is the same as well. *)
Lemma main_deterministic (np1 np2 : np_state G) (py1 py2 : py_state G) :
  main G w st (initial G np1 py1) = main G w st (initial G np2 py2).
Proof.
  unfold main. unfold bind at 1. unfold bind at 4.
  unfold select_shapes.
  rewrite (initialization_then _ np1 np2 py1 py2). reflexivity.
Qed.

End Runs.

Lemma missing_directory_exits_witness :
  exists s,
    main counter_generators Examples.empty_world script_settings
         (initial counter_generators 0%nat 0%nat) = (Exited, s)
    /\ log s = [Putenv "CUDA_VISIBLE_DEVICES"
                        (format_arg (GPU (argv Examples.empty_world)));
                System "clear";
                Print ("Directory " ++ top_dir (argv Examples.empty_world) false
                                    ++ " does not exist!")]
    /\ existsb loads_or_writes (log s) = false
    /\ draws s = [].
Proof.
  apply (missing_directory_exits counter_generators Examples.empty_world
           script_settings false 0%nat 0%nat); reflexivity.
Defined.

(** The message of the small world without its directory. *)
Example missing_directory_message :
  "Directory " ++ top_dir (argv Examples.empty_world) false ++ " does not exist!"
  = "Directory Network_pcae_N4_LR2 does not exist!".
Proof. reflexivity. Qed.

(** The shapes the small world selects, from any two starts. *)
Example selection_example (np0 py0 : nat) :
  exists v s,
    select_shapes counter_generators Examples.small_world Examples.two_two_five
                  (initial counter_generators np0 py0)
    = (Return (false, "Network_pcae_N4_LR2", v), s)
    /\ i_sel_training v = [0; 1]%nat
    /\ i_sel_testing v = [0; 1]%nat
    /\ map drawn (draws s)
       = [[0; 1]; [0; 1]; [1; 2; 0; 1]; [2; 3; 4; 5]; [0; 1; 2; 3]; [4; 5; 0; 1]]%nat.
Proof.
  unfold select_shapes.
  rewrite (initialization_then counter_generators Examples.small_world _
             np0 0%nat py0 0%nat).
  eexists _, _. split; [vm_compute; reflexivity|]. repeat split; reflexivity.
Qed.

End Startup.

(* ================================================================== *)
(** ** Resampling and the visualization batch *)

Module Sampling.

Import IEEE Py Rng Script.
Local Open Scope nat_scope.

(** *** Arrays *)

Lemma index_lt {A : Type} (l : list A) (k : nat) :
  k < List.length l -> exists a, index l k = Ok a.
Proof.
  intros Hk. unfold index. destruct (nth_error l k) as [a|] eqn:Hn.
  - exists a. reflexivity.
  - apply nth_error_None in Hn. lia.
Qed.

Lemma take_rows_length (pts : cloud) (idx : list nat) :
  Forall (fun k => k < List.length pts) idx ->
  exists rows, take_rows pts idx = Ok rows /\ List.length rows = List.length idx.
Proof.
  induction 1 as [|k idx Hk Hidx IH].
  - exists []. split; reflexivity.
  - destruct IH as (rows & Hrows & Hlen).
    destruct (index_lt pts k Hk) as (p & Hp).
    exists (p :: rows). cbn [take_rows]. rewrite Hp, Hrows. cbn.
    split; [reflexivity|congruence].
Qed.

Lemma assign_lt {A : Type} (l : list A) (k : nat) (v : A) :
  k < List.length l ->
  exists l', assign l k v = Ok l'
             /\ nth_error l' k = Some v
             /\ List.length l' = List.length l.
Proof.
  revert k. induction l as [|a l IH]; intros k Hk; cbn in Hk; [lia|].
  destruct k as [|k].
  - exists (v :: l). repeat split.
  - destruct (IH k ltac:(lia)) as (l' & Hl' & Hn & Hlen).
    exists (a :: l'). cbn [assign]. rewrite Hl'. cbn. repeat split; [exact Hn|congruence].
Qed.

Lemma assign_Forall {A : Type} (P : A -> Prop) (l l' : list A) (k : nat) (v : A) :
  Forall P l -> P v -> assign l k v = Ok l' -> Forall P l'.
Proof.
  intros Hl Hv. revert k l'. induction Hl as [|a l Ha Hl IH]; intros k l' H.
  - discriminate.
  - destruct k as [|k]; cbn [assign] in H.
    + injection H as <-. constructor; assumption.
    + destruct (assign l k v) as [r|] eqn:Hr; [|discriminate].
      cbn in H. injection H as <-. constructor; [exact Ha|]. exact (IH k r Hr).
Qed.

Lemma set_rows_Forall (vis vis' : list cloud) (pc_size k : nat) (rows : cloud) :
  Forall (fun c => List.length c = pc_size) vis ->
  set_rows vis pc_size k rows = Ok vis' ->
  Forall (fun c => List.length c = pc_size) vis'.
Proof.
  intros Hvis. unfold set_rows.
  destruct (List.length rows =? pc_size) eqn:Hlen; [|discriminate].
  apply Nat.eqb_eq in Hlen. intros H.
  exact (assign_Forall _ vis vis' k rows Hvis Hlen H).
Qed.

(** *** One point cloud *)

Section Generator.

Context (G : generators) (contract : numpy_contract G).

Lemma np_random_choice_run (pop size : nat) (replace : bool) (s : state G) :
  0 < pop -> (replace = false -> size <= pop) ->
  exists idx s',
    np_random_choice G pop size replace s = (Return idx, s')
    /\ List.length idx = size
    /\ Forall (fun k => k < pop) idx
    /\ draws s' = (draws s ++ [{| population := pop; sample_size := size;
                                  with_replacement := replace; drawn := idx |}])%list
    /\ log s' = log s.
Proof.
  intros Hpop Hsize. unfold np_random_choice.
  replace (pop =? 0) with false by (symmetry; apply Nat.eqb_neq; lia).
  cbn [andb].
  replace (negb replace && (pop <? size)) with false.
  2:{ destruct replace; [reflexivity|]. cbn. symmetry. apply Nat.ltb_ge.
      apply Hsize. reflexivity. }
  pose proof (draw_length G contract (np_rng s) pop size replace) as Hlen.
  pose proof (draw_range G contract (np_rng s) pop size replace Hpop) as Hrange.
  destruct (np_draw G (np_rng s) pop size replace) as [idx rng'].
  cbn [fst] in Hlen, Hrange.
  eexists idx, _. split; [reflexivity|]. cbn. repeat split; assumption.
Qed.

(** C5.  For a loaded point cloud (at least one point) the indices
    are drawn with replacement exactly when the cloud has strictly fewer
    points than [pc_size], and without replacement otherwise, also when
    it has exactly [pc_size]; either way [pc_size] indices are drawn, the
    rows they select are [pc_size] points, and these are what the slot of
    the visualization batch holds afterwards. *)
Theorem resample_point_count (pts : cloud) (pc_size : nat) (s : state G) :
  pts <> [] ->
  exists idx rows s' d,
    resample G pts pc_size s = (Return idx, s')
    /\ draws s' = (draws s ++ [d])%list
    /\ population d = List.length pts
    /\ sample_size d = pc_size
    /\ drawn d = idx
    /\ (with_replacement d = true <-> List.length pts < pc_size)
    /\ (with_replacement d = false <-> pc_size <= List.length pts)
    /\ take_rows pts idx = Ok rows
    /\ List.length rows = pc_size
    /\ forall (vis : list cloud) (k : nat),
         k < List.length vis ->
         exists vis', set_rows vis pc_size k rows = Ok vis'
                      /\ nth_error vis' k = Some rows
                      /\ List.length vis' = List.length vis.
Proof.
  intros Hpts.
  assert (Hpop : 0 < List.length pts) by (destruct pts; [contradiction|cbn; lia]).
  unfold resample.
  destruct (List.length pts <? pc_size) eqn:Hlt.
  - apply Nat.ltb_lt in Hlt.
    destruct (np_random_choice_run (List.length pts) pc_size true s Hpop)
      as (idx & s' & Hrun & Hlen & Hrange & Hdraws & _); [discriminate|].
    destruct (take_rows_length pts idx Hrange) as (rows & Hrows & Hrl).
    eexists idx, rows, s', _. split; [exact Hrun|]. split; [exact Hdraws|].
    cbn. repeat split; try congruence; try lia; try discriminate.
    intros vis k Hk. unfold set_rows.
    replace (List.length rows =? pc_size) with true
      by (symmetry; apply Nat.eqb_eq; congruence).
    apply assign_lt. exact Hk.
  - apply Nat.ltb_ge in Hlt.
    destruct (np_random_choice_run (List.length pts) pc_size false s Hpop)
      as (idx & s' & Hrun & Hlen & Hrange & Hdraws & _); [intros _; exact Hlt|].
    destruct (take_rows_length pts idx Hrange) as (rows & Hrows & Hrl).
    eexists idx, rows, s', _. split; [exact Hrun|]. split; [exact Hdraws|].
    cbn. repeat split; try congruence; try lia; try discriminate.
    intros vis k Hk. unfold set_rows.
    replace (List.length rows =? pc_size) with true
      by (symmetry; apply Nat.eqb_eq; congruence).
    apply assign_lt. exact Hk.
Qed.

(** *** The batch *)

Lemma bind_Return {A B : Type} (c : M G A) (k : A -> M G B)
      (s s' : state G) (b : B) :
  bind G c k s = (Return b, s') ->
  exists a s1, c s = (Return a, s1) /\ k a s1 = (Return b, s').
Proof.
  unfold bind. destruct (c s) as [[a|e|] s1]; intros H; try discriminate.
  exists a, s1. split; [reflexivity|exact H].
Qed.

Lemma lift_Return {A : Type} (r : result A) (s s' : state G) (a : A) :
  lift G r s = (Return a, s') -> r = Ok a /\ s' = s.
Proof.
  destruct r as [a'|e]; cbn; intros H; [|discriminate].
  injection H as -> ->. split; reflexivity.
Qed.

Lemma ret_Return {A : Type} (a a' : A) (s s' : state G) :
  ret G a s = (Return a', s') -> a' = a /\ s' = s.
Proof. unfold ret. intros H. injection H as -> ->. split; reflexivity. Qed.

Lemma for_each_invariant {A B : Type} (P : B -> Prop) (body : B -> A -> M G B) :
  (forall b a s b' s', P b -> body b a s = (Return b', s') -> P b') ->
  forall l acc s acc' s',
    P acc -> for_each G l body acc s = (Return acc', s') -> P acc'.
Proof.
  intros Hbody. induction l as [|a l IH]; intros acc s acc' s' Hacc H.
  - cbn in H. apply ret_Return in H. destruct H as [-> _]. exact Hacc.
  - cbn [for_each] in H. apply bind_Return in H. destruct H as (b & s1 & Hb & Hrest).
    exact (IH b s1 acc' s' (Hbody _ _ _ _ _ Hacc Hb) Hrest).
Qed.

Lemma assign_length {A : Type} (l l' : list A) (k : nat) (v : A) :
  assign l k v = Ok l' -> List.length l' = List.length l.
Proof.
  revert k l'. induction l as [|a l IH]; intros k l' H; [discriminate|].
  destruct k as [|k]; cbn [assign] in H.
  - injection H as <-. reflexivity.
  - destruct (assign l k v) as [r|] eqn:Hr; [|discriminate].
    cbn in H. injection H as <-. cbn. rewrite (IH k r Hr). reflexivity.
Qed.

Lemma set_rows_shaped (pc_size n k : nat) (vis vis' : list cloud) (rows : cloud) :
  batch_shaped pc_size n vis ->
  set_rows vis pc_size k rows = Ok vis' ->
  batch_shaped pc_size n vis'.
Proof.
  intros [Hlen Hall] H. split.
  - unfold set_rows in H. destruct (List.length rows =? pc_size); [|discriminate].
    rewrite (assign_length _ _ _ _ H). exact Hlen.
  - exact (set_rows_Forall vis vis' pc_size k rows Hall H).
Qed.

Lemma load_shape_shaped (w : world) (geom : list string) (pc_size component n i : nat)
      (v v' : loading) (s s' : state G) :
  batch_shaped pc_size n (vis_set v) ->
  load_shape G w geom pc_size component v i s = (Return v', s') ->
  batch_shaped pc_size n (vis_set v').
Proof.
  intros Hv H. unfold load_shape in H.
  apply bind_Return in H. destruct H as (name & s1 & _ & H).
  apply bind_Return in H. destruct H as (pts & s2 & _ & H).
  apply bind_Return in H. destruct H as (idx & s3 & _ & H).
  apply bind_Return in H. destruct H as (colors & s4 & _ & H).
  apply bind_Return in H. destruct H as (rows & s5 & _ & H).
  apply bind_Return in H. destruct H as (vis & s6 & Hvis & H).
  apply ret_Return in H. destruct H as [-> _]. cbn [vis_set].
  apply lift_Return in Hvis. destruct Hvis as [Hvis _].
  exact (set_rows_shaped pc_size n (cntr v) _ _ rows Hv Hvis).
Qed.

(** When the loading loops end, the batch holds
    [n_shapes_trainingset + n_shapes_testset] clouds of [pc_size] points
    each. *)
Lemma load_shapes_shaped (w : world) (st : settings)
      (geom_training geom_testing : list string) (pc_size : nat)
      (v : loading) (s s' : state G) :
  load_shapes G w st geom_training geom_testing pc_size s = (Return v, s') ->
  batch_shaped pc_size (n_shapes_trainingset st + n_shapes_testset st) (vis_set v).
Proof.
  intros H. unfold load_shapes in H.
  apply bind_Return in H. destruct H as (sel1 & s1 & _ & H).
  apply bind_Return in H. destruct H as (sel2 & s2 & _ & H).
  apply bind_Return in H. destruct H as (v1 & s3 & Hv1 & H).
  apply bind_Return in H. destruct H as (v2 & s4 & Hv2 & H).
  apply bind_Return in H. destruct H as (pts & s5 & _ & H).
  apply bind_Return in H. destruct H as (idx & s6 & _ & H).
  apply bind_Return in H. destruct H as (rows & s7 & _ & H).
  apply bind_Return in H. destruct H as (vis & s8 & Hvis & H).
  apply bind_Return in H. destruct H as (colors & s9 & _ & H).
  apply ret_Return in H. destruct H as [-> _]. cbn [vis_set].
  set (n := n_shapes_trainingset st + n_shapes_testset st) in *.
  assert (H1 : batch_shaped pc_size n (vis_set v1)).
  { refine (for_each_invariant (fun v => batch_shaped pc_size n (vis_set v)) _ _
              _ _ _ _ _ _ Hv1).
    - intros b a t b' t' Hb Hrun. exact (load_shape_shaped _ _ _ _ _ _ _ _ _ _ Hb Hrun).
    - cbn [vis_set]. split; [apply repeat_length|].
      apply Forall_forall. intros c Hc. apply repeat_spec in Hc. subst c.
      apply repeat_length. }
  assert (H2 : batch_shaped pc_size n (vis_set v2)).
  { refine (for_each_invariant (fun v => batch_shaped pc_size n (vis_set v)) _ _
              _ _ _ _ _ H1 Hv2).
    intros b a t b' t' Hb Hrun. exact (load_shape_shaped _ _ _ _ _ _ _ _ _ _ Hb Hrun). }
  apply lift_Return in Hvis. destruct Hvis as [Hvis _].
  destruct (List.length rows =? pc_size) eqn:Hrows; [|discriminate].
  unfold assign_last in Hvis.
  destruct (List.length (vis_set v2)) as [|k] eqn:Hk; [discriminate|].
  apply (set_rows_shaped pc_size n k (vis_set v2) vis rows H2).
  unfold set_rows. rewrite Hrows. exact Hvis.
Qed.

(** *** The colors *)

Lemma set_color_labels (colors colors' : list ndarray) (k c : nat) :
  Forall Spec.color_label colors ->
  set_color colors k c = Ok colors' ->
  Forall Spec.color_label colors' /\ List.length colors' = List.length colors.
Proof.
  intros Hall H. unfold set_color in H.
  destruct (index colors k) as [row|] eqn:Hrow; [|discriminate]. cbn [rbind] in H.
  destruct (assign row c lit_1_0) as [row'|] eqn:Hrow'; [|discriminate].
  cbn [rbind] in H.
  assert (Hlabel : Spec.color_label row).
  { unfold index in Hrow. destruct (nth_error colors k) as [r|] eqn:Hn; [|discriminate].
    injection Hrow as ->. rewrite Forall_forall in Hall. apply Hall.
    exact (nth_error_In _ _ Hn). }
  destruct Hlabel as [Hlen Hnum]. split.
  - apply (assign_Forall _ colors colors' k row' Hall); [|exact H]. split.
    + rewrite (assign_length _ _ _ _ Hrow'). exact Hlen.
    + apply (assign_Forall _ row row' c lit_1_0 Hnum); [reflexivity|exact Hrow'].
  - exact (assign_length _ _ _ _ H).
Qed.

Lemma load_shape_labelled (w : world) (geom : list string) (pc_size component n i : nat)
      (v v' : loading) (s s' : state G) :
  Spec.colors_labelled n (color_shape v) ->
  load_shape G w geom pc_size component v i s = (Return v', s') ->
  Spec.colors_labelled n (color_shape v').
Proof.
  intros [Hv Hn] H. unfold load_shape in H.
  apply bind_Return in H. destruct H as (name & s1 & _ & H).
  apply bind_Return in H. destruct H as (pts & s2 & _ & H).
  apply bind_Return in H. destruct H as (idx & s3 & _ & H).
  apply bind_Return in H. destruct H as (colors & s4 & Hcolors & H).
  apply bind_Return in H. destruct H as (rows & s5 & _ & H).
  apply bind_Return in H. destruct H as (vis & s6 & _ & H).
  apply ret_Return in H. destruct H as [-> _]. cbn [color_shape].
  apply lift_Return in Hcolors. destruct Hcolors as [Hcolors _].
  destruct (set_color_labels _ _ _ _ Hv Hcolors) as [Hall Hlen].
  split; [exact Hall|congruence].
Qed.

(** Every row of [color_shape] the loading loops leave is a color
    label: three components, each [0.0] or [1.0] and so a number. *)
Lemma load_shapes_labelled (w : world) (st : settings)
      (geom_training geom_testing : list string) (pc_size : nat)
      (v : loading) (s s' : state G) :
  load_shapes G w st geom_training geom_testing pc_size s = (Return v, s') ->
  Spec.colors_labelled (n_shapes_trainingset st + n_shapes_testset st + 1) (color_shape v).
Proof.
  intros H. unfold load_shapes in H.
  apply bind_Return in H. destruct H as (sel1 & s1 & _ & H).
  apply bind_Return in H. destruct H as (sel2 & s2 & _ & H).
  apply bind_Return in H. destruct H as (v1 & s3 & Hv1 & H).
  apply bind_Return in H. destruct H as (v2 & s4 & Hv2 & H).
  apply bind_Return in H. destruct H as (pts & s5 & _ & H).
  apply bind_Return in H. destruct H as (idx & s6 & _ & H).
  apply bind_Return in H. destruct H as (rows & s7 & _ & H).
  apply bind_Return in H. destruct H as (vis & s8 & _ & H).
  apply bind_Return in H. destruct H as (colors & s9 & Hcolors & H).
  apply ret_Return in H. destruct H as [-> _]. cbn [color_shape].
  set (n := n_shapes_trainingset st + n_shapes_testset st + 1) in *.
  assert (H1 : Spec.colors_labelled n (color_shape v1)).
  { refine (for_each_invariant (fun v => Spec.colors_labelled n (color_shape v)) _ _
              _ _ _ _ _ _ Hv1).
    - intros b a t b' t' Hb Hrun. exact (load_shape_labelled _ _ _ _ _ _ _ _ _ _ Hb Hrun).
    - cbn [color_shape]. split; [|apply repeat_length].
      apply Forall_forall. intros c Hc. apply repeat_spec in Hc. subst c.
      split; [reflexivity|]. repeat constructor. }
  assert (H2 : Spec.colors_labelled n (color_shape v2)).
  { refine (for_each_invariant (fun v => Spec.colors_labelled n (color_shape v)) _ _
              _ _ _ _ _ H1 Hv2).
    intros b a t b' t' Hb Hrun. exact (load_shape_labelled _ _ _ _ _ _ _ _ _ _ Hb Hrun). }
  apply lift_Return in Hcolors. destruct Hcolors as [Hcolors _].
  destruct H2 as [Hall Hlen].
  destruct (set_color_labels _ _ _ _ Hall Hcolors) as [Hall' Hlen'].
  split; [exact Hall'|congruence].
Qed.

End Generator.

(** The small generator keeps numpy's contract. *)
Lemma counter_generators_contract : numpy_contract counter_generators.
Proof.
  split.
  - intros s pop size replace. cbn. rewrite length_map, length_seq. reflexivity.
  - intros s pop size replace Hpop. cbn. apply Forall_forall. intros k Hk.
    apply in_map_iff in Hk. destruct Hk as (j & <- & _).
    apply Nat.mod_upper_bound. lia.
Qed.

Lemma resample_point_count_witness :
  let pts := map Examples.pt [1; 2; 3]%Z in
  let s := Examples.start in
  exists idx rows s' d,
    resample counter_generators pts 4 s = (Return idx, s')
    /\ draws s' = (draws s ++ [d])%list
    /\ population d = List.length pts
    /\ sample_size d = 4
    /\ drawn d = idx
    /\ (with_replacement d = true <-> List.length pts < 4)
    /\ (with_replacement d = false <-> 4 <= List.length pts)
    /\ take_rows pts idx = Ok rows
    /\ List.length rows = 4
    /\ forall (vis : list cloud) (k : nat),
         k < List.length vis ->
         exists vis', set_rows vis 4 k rows = Ok vis'
                      /\ nth_error vis' k = Some rows
                      /\ List.length vis' = List.length vis.
Proof.
  intros pts s.
  apply (resample_point_count counter_generators counter_generators_contract pts 4 s).
  discriminate.
Defined.

End Sampling.

(* ================================================================== *)
(** ** Normalization *)

Module Normalization.

Import IEEE Py Script IEEE_facts Py_facts.

(** The difference of two floats is a finite nonzero number only when
    both are finite and not both zero. *)
Lemma sub_finite_nonzero (x y : float) :
  is_finite_nonzero (sub float64 x y) = true ->
  (is_zero x = true \/ is_finite_nonzero x = true)
  /\ (is_zero y = true \/ is_finite_nonzero y = true)
  /\ (is_zero x = true -> is_finite_nonzero y = true).
Proof.
  destruct x as [sx|sx| |sx mx ex], y as [sy|sy| |sy my ey]; cbn;
    try (destruct sx, sy; cbn); intros H; try discriminate;
    repeat split; auto; discriminate.
Qed.

Lemma sub_zeros (x y : float) :
  is_zero x = true -> is_zero y = true -> is_zero (sub float64 x y) = true.
Proof.
  destruct x as [sx| | |], y as [sy| | |]; intros; try discriminate.
  destruct sx, sy; reflexivity.
Qed.

Lemma sub_same (x : float) :
  is_finite_nonzero x = true -> sub float64 x x = zero.
Proof.
  destruct x as [s|s| |s m e]; intros H; try discriminate.
  unfold sub, SFsub. rewrite Z.min_id.
  unfold shl_align. rewrite !Z.sub_diag. reflexivity.
Qed.

Lemma sub_zero_finite (x1 x2 y : float) :
  is_zero x1 = true -> is_zero x2 = true -> is_finite_nonzero y = true ->
  sub float64 x1 y = sub float64 x2 y.
Proof.
  destruct x1, x2, y; intros; try discriminate; reflexivity.
Qed.

(** A zero numerator gives the lower output limit. *)
Lemma rescale_of_zero (u d : float) :
  is_zero u = true -> is_finite_nonzero d = true ->
  add float64 (mul float64 (div float64 u d) (sub float64 lit_0_9 lit_0_1)) lit_0_1
  = lit_0_1.
Proof.
  destruct u as [su| | |]; intros Hu; try discriminate.
  destruct d as [| | |sd md ed]; intros Hd; try discriminate.
  destruct su, sd; reflexivity.
Qed.

(** A numerator equal to the denominator gives the upper one. *)
Lemma rescale_of_one :
  add float64 (mul float64 lit_1_0 (sub float64 lit_0_9 lit_0_1)) lit_0_1 = lit_0_9.
Proof. reflexivity. Qed.

Lemma rescale_min (miX maX x : float) :
  is_finite_nonzero (sub float64 maX miX) = true ->
  eqb x miX = true ->
  rescale (lit_0_1, lit_0_9) (miX, maX) x = lit_0_1.
Proof.
  intros Hd Hx. unfold rescale. cbn [fst snd].
  apply rescale_of_zero; [|exact Hd].
  destruct (sub_finite_nonzero maX miX Hd) as (_ & Hmi & _).
  destruct (eqb_same_value x miX Hx) as [->|[Hzx Hzm]].
  - destruct Hmi as [Hz|Hf].
    + apply sub_zeros; assumption.
    + rewrite (sub_same miX Hf). reflexivity.
  - apply sub_zeros; assumption.
Qed.

Lemma rescale_max (miX maX x : float) :
  is_finite_nonzero (sub float64 maX miX) = true ->
  eqb x maX = true ->
  rescale (lit_0_1, lit_0_9) (miX, maX) x = lit_0_9.
Proof.
  intros Hd Hx. unfold rescale. cbn [fst snd].
  assert (Hsub : sub float64 x miX = sub float64 maX miX).
  { destruct (eqb_same_value x maX Hx) as [->|[Hzx Hzm]]; [reflexivity|].
    destruct (sub_finite_nonzero maX miX Hd) as (_ & _ & Hmi).
    apply sub_zero_finite; auto. }
  rewrite Hsub.
  destruct (sub float64 maX miX) as [| | |sd md ed]; try discriminate.
  rewrite div_self. exact rescale_of_one.
Qed.

Lemma coordinates_rescaled (out_lim inp_lim : float * float) (batch : list cloud) :
  coordinates (map (map (rescale_point out_lim inp_lim)) batch)
  = map (rescale out_lim inp_lim) (coordinates batch).
Proof.
  unfold coordinates. induction batch as [|c batch IH].
  - reflexivity.
  - cbn [map flat_map]. rewrite map_app, IH. f_equal.
    clear IH. induction c as [|[[x y] z] c IHc].
    + reflexivity.
    + cbn [map flat_map]. rewrite map_app, IHc. reflexivity.
Qed.

(** C6.  With [maX] and [miX] read from the normalization file and
    [Delta = maX - miX] a finite nonzero number, the batch is normalized
    without an exception, coordinate by coordinate; a coordinate equal to
    the recorded minimum becomes the literal [0.1] and one equal to the
    recorded maximum the literal [0.9], bit for bit. *)
Theorem normalization_bounds (maX miX : float) (rest : list float) (batch : list cloud) :
  is_finite_nonzero (sub float64 maX miX) = true ->
  exists vis,
    normalize_with (maX :: miX :: rest) batch = Ok vis
    /\ coordinates vis
       = map (rescale (lit_0_1, lit_0_9) (miX, maX)) (coordinates batch)
    /\ (forall k x, nth_error (coordinates batch) k = Some x ->
                    eqb x miX = true ->
                    nth_error (coordinates vis) k = Some lit_0_1)
    /\ (forall k x, nth_error (coordinates batch) k = Some x ->
                    eqb x maX = true ->
                    nth_error (coordinates vis) k = Some lit_0_9).
Proof.
  intros Hd.
  exists (map (map (rescale_point (lit_0_1, lit_0_9) (miX, maX))) batch).
  split; [reflexivity|].
  rewrite coordinates_rescaled. split; [reflexivity|].
  split; intros k x Hk Hx; rewrite nth_error_map, Hk; cbn [option_map]; f_equal.
  - exact (rescale_min miX maX x Hd Hx).
  - exact (rescale_max miX maX x Hd Hx).
Qed.

Lemma normalization_bounds_witness :
  let maX := of_Z float64 10 in
  let miX := of_Z float64 (-3) in
  let batch := [[(miX, of_Z float64 2, maX)]] in
  exists vis,
    normalize_with [maX; miX] batch = Ok vis
    /\ coordinates vis
       = map (rescale (lit_0_1, lit_0_9) (miX, maX)) (coordinates batch)
    /\ (forall k x, nth_error (coordinates batch) k = Some x ->
                    eqb x miX = true ->
                    nth_error (coordinates vis) k = Some lit_0_1)
    /\ (forall k x, nth_error (coordinates batch) k = Some x ->
                    eqb x maX = true ->
                    nth_error (coordinates vis) k = Some lit_0_9).
Proof.
  intros maX miX batch.
  apply (normalization_bounds maX miX [] batch). reflexivity.
Defined.

(** The run of the small world: first and last coordinate of the
    example batch above. *)
Example normalization_example :
  normalize_with [of_Z float64 10; of_Z float64 (-3)]
                 [[(of_Z float64 (-3), of_Z float64 2, of_Z float64 10)]]
  = Ok [[(lit_0_1, S754_finite false 7344331700019578 (-54), lit_0_9)]].
Proof. reflexivity. Qed.

End Normalization.

(* ================================================================== *)
(** ** The interpolation loop *)

Module Loop.

Import IEEE Py Frame Rng Script IEEE_facts Py_facts Frame_facts Sampling.
Local Open Scope string_scope.

(** The angle of a frame is computed without an exception. *)
Lemma az_ok (c a b : Z) :
  0 <= c < 2 ^ 53 -> 0 < a * b < 2 ^ 53 -> exists x, az c a b = Ok x.
Proof.
  intros Hc Hn. unfold az.
  replace (int_truediv ar_range 2) with (Ok (of_Z float64 90)) by reflexivity.
  cbn [rbind].
  replace (int_sub_float 90 (of_Z float64 90)) with (Ok zero) by reflexivity.
  cbn [rbind]. unfold int_truediv, float_truediv_int.
  rewrite (float_of_int_nonneg c Hc). cbn [rbind].
  destruct (float_of_int_pos (a * b) Hn) as (m & e & Hf & _).
  rewrite Hf. cbn [rbind float_truediv]. unfold float_mul_int.
  replace (float_of_int ar_range) with (Ok (of_Z float64 180)) by reflexivity.
  cbn [rbind]. eexists. reflexivity.
Qed.

Lemma col_interp_ok (C1 C2 : ndarray) (j S : Z) :
  2 <= S <= 2 ^ 53 -> 0 <= j < S -> exists c, col_interp C1 C2 j S = Ok c.
Proof.
  intros HS Hj. unfold col_interp. rewrite blend_spec by assumption.
  eexists. reflexivity.
Qed.

Section Frames.

Context (G : generators) (w : world) (st : settings).

Lemma bind_emit {B : Type} (e : event) (k : unit -> M G B) (s : state G) :
  bind G (emit G e) k s = k tt (logged s [e]).
Proof. reflexivity. Qed.

Lemma bind_lift_Ok {A B : Type} (a : A) (k : A -> M G B) (s : state G) :
  bind G (lift G (Ok a)) k s = k a s.
Proof. reflexivity. Qed.

Lemma bind_ret {A B : Type} (a : A) (k : A -> M G B) (s : state G) :
  bind G (ret G a) k s = k a s.
Proof. reflexivity. Qed.

Lemma bind_assoc {A B C : Type} (c : M G A) (f : A -> M G B) (k : B -> M G C)
      (s : state G) :
  bind G (bind G c f) k s = bind G c (fun a => bind G (f a) k) s.
Proof. unfold bind. destruct (c s) as [[a|e|] s1]; reflexivity. Qed.

Lemma logged_logged (s : state G) (es es' : list event) :
  logged (logged s es) es' = logged s (es ++ es').
Proof. unfold logged. cbn. rewrite app_assoc. reflexivity. Qed.

(** One pass of the inner loop: everything up to the call of [plot3]
    succeeds, and the call decides. *)
Lemma frame_run (sg : signature) (dir : string) (vis : list cloud)
      (latent color : list ndarray) (n_shapes i cntr j : nat) (s : state G) :
  (i < List.length vis)%nat ->
  (i + 1 < List.length latent)%nat ->
  (i + 1 < List.length color)%nat ->
  2 <= Z.of_nat (n_steps_interp st) <= 2 ^ 53 ->
  (j < n_steps_interp st)%nat ->
  0 < Z.of_nat n_shapes * Z.of_nat (n_steps_interp st) < 2 ^ 53 ->
  Z.of_nat cntr < 2 ^ 53 ->
  exists lat_i lat_i1 l col a,
    index latent i = Ok lat_i
    /\ index latent (i + 1) = Ok lat_i1
    /\ shp_interp (latent_dtype w) lat_i lat_i1 (Z.of_nat j)
                  (Z.of_nat (n_steps_interp st)) = Ok l
    /\ az (Z.of_nat cntr) (Z.of_nat n_shapes) (Z.of_nat (n_steps_interp st)) = Ok a
    /\ frame G w st sg dir vis latent color n_shapes i cntr j s
       = if binds sg 2 ["az"; "col"]
         then (Return (S cntr),
               logged s (frame_effects dir i j l
                           ++ [WritePng (pc_name dir i j)
                                        [("az", Number a); ("col", Array col)]]))
         else (Raised TypeError, logged s (frame_effects dir i j l)).
Proof.
  intros Hvis Hlat Hcol HS Hj HN Hc.
  destruct (index_lt latent i ltac:(lia)) as (li & Hli).
  destruct (index_lt latent (i + 1) Hlat) as (li1 & Hli1).
  destruct (index_lt color i ltac:(lia)) as (ci & Hci).
  destruct (index_lt color (i + 1) Hcol) as (ci1 & Hci1).
  destruct (index_lt vis i Hvis) as (shape & Hshape).
  destruct (col_interp_ok ci ci1 (Z.of_nat j) (Z.of_nat (n_steps_interp st)) HS
              ltac:(lia)) as (col & Hcolor).
  destruct (az_ok (Z.of_nat cntr) (Z.of_nat n_shapes) (Z.of_nat (n_steps_interp st))
              ltac:(lia) HN) as (a & Ha).
  exists li, li1,
    (Spec.interpolation (latent_dtype w) li li1 (Z.of_nat j)
                        (Z.of_nat (n_steps_interp st))), col, a.
  split; [exact Hli|]. split; [exact Hli1|].
  split; [unfold shp_interp; apply blend_spec; (assumption || lia)|].
  split; [exact Ha|].
  unfold frame. cbv zeta.
  rewrite Hli, bind_lift_Ok. rewrite Hli1, bind_lift_Ok.
  unfold shp_interp. rewrite blend_spec by (assumption || lia). rewrite bind_lift_Ok.
  rewrite Hci, bind_lift_Ok. rewrite Hci1, bind_lift_Ok.
  rewrite Hcolor, bind_lift_Ok. rewrite bind_emit.
  unfold frame_effects, plot3, PC_html. cbn [map fst].
  replace (binds PC_html_signature 3 []) with true by reflexivity.
  destruct (j =? 0)%nat.
  - rewrite Hshape, bind_assoc, bind_lift_Ok, bind_emit.
    rewrite Ha, bind_lift_Ok. rewrite !logged_logged.
    destruct (binds sg 2 ["az"; "col"]).
    + rewrite bind_emit. unfold ret. rewrite logged_logged. reflexivity.
    + reflexivity.
  - rewrite bind_ret. rewrite Ha, bind_lift_Ok.
    destruct (binds sg 2 ["az"; "col"]).
    + rewrite bind_emit. unfold ret. rewrite logged_logged. reflexivity.
    + reflexivity.
Qed.

Lemma bind_Return_eq {A B : Type} (c : M G A) (k : A -> M G B)
      (s s1 : state G) (a : A) :
  c s = (Return a, s1) -> bind G c k s = k a s1.
Proof. intros H. unfold bind. rewrite H. reflexivity. Qed.

Lemma bind_Raised_eq {A B : Type} (c : M G A) (k : A -> M G B)
      (s s1 : state G) (e : exn) :
  c s = (Raised e, s1) -> bind G c k s = (Raised e, s1).
Proof. intros H. unfold bind. rewrite H. reflexivity. Qed.

Lemma logged_nil (s : state G) : logged s [] = s.
Proof. destruct s. unfold logged. cbn. rewrite app_nil_r. reflexivity. Qed.

Lemma count_png_app (l l' : list event) :
  count_png (l ++ l') = (count_png l + count_png l')%nat.
Proof. unfold count_png. rewrite filter_app, length_app. reflexivity. Qed.

Lemma count_png_frame (dir : string) (i j : nat) (l : ndarray) :
  count_png (frame_effects dir i j l) = 0%nat.
Proof. unfold frame_effects. destruct (j =? 0)%nat; reflexivity. Qed.

Lemma angles_app (l l' : list event) : angles (l ++ l') = (angles l ++ angles l')%list.
Proof.
  induction l as [|e l IH]; [reflexivity|].
  cbn [app angles]. destruct (azimuth e); rewrite IH; reflexivity.
Qed.

Lemma angles_frame (dir : string) (i j : nat) (l : ndarray) :
  angles (frame_effects dir i j l) = [].
Proof. unfold frame_effects. destruct (j =? 0)%nat; reflexivity. Qed.

Lemma decoded_app (l l' : list event) :
  decoded (l ++ l') = (decoded l ++ decoded l')%list.
Proof.
  induction l as [|e l IH]; [reflexivity|].
  cbn [app decoded]. destruct e; rewrite IH; reflexivity.
Qed.

Lemma decoded_frame (dir : string) (i j : nat) (l : ndarray) :
  decoded (frame_effects dir i j l) = [l].
Proof. unfold frame_effects. destruct (j =? 0)%nat; reflexivity. Qed.

(** *** The loop as the script has it *)

(** C3, what the script does.  The first pass of the loop decodes the
    first latent code and writes the HTML scene of shape 0; the call of
    [plot3] that follows passes the keywords [az] and [col], which the
    function defined in the script does not take, so the loop ends there
    with a [TypeError] and no PNG frame written. *)
Theorem interpolation_loop_raises (dir : string) (vis : list cloud)
        (latent color : list ndarray) (s : state G) :
  vis <> [] ->
  (2 <= List.length latent)%nat ->
  (2 <= List.length color)%nat ->
  2 <= Z.of_nat (n_steps_interp st) <= 2 ^ 53 ->
  Z.of_nat (List.length vis) * Z.of_nat (n_steps_interp st) < 2 ^ 53 ->
  exists s' lat_0 lat_1 l,
    index latent 0 = Ok lat_0
    /\ index latent 1 = Ok lat_1
    /\ shp_interp (latent_dtype w) lat_0 lat_1 0 (Z.of_nat (n_steps_interp st)) = Ok l
    /\ interpolation_loop G w st dir vis latent color s = (Raised TypeError, s')
    /\ log s' = (log s ++ [RunDecoder l; WriteHtml (html_name dir 0)])%list
    /\ count_png (log s') = count_png (log s).
Proof.
  intros Hvis Hlat Hcol HS HN.
  destruct vis as [|v vis']; [contradiction|].
  destruct (frame_run plot3_signature dir (v :: vis') latent color
              (S (List.length vis')) 0 0 0 s)
    as (lat_0 & lat_1 & l & col & a & H0 & H1 & Hl & _ & Hrun);
    cbn [List.length] in *; try lia.
  exists (logged s (frame_effects dir 0 0 l)), lat_0, lat_1, l.
  split; [exact H0|]. split; [exact H1|]. split; [exact Hl|]. split; [|split].
  - unfold interpolation_loop, interpolation_loop_with.
    destruct (n_steps_interp st) as [|k] eqn:Hk; [lia|].
    cbn [List.length seq for_each].
    apply bind_Raised_eq. apply bind_Raised_eq.
    rewrite Hrun. reflexivity.
  - reflexivity.
  - cbn [logged log]. rewrite count_png_app, count_png_frame. lia.
Qed.

(** *** The loop around a [plot3] that takes [az] and [col] *)

Section Accepting.

Context (sg : signature) (accepts : binds sg 2 ["az"; "col"] = true).
Context (dir : string) (vis : list cloud) (latent color : list ndarray).
Context (Hlatent : List.length latent = (List.length vis + 1)%nat).
Context (Hcolor : List.length color = (List.length vis + 1)%nat).
Context (Hsteps : 2 <= Z.of_nat (n_steps_interp st) <= 2 ^ 53).
Context (Hframes : Z.of_nat (List.length vis) * Z.of_nat (n_steps_interp st) < 2 ^ 53).

(** The steps [j0 .. j0+k-1] of shape [i]: one frame each, and the
    decoder is given the blends of rows [i] and [i+1] at these steps. *)
Lemma inner_loop_run (i : nat) :
  (i < List.length vis)%nat ->
  forall (k j0 cntr : nat) (s : state G),
    (j0 + k <= n_steps_interp st)%nat ->
    (cntr + k <= List.length vis * n_steps_interp st)%nat ->
    exists es,
      for_each G (seq j0 k)
        (fun cntr j => frame G w st sg dir vis latent color (List.length vis) i cntr j)
        cntr s
      = (Return (cntr + k)%nat, logged s es)
      /\ count_png es = k
      /\ List.length (decoded es) = k
      /\ forall c l, nth_error (decoded es) c = Some l ->
           exists lat_i lat_i1,
             index latent i = Ok lat_i
             /\ index latent (i + 1) = Ok lat_i1
             /\ shp_interp (latent_dtype w) lat_i lat_i1 (Z.of_nat (j0 + c))
                           (Z.of_nat (n_steps_interp st)) = Ok l.
Proof.
  intros Hi. induction k as [|k IH]; intros j0 cntr s Hj Hc.
  - exists []. cbn [seq for_each]. unfold ret. rewrite logged_nil, Nat.add_0_r.
    split; [reflexivity|]. split; [reflexivity|]. split; [reflexivity|].
    intros [|c] l H; discriminate H.
  - cbn [seq for_each].
    destruct (frame_run sg dir vis latent color (List.length vis) i cntr j0 s)
      as (li & li1 & l0 & col & a & Hli & Hli1 & Hl & _ & Hrun); try lia.
    rewrite accepts in Hrun.
    rewrite (bind_Return_eq _ _ s _ _ Hrun).
    match type of Hrun with _ = (_, logged s ?es0) => set (es1 := es0) in * end.
    destruct (IH (S j0) (S cntr) (logged s es1) ltac:(lia) ltac:(lia))
      as (es & Hrest & Hes & Hlen & Hcodes).
    exists (es1 ++ es)%list.
    rewrite Hrest, logged_logged.
    assert (Hdec : decoded (es1 ++ es) = l0 :: decoded es).
    { unfold es1. rewrite !decoded_app, decoded_frame. reflexivity. }
    split; [|split; [|split]].
    + f_equal. f_equal. lia.
    + unfold es1. rewrite !count_png_app, count_png_frame, Hes. reflexivity.
    + rewrite Hdec. cbn [List.length]. rewrite Hlen. reflexivity.
    + rewrite Hdec. intros [|c] l H.
      * injection H as <-. rewrite Nat.add_0_r. exists li, li1. repeat split; assumption.
      * cbn [nth_error] in H. destruct (Hcodes c l H) as (x & y & Hx & Hy & Hxy).
        exists x, y. replace (j0 + S c)%nat with (S j0 + c)%nat by lia.
        repeat split; assumption.
Qed.

(** The shapes [i0 .. i0+m-1]: the frame of counter [c] belongs to
    shape [c / n_steps_interp] and step [c mod n_steps_interp]. *)
Lemma outer_loop_run :
  forall (m i0 cntr : nat) (s : state G),
    (i0 + m <= List.length vis)%nat ->
    (cntr + m * n_steps_interp st <= List.length vis * n_steps_interp st)%nat ->
    exists es,
      for_each G (seq i0 m)
        (fun cntr i =>
           for_each G (seq 0 (n_steps_interp st))
             (fun cntr j =>
                frame G w st sg dir vis latent color (List.length vis) i cntr j)
             cntr)
        cntr s
      = (Return (cntr + m * n_steps_interp st)%nat, logged s es)
      /\ count_png es = (m * n_steps_interp st)%nat
      /\ List.length (decoded es) = (m * n_steps_interp st)%nat
      /\ forall c l, nth_error (decoded es) c = Some l ->
           exists lat_i lat_i1,
             index latent (i0 + c / n_steps_interp st) = Ok lat_i
             /\ index latent (i0 + c / n_steps_interp st + 1) = Ok lat_i1
             /\ shp_interp (latent_dtype w) lat_i lat_i1
                           (Z.of_nat (c mod n_steps_interp st))
                           (Z.of_nat (n_steps_interp st)) = Ok l.
Proof.
  induction m as [|m IH]; intros i0 cntr s Hi Hc.
  - exists []. cbn [seq for_each]. unfold ret. rewrite logged_nil.
    cbn [Nat.mul]. rewrite Nat.add_0_r.
    split; [reflexivity|]. split; [reflexivity|]. split; [reflexivity|].
    intros [|c] l H; discriminate H.
  - cbn [seq for_each].
    destruct (inner_loop_run i0 ltac:(lia) (n_steps_interp st) 0 cntr s
                ltac:(lia) ltac:(lia)) as (es1 & Hrun1 & Hes1 & Hlen1 & Hcodes1).
    rewrite (bind_Return_eq _ _ s _ _ Hrun1).
    destruct (IH (S i0) (cntr + n_steps_interp st)%nat (logged s es1)
                 ltac:(lia) ltac:(lia)) as (es2 & Hrun2 & Hes2 & Hlen2 & Hcodes2).
    exists (es1 ++ es2)%list. rewrite Hrun2, logged_logged.
    split; [|split; [|split]].
    + f_equal. f_equal. lia.
    + rewrite count_png_app, Hes1, Hes2. lia.
    + rewrite decoded_app, length_app, Hlen1, Hlen2. lia.
    + rewrite decoded_app. intros c l H.
      destruct (Nat.lt_ge_cases c (n_steps_interp st)) as [Hlt|Hge].
      * (* a step of shape [i0] *)
        rewrite nth_error_app1 in H by lia.
        destruct (Hcodes1 c l H) as (x & y & Hx & Hy & Hxy).
        exists x, y. rewrite Nat.div_small, Nat.mod_small, Nat.add_0_r by lia.
        repeat split; assumption.
      * (* a step of a later shape *)
        rewrite nth_error_app2, Hlen1 in H by lia.
        destruct (Hcodes2 _ l H) as (x & y & Hx & Hy & Hxy).
        exists x, y.
        assert (Hs : (0 < n_steps_interp st)%nat) by lia.
        assert (Hc' : c = (c - n_steps_interp st + 1 * n_steps_interp st)%nat) by lia.
        rewrite Hc'. rewrite Nat.div_add, Nat.Div0.mod_add by lia.
        replace (i0 + ((c - n_steps_interp st) / n_steps_interp st + 1))%nat
          with (S i0 + (c - n_steps_interp st) / n_steps_interp st)%nat by lia.
        repeat split; assumption.
Qed.

(** Every pass of the two loops writes one PNG frame:
    [n_shapes * n_steps_interp] frames in all, none left out and none
    written twice, and [cntr] ends at that number. *)
Lemma interpolation_loop_frames (s : state G) :
  exists es,
    interpolation_loop_with G w st sg dir vis latent color s
    = (Return (List.length vis * n_steps_interp st)%nat, logged s es)
    /\ count_png es = (List.length vis * n_steps_interp st)%nat.
Proof.
  unfold interpolation_loop_with.
  destruct (outer_loop_run (List.length vis) 0 0 s ltac:(lia) ltac:(lia))
    as (es & Hrun & Hes & _).
  exists es. split; assumption.
Qed.

(** The same run with what the decoder was given: the code of
    counter [c] is the blend of rows [c / n_steps_interp] and
    [c / n_steps_interp + 1] at step [c mod n_steps_interp]. *)
Lemma interpolation_loop_codes (s : state G) :
  exists es,
    interpolation_loop_with G w st sg dir vis latent color s
    = (Return (List.length vis * n_steps_interp st)%nat, logged s es)
    /\ List.length (decoded es) = (List.length vis * n_steps_interp st)%nat
    /\ forall c l, nth_error (decoded es) c = Some l ->
         exists lat_i lat_i1,
           index latent (c / n_steps_interp st) = Ok lat_i
           /\ index latent (c / n_steps_interp st + 1) = Ok lat_i1
           /\ shp_interp (latent_dtype w) lat_i lat_i1
                         (Z.of_nat (c mod n_steps_interp st))
                         (Z.of_nat (n_steps_interp st)) = Ok l.
Proof.
  unfold interpolation_loop_with.
  destruct (outer_loop_run (List.length vis) 0 0 s ltac:(lia) ltac:(lia))
    as (es & Hrun & _ & Hlen & Hcodes).
  exists es. split; [exact Hrun|]. split; [exact Hlen|]. exact Hcodes.
Qed.

End Accepting.

(** *** The loop, whatever [plot3] takes and the arrays hold *)

Lemma ramp_quiet (n c : nat) (es : list event) :
  count_png es = 0%nat -> angles es = [] -> ramp st n c es.
Proof. intros H1 H2. unfold ramp. rewrite H1, H2. constructor. Qed.

Lemma ramp_app (n c : nat) (es es' : list event) :
  ramp st n c es -> ramp st n (c + count_png es) es' -> ramp st n c (es ++ es').
Proof.
  unfold ramp. intros H1 H2. rewrite count_png_app, angles_app, seq_app.
  apply Forall2_app; assumption.
Qed.

Lemma bind_lift_Raise {A B : Type} (e : exn) (k : A -> M G B) (s : state G) :
  bind G (lift G (Raise e)) k s = (Raised e, s).
Proof. reflexivity. Qed.

(** A pass of the inner loop, however it ends: it renders at most
    one frame, with the azimuth of the counter it was given, and when it
    ends normally it has rendered one and counted it. *)
Lemma frame_ramp (sg : signature) (dir : string) (vis : list cloud)
      (latent color : list ndarray) (n_shapes i cntr j : nat) (s : state G) :
  exists es,
    snd (frame G w st sg dir vis latent color n_shapes i cntr j s) = logged s es
    /\ ramp st n_shapes cntr es
    /\ (count_png es <= 1)%nat
    /\ forall v, fst (frame G w st sg dir vis latent color n_shapes i cntr j s)
                 = Return v ->
                 v = (cntr + 1)%nat /\ count_png es = 1%nat.
Proof.
  assert (Hstop : forall (e : exn) (es : list event),
             count_png es = 0%nat -> angles es = [] ->
             exists es',
               snd (@Raised nat e, logged s es) = logged s es'
               /\ ramp st n_shapes cntr es'
               /\ (count_png es' <= 1)%nat
               /\ forall v, fst (@Raised nat e, logged s es) = Return v ->
                            v = (cntr + 1)%nat /\ count_png es' = 1%nat).
  { intros e es H1 H2. exists es. split; [reflexivity|].
    split; [apply ramp_quiet; assumption|]. split; [lia|]. intros v H. discriminate H. }
  assert (Hstop0 : forall e : exn,
             exists es',
               snd (@Raised nat e, s) = logged s es'
               /\ ramp st n_shapes cntr es'
               /\ (count_png es' <= 1)%nat
               /\ forall v, fst (@Raised nat e, s) = Return v ->
                            v = (cntr + 1)%nat /\ count_png es' = 1%nat).
  { intros e. pose proof (Hstop e [] eq_refl eq_refl) as H.
    rewrite logged_nil in H. exact H. }
  unfold frame. cbv zeta.
  destruct (index latent i) as [lat_i|e];
    [rewrite bind_lift_Ok|rewrite bind_lift_Raise; apply Hstop0].
  destruct (index latent (i + 1)) as [lat_i1|e];
    [rewrite bind_lift_Ok|rewrite bind_lift_Raise; apply Hstop0].
  destruct (shp_interp _ lat_i lat_i1 _ _) as [l|e];
    [rewrite bind_lift_Ok|rewrite bind_lift_Raise; apply Hstop0].
  destruct (index color i) as [col_i|e];
    [rewrite bind_lift_Ok|rewrite bind_lift_Raise; apply Hstop0].
  destruct (index color (i + 1)) as [col_i1|e];
    [rewrite bind_lift_Ok|rewrite bind_lift_Raise; apply Hstop0].
  destruct (col_interp col_i col_i1 _ _) as [col|e];
    [rewrite bind_lift_Ok|rewrite bind_lift_Raise; apply Hstop0].
  rewrite bind_emit.
  (* the HTML scene of the first step *)
  assert (Hrest : forall es : list event,
             count_png es = 0%nat -> angles es = [] ->
             exists es',
               snd (bind G (lift G (az (Z.of_nat cntr) (Z.of_nat n_shapes)
                                       (Z.of_nat (n_steps_interp st))))
                      (fun a =>
                         bind G (plot3 G sg (pc_name dir i j)
                                       [("az", Number a); ("col", Array col)])
                              (fun _ => ret G (S cntr)))
                      (logged s es)) = logged s es'
               /\ ramp st n_shapes cntr es'
               /\ (count_png es' <= 1)%nat
               /\ forall v,
                    fst (bind G (lift G (az (Z.of_nat cntr) (Z.of_nat n_shapes)
                                            (Z.of_nat (n_steps_interp st))))
                           (fun a =>
                              bind G (plot3 G sg (pc_name dir i j)
                                            [("az", Number a); ("col", Array col)])
                                   (fun _ => ret G (S cntr)))
                           (logged s es)) = Return v ->
                    v = (cntr + 1)%nat /\ count_png es' = 1%nat).
  { intros es H1 H2.
    destruct (az _ _ _) as [a|e] eqn:Ha;
      [rewrite bind_lift_Ok|rewrite bind_lift_Raise; apply Hstop; assumption].
    unfold plot3. cbn [map fst].
    destruct (binds sg 2 ["az"; "col"]).
    - rewrite bind_emit. unfold ret. cbn [fst snd]. rewrite logged_logged.
      exists (es ++ [WritePng (pc_name dir i j) [("az", Number a); ("col", Array col)]])%list.
      split; [reflexivity|].
      assert (Hcount : count_png
                         (es ++ [WritePng (pc_name dir i j)
                                          [("az", Number a); ("col", Array col)]])
                       = 1%nat)
        by (rewrite count_png_app, H1; reflexivity).
      split; [|split; [lia|]].
      + unfold ramp. rewrite Hcount, angles_app, H2. cbn.
        constructor; [exact Ha|constructor].
      + intros v H. injection H as <-. split; [lia|exact Hcount].
    - apply Hstop; assumption. }
  destruct (j =? 0)%nat.
  - rewrite bind_assoc.
    destruct (index vis i) as [shape|e];
      [rewrite bind_lift_Ok|rewrite bind_lift_Raise; apply Hstop; reflexivity].
    unfold PC_html. change (binds PC_html_signature 3 []) with true. cbv iota.
    rewrite bind_emit, logged_logged. apply Hrest; reflexivity.
  - rewrite bind_ret. apply Hrest; reflexivity.
Qed.

(** A loop whose passes render [d] frames each, with the azimuths of
    the counters from the one they are given: the frames of the loop have
    the azimuths of the counters from the one it is given, [d] for each
    pass when it ends normally and fewer when it does not. *)
Lemma for_each_ramp {A : Type} (n_shapes d : nat) (body : nat -> A -> M G nat) :
  (forall cntr x s, exists es,
      snd (body cntr x s) = logged s es
      /\ ramp st n_shapes cntr es
      /\ (count_png es <= d)%nat
      /\ forall v, fst (body cntr x s) = Return v ->
                   v = (cntr + d)%nat /\ count_png es = d) ->
  forall (l : list A) (cntr : nat) (s : state G),
    exists es,
      snd (for_each G l body cntr s) = logged s es
      /\ ramp st n_shapes cntr es
      /\ (count_png es <= List.length l * d)%nat
      /\ forall v, fst (for_each G l body cntr s) = Return v ->
                   v = (cntr + List.length l * d)%nat
                   /\ count_png es = (List.length l * d)%nat.
Proof.
  intros Hbody. induction l as [|x l IH]; intros cntr s.
  - exists []. cbn [for_each List.length Nat.mul]. unfold ret. cbn [fst snd].
    rewrite logged_nil. split; [reflexivity|].
    split; [apply ramp_quiet; reflexivity|]. split; [cbn; lia|].
    intros v H. injection H as <-. split; [lia|reflexivity].
  - cbn [for_each List.length].
    destruct (Hbody cntr x s) as (es1 & Hs1 & Hr1 & Hc1 & Hv1).
    unfold bind.
    destruct (body cntr x s) as [[v|e|] s1]; cbn [fst snd] in *; subst s1.
    + destruct (Hv1 v eq_refl) as [-> Hd].
      destruct (IH (cntr + d)%nat (logged s es1)) as (es2 & Hs2 & Hr2 & Hc2 & Hv2).
      exists (es1 ++ es2)%list. rewrite Hs2, logged_logged.
      split; [reflexivity|].
      split; [apply ramp_app; [exact Hr1|rewrite Hd; exact Hr2]|].
      rewrite count_png_app. split; [cbn [Nat.mul]; lia|].
      intros v' H. destruct (Hv2 v' H) as [-> Hd2]. cbn [Nat.mul]. split; lia.
    + exists es1. split; [reflexivity|]. split; [exact Hr1|].
      split; [cbn [Nat.mul]; lia|]. intros v H. discriminate H.
    + exists es1. split; [reflexivity|]. split; [exact Hr1|].
      split; [cbn [Nat.mul]; lia|]. intros v H. discriminate H.
Qed.

Lemma inner_loop_ramp (sg : signature) (dir : string) (vis : list cloud)
      (latent color : list ndarray) (i cntr : nat) (s : state G) :
  exists es,
    snd (for_each G (seq 0 (n_steps_interp st))
           (fun cntr j =>
              frame G w st sg dir vis latent color (List.length vis) i cntr j)
           cntr s) = logged s es
    /\ ramp st (List.length vis) cntr es
    /\ (count_png es <= n_steps_interp st)%nat
    /\ forall v,
         fst (for_each G (seq 0 (n_steps_interp st))
                (fun cntr j =>
                   frame G w st sg dir vis latent color (List.length vis) i cntr j)
                cntr s) = Return v ->
         v = (cntr + n_steps_interp st)%nat /\ count_png es = n_steps_interp st.
Proof.
  destruct (for_each_ramp (List.length vis) 1
              (fun cntr j =>
                 frame G w st sg dir vis latent color (List.length vis) i cntr j)
              (fun cntr j s => frame_ramp sg dir vis latent color _ i cntr j s)
              (seq 0 (n_steps_interp st)) cntr s)
    as (es & H1 & H2 & H3 & H4).
  rewrite length_seq, Nat.mul_1_r in H3, H4.
  exists es. split; [exact H1|]. split; [exact H2|]. split; [exact H3|exact H4].
Qed.

(** The two loops: the frames rendered, however the run ends, have
    the azimuths of the counters [0], [1], ... in rendering order; there
    are at most [n_shapes * n_steps_interp], and that many when the loops
    end normally. *)
Lemma interpolation_loop_ramp (sg : signature) (dir : string) (vis : list cloud)
      (latent color : list ndarray) (s : state G) :
  exists es,
    snd (interpolation_loop_with G w st sg dir vis latent color s) = logged s es
    /\ ramp st (List.length vis) 0 es
    /\ (count_png es <= List.length vis * n_steps_interp st)%nat
    /\ forall v, fst (interpolation_loop_with G w st sg dir vis latent color s)
                 = Return v ->
                 count_png es = (List.length vis * n_steps_interp st)%nat.
Proof.
  unfold interpolation_loop_with.
  destruct (for_each_ramp (List.length vis) (n_steps_interp st)
              (fun cntr i =>
                 for_each G (seq 0 (n_steps_interp st))
                   (fun cntr j =>
                      frame G w st sg dir vis latent color (List.length vis) i cntr j)
                   cntr)
              (fun cntr i s => inner_loop_ramp sg dir vis latent color i cntr s)
              (seq 0 (List.length vis)) 0%nat s)
    as (es & H1 & H2 & H3 & H4).
  rewrite length_seq in H3, H4.
  exists es. split; [exact H1|]. split; [exact H2|]. split; [exact H3|].
  intros v H. apply (H4 v H).
Qed.

End Frames.

Lemma interpolation_loop_raises_witness :
  exists s' lat_0 lat_1 l,
    index (repeat [of_Z float32 1; of_Z float32 2] 5) 0 = Ok lat_0
    /\ index (repeat [of_Z float32 1; of_Z float32 2] 5) 1 = Ok lat_1
    /\ shp_interp (latent_dtype Examples.small_world) lat_0 lat_1 0
                  (Z.of_nat (n_steps_interp Examples.two_two_five)) = Ok l
    /\ interpolation_loop counter_generators Examples.small_world Examples.two_two_five
         "d" (repeat [] 4) (repeat [of_Z float32 1; of_Z float32 2] 5)
         (repeat [zero; zero; lit_1_0] 5) Examples.start
       = (Raised TypeError, s')
    /\ log s' = (log Examples.start
                   ++ [RunDecoder l; WriteHtml (html_name "d" 0)])%list
    /\ count_png (log s') = count_png (log Examples.start).
Proof.
  apply (interpolation_loop_raises counter_generators Examples.small_world
           Examples.two_two_five "d" (repeat [] 4)).
  - discriminate.
  - cbn. lia.
  - cbn. lia.
  - cbn. lia.
  - cbn. lia.
Defined.

(** With two training shapes, two test shapes and five steps, a
    [plot3] that took the keywords would be called
    [(2+2)*5 = (2+2+1)*5 - 5 = 20] times: the shape appended at the end
    is only ever the target of an interpolation. *)
Example two_two_five_frames :
  exists es,
    interpolation_loop_with counter_generators Examples.small_world
      Examples.two_two_five Examples.plot3_with_az_col
      "d" (repeat [] 4) (repeat [of_Z float32 1; of_Z float32 2] 5)
      (repeat [zero; zero; lit_1_0] 5) Examples.start
    = (Return 20%nat, logged Examples.start es)
    /\ count_png es = ((2 + 2 + 1) * 5 - 5)%nat.
Proof.
  apply (interpolation_loop_frames counter_generators Examples.small_world
           Examples.two_two_five Examples.plot3_with_az_col eq_refl
           "d" (repeat [] 4)); cbn; lia.
Qed.

(** The whole script on the small world: it ends with the [TypeError]
    of the first call of [plot3], one HTML scene written and no PNG. *)
Example small_world_run :
  let r := main counter_generators Examples.small_world Examples.two_two_five
             Examples.start in
  fst r = Raised TypeError
  /\ count_png (log (snd r)) = 0%nat
  /\ count_html (log (snd r)) = 1%nat.
Proof. vm_compute. repeat split; reflexivity. Qed.

End Loop.

(* ================================================================== *)
(** ** The azimuths of the frames of the loop *)

Module Sweep.

Import IEEE Py Frame Rng Script Rounding Rounding_facts Azimuth Loop.
Local Open Scope string_scope.

Lemma Forall2_seq_nth {A : Type} (R : nat -> A -> Prop) (l : list A) (n : nat) :
  forall c k a,
    Forall2 R (seq c n) l -> nth_error l k = Some a -> (k < n)%nat /\ R (c + k)%nat a.
Proof.
  revert l. induction n as [|n IH]; intros l c k a H Hk.
  - inversion H; subst. destruct k; discriminate Hk.
  - cbn [seq] in H. inversion H as [|x y lx ly Hxy Hrest]; subst.
    destruct k as [|k].
    + injection Hk as <-. rewrite Nat.add_0_r. split; [lia|exact Hxy].
    + cbn [nth_error] in Hk. destruct (IH ly (S c) k a Hrest Hk) as [Hlt HR].
      split; [lia|]. replace (c + S k)%nat with (S c + k)%nat by lia. exact HR.
Qed.


Section Frames.

Context (G : generators) (w : world) (st : settings).

(** The frame of number [k] in rendering order has the azimuth of the
    counter [k]. *)
Lemma ramp_nth (n_shapes : nat) (es : list event) (k : nat) (a : float) :
  ramp st n_shapes 0 es ->
  nth_error (angles es) k = Some a ->
  (k < count_png es)%nat
  /\ az (Z.of_nat k) (Z.of_nat n_shapes) (Z.of_nat (n_steps_interp st)) = Ok a.
Proof.
  intros Hramp Hk.
  exact (Forall2_seq_nth _ _ _ 0%nat k a Hramp Hk).
Qed.

(** With a [plot3] that takes the keywords and arrays of the right
    lengths the loops end normally. *)
Lemma interpolation_loop_returns (sg : signature) (dir : string) (vis : list cloud)
      (latent color : list ndarray) (s : state G) :
  Z.of_nat (List.length vis) * Z.of_nat (n_steps_interp st) < 2 ^ 53 ->
  binds sg 2 ["az"; "col"] = true ->
  List.length latent = (List.length vis + 1)%nat ->
  List.length color = (List.length vis + 1)%nat ->
  (2 <= n_steps_interp st)%nat ->
  vis <> [] ->
  exists v, fst (interpolation_loop_with G w st sg dir vis latent color s) = Return v.
Proof.
  intros Hn Hsg Hlat Hcol HS Hvis.
  assert (Hpos : (0 < List.length vis)%nat)
    by (destruct vis; [contradiction|cbn; lia]).
  destruct (interpolation_loop_frames G w st sg Hsg dir vis latent color Hlat Hcol
              ltac:(nia) Hn s) as (es & Hrun & _).
  rewrite Hrun. eexists. reflexivity.
Qed.

(** The frames of the loops, however the run ends: the azimuths of
    the counters [0], [1], ... and, with a [plot3] that takes the
    keywords, one frame for each pass. *)
Lemma loop_frames (sg : signature) (dir : string) (vis : list cloud)
      (latent color : list ndarray) (s : state G) :
  Z.of_nat (List.length vis) * Z.of_nat (n_steps_interp st) < 2 ^ 53 ->
  exists es,
    snd (interpolation_loop_with G w st sg dir vis latent color s) = logged s es
    /\ ramp st (List.length vis) 0 es
    /\ (count_png es <= List.length vis * n_steps_interp st)%nat
    /\ (binds sg 2 ["az"; "col"] = true ->
        List.length latent = (List.length vis + 1)%nat ->
        List.length color = (List.length vis + 1)%nat ->
        (2 <= n_steps_interp st)%nat ->
        count_png es = (List.length vis * n_steps_interp st)%nat).
Proof.
  intros Hn.
  destruct (interpolation_loop_ramp G w st sg dir vis latent color s)
    as (es & Hs & Hramp & Hle & Hret).
  exists es. split; [exact Hs|]. split; [exact Hramp|]. split; [exact Hle|].
  intros Hsg Hlat Hcol HS.
  destruct vis as [|v vis'] eqn:Hvis.
  - cbn [List.length Nat.mul] in Hle |- *. lia.
  - rewrite <- Hvis in *.
    destruct (interpolation_loop_returns sg dir vis latent color s Hn Hsg Hlat Hcol HS
                ltac:(rewrite Hvis; discriminate)) as (v0 & Hv0).
    exact (Hret v0 Hv0).
Qed.

(** C8.  The frames the loops render, in rendering order, have the
    azimuths of the counters [0], [1], [2], ...: one counter runs over
    both loops and gives every frame its number.  These azimuths never
    decrease, whatever [plot3] takes, whatever the arrays hold and
    however the run ends; with a [plot3] that takes [az] and [col] there
    is one frame for each of the [n_shapes * n_steps_interp] passes. *)
Theorem azimuth_nondecreasing (sg : signature) (dir : string) (vis : list cloud)
        (latent color : list ndarray) (s : state G) :
  Z.of_nat (List.length vis) * Z.of_nat (n_steps_interp st) < 2 ^ 53 ->
  exists es,
    snd (interpolation_loop_with G w st sg dir vis latent color s) = logged s es
    /\ ramp st (List.length vis) 0 es
    /\ Spec.nondecreasing (angles es)
    /\ (binds sg 2 ["az"; "col"] = true ->
        List.length latent = (List.length vis + 1)%nat ->
        List.length color = (List.length vis + 1)%nat ->
        (2 <= n_steps_interp st)%nat ->
        count_png es = (List.length vis * n_steps_interp st)%nat).
Proof.
  intros Hn.
  destruct (loop_frames sg dir vis latent color s Hn) as (es & Hs & Hramp & Hle & Hall).
  exists es. split; [exact Hs|]. split; [exact Hramp|]. split; [|exact Hall].
  intros k k' a a' Hkk Hk Hk'.
  destruct (ramp_nth _ _ _ _ Hramp Hk) as [_ Ha].
  destruct (ramp_nth _ _ _ _ Hramp Hk') as [Hlt' Ha'].
  destruct (az_monotone (Z.of_nat (List.length vis)) (Z.of_nat (n_steps_interp st))
              (Z.of_nat k) (Z.of_nat k') Hn ltac:(lia) ltac:(lia) ltac:(nia))
    as (a1 & a2 & H1 & H2 & Hleb).
  rewrite Ha in H1. rewrite Ha' in H2. injection H1 as <-. injection H2 as <-.
  exact Hleb.
Qed.


End Frames.

Lemma azimuth_nondecreasing_witness :
  exists es,
    snd (interpolation_loop_with counter_generators Examples.small_world
           Examples.two_two_five Examples.plot3_with_az_col "d" (repeat [] 4)
           (repeat [of_Z float32 1; of_Z float32 2] 5)
           (repeat [zero; zero; lit_1_0] 5) Examples.start)
    = logged Examples.start es
    /\ ramp Examples.two_two_five 4 0 es
    /\ Spec.nondecreasing (angles es)
    /\ (binds Examples.plot3_with_az_col 2 ["az"; "col"] = true ->
        List.length (repeat [of_Z float32 1; of_Z float32 2] 5) = (4 + 1)%nat ->
        List.length (repeat [zero; zero; lit_1_0] 5) = (4 + 1)%nat ->
        (2 <= n_steps_interp Examples.two_two_five)%nat ->
        count_png es = (4 * n_steps_interp Examples.two_two_five)%nat).
Proof.
  apply (azimuth_nondecreasing counter_generators Examples.small_world
           Examples.two_two_five Examples.plot3_with_az_col "d" (repeat [] 4)).
  cbn. lia.
Defined.



End Sweep.

(* ================================================================== *)
(** ** The weights of the interpolation *)

Module Weights.

Import IEEE Py Frame Rng Script Rounding IEEE_facts Py_facts Frame_facts Rounding_facts.

(** The weight of a step: [0.0] at the first, [1.0] at the last, and
    in between the float nearest to [j/(S-1)], which is below one. *)
Lemma step_fraction_cases (j S : Z) :
  2 <= S <= 2 ^ 53 -> 0 <= j < S ->
  exists x, step_fraction j S = Ok x
    /\ ((j = 0 /\ x = zero)
        \/ (j = S - 1 /\ x = lit_1_0)
        \/ (0 < j < S - 1
            /\ exists m e, x = S754_finite false m e
                 /\ -105 <= e <= -53
                 /\ rounds_to j (S - 1) (S754_finite false m e))).
Proof.
  intros HS Hj. rewrite (step_fraction_spec j S HS Hj).
  exists (Spec.fraction j S). split; [reflexivity|].
  destruct (Z.eq_dec j 0) as [->|Hpos].
  - left. split; [reflexivity|]. apply fraction_first. exact HS.
  - destruct (Z.eq_dec j (S - 1)) as [->|Hlast].
    + right. left. split; [reflexivity|]. apply fraction_last. exact HS.
    + right. right. split; [lia|].
      destruct (quotient_value j (S - 1) ltac:(lia) ltac:(lia))
        as (m & e & Hq & _ & He & Hr).
      exists m, e. unfold Spec.fraction. rewrite Hq.
      split; [reflexivity|]. split; assumption.
Qed.

(** Lines 364-371.  The weight [np.float(j)/(n_steps_interp-1)] of the
    second shape is a float between [0.0] and [1.0], and it never
    decreases from one step to the next. *)
Theorem step_fraction_unit_interval (j j' S : Z) :
  2 <= S <= 2 ^ 53 -> 0 <= j -> j <= j' -> j' < S ->
  exists x x',
    step_fraction j S = Ok x /\ step_fraction j' S = Ok x'
    /\ leb zero x = true /\ leb x x' = true /\ leb x' lit_1_0 = true.
Proof.
  intros HS Hj Hjj Hj'.
  destruct (step_fraction_cases j S HS ltac:(lia)) as (x & Hx & Hc).
  destruct (step_fraction_cases j' S HS ltac:(lia)) as (x' & Hx' & Hc').
  exists x, x'. split; [exact Hx|]. split; [exact Hx'|].
  destruct Hc as [[H0 ->]|[[H1 ->]|(Hin & m & e & -> & He & Hr)]];
    destruct Hc' as [[H0' ->]|[[H1' ->]|(Hin' & m' & e' & -> & He' & Hr')]];
    try lia; repeat split; try reflexivity;
    try (apply leb_finite; lia).
  apply (rounds_to_monotone j (S - 1) j' (S - 1)); try assumption; try lia.
  apply Z.mul_le_mono_nonneg_r; lia.
Qed.

Lemma step_fraction_unit_interval_witness :
  exists x x',
    step_fraction 1 5 = Ok x /\ step_fraction 3 5 = Ok x'
    /\ leb zero x = true /\ leb x x' = true /\ leb x' lit_1_0 = true.
Proof. apply (step_fraction_unit_interval 1 3 5); cbn; lia. Defined.

Section Single.

Context (G : generators) (w : world) (st : settings).

(** Lines 364-366 with [n_steps_interp = 1].  The weight divides by
    [n_steps_interp - 1 = 0]: the first pass of the loop raises
    [ZeroDivisionError] before the decoder runs or a file is written,
    whatever [plot3] accepts. *)
Theorem single_step_raises (sg : signature) (dir : string) (vis : list cloud)
        (latent color : list ndarray) (s : state G) :
  n_steps_interp st = 1%nat ->
  vis <> [] ->
  (2 <= List.length latent)%nat ->
  interpolation_loop_with G w st sg dir vis latent color s
  = (Raised ZeroDivisionError, s).
Proof.
  intros Hsteps Hvis Hlat.
  destruct vis as [|v vis']; [contradiction|].
  destruct (Sampling.index_lt latent 0 ltac:(lia)) as (l0 & Hl0).
  destruct (Sampling.index_lt latent (0 + 1) ltac:(lia)) as (l1 & Hl1).
  unfold interpolation_loop_with. rewrite Hsteps.
  cbn [List.length seq for_each].
  apply Loop.bind_Raised_eq. apply Loop.bind_Raised_eq.
  unfold frame. rewrite Hsteps.
  rewrite Hl0, Loop.bind_lift_Ok. rewrite Hl1, Loop.bind_lift_Ok.
  reflexivity.
Qed.

End Single.

Lemma single_step_raises_witness :
  interpolation_loop_with counter_generators Examples.small_world
    {| n_shapes_trainingset := 2; n_shapes_testset := 2; n_steps_interp := 1 |}
    plot3_signature "d" (repeat [] 4) (repeat [of_Z float32 1; of_Z float32 2] 5)
    (repeat [zero; zero; lit_1_0] 5) Examples.start
  = (Raised ZeroDivisionError, Examples.start).
Proof.
  apply (single_step_raises counter_generators Examples.small_world _
           plot3_signature "d" (repeat [] 4)).
  - reflexivity.
  - discriminate.
  - cbn. lia.
Defined.

End Weights.

(* ================================================================== *)
(** ** Loading the shapes: what is read, drawn and stored *)

Module Loading.

Import IEEE Py Rng Script Sampling Loop.
Local Open Scope nat_scope.

(** *** Arrays *)

Lemma index_app {A : Type} (pre post : list A) (a : A) :
  index (pre ++ a :: post) (List.length pre) = Ok a.
Proof.
  unfold index. rewrite nth_error_app2 by lia. rewrite Nat.sub_diag. reflexivity.
Qed.

Lemma assign_app {A : Type} (pre post : list A) (a v : A) :
  assign (pre ++ a :: post) (List.length pre) v = Ok (pre ++ v :: post).
Proof.
  induction pre as [|p pre IH]; cbn [app List.length assign].
  - reflexivity.
  - rewrite IH. reflexivity.
Qed.

(** An assignment that succeeds replaces one element. *)
Lemma assign_app_inv {A : Type} (pre rest l' : list A) (v : A) :
  assign (pre ++ rest) (List.length pre) v = Ok l' ->
  exists a rest', rest = a :: rest' /\ l' = pre ++ v :: rest'.
Proof.
  destruct rest as [|a rest'].
  - rewrite app_nil_r. intros H. exfalso. revert l' H.
    induction pre as [|p pre IH]; intros l' H; cbn [List.length assign] in H.
    + discriminate.
    + destruct (assign pre (List.length pre) v) as [r|] eqn:Hr; [|discriminate].
      exact (IH r eq_refl).
  - rewrite assign_app. intros H. injection H as <-. exists a, rest'. split; reflexivity.
Qed.

Lemma assign_nth {A : Type} (l l' : list A) (k : nat) (v : A) :
  assign l k v = Ok l' -> nth_error l' k = Some v.
Proof.
  revert k l'. induction l as [|a l IH]; intros k l' H; [discriminate|].
  destruct k as [|k]; cbn [assign] in H.
  - injection H as <-. reflexivity.
  - destruct (assign l k v) as [r|] eqn:Hr; [|discriminate].
    cbn in H. injection H as <-. cbn [nth_error]. exact (IH k r Hr).
Qed.

(** Assigning to a slot the value it holds changes nothing. *)
Lemma assign_same {A : Type} (l : list A) (k : nat) (v : A) :
  nth_error l k = Some v -> assign l k v = Ok l.
Proof.
  revert k. induction l as [|a l IH]; intros k H.
  - destruct k; discriminate.
  - destruct k as [|k]; cbn [nth_error] in H; cbn [assign].
    + injection H as ->. reflexivity.
    + rewrite (IH k H). reflexivity.
Qed.

Lemma combine_app {A B : Type} (l1 l2 : list A) (m1 m2 : list B) :
  List.length l1 = List.length m1 ->
  combine (l1 ++ l2) (m1 ++ m2) = (combine l1 m1 ++ combine l2 m2)%list.
Proof.
  revert m1. induction l1 as [|a l1 IH]; intros [|b m1] H; try discriminate.
  - reflexivity.
  - cbn. rewrite IH by (cbn in H; lia). reflexivity.
Qed.

Section Generator.

Context (G : generators).

(** *** One call of [np.random.choice] *)

Lemma np_random_choice_short (pop size : nat) (s : state G) :
  pop < size -> np_random_choice G pop size false s = (Raised ValueError, s).
Proof.
  intros H. unfold np_random_choice.
  destruct ((pop =? 0) && negb (size =? 0)); [reflexivity|].
  replace (pop <? size) with true by (symmetry; apply Nat.ltb_lt; exact H).
  reflexivity.
Qed.

Lemma np_random_choice_Return (pop size : nat) (replace : bool)
      (s s' : state G) (idx : list nat) :
  np_random_choice G pop size replace s = (Return idx, s') ->
  idx = fst (np_draw G (np_rng s) pop size replace)
  /\ draws s' = (draws s ++ [{| population := pop; sample_size := size;
                                with_replacement := replace; drawn := idx |}])%list
  /\ log s' = log s.
Proof.
  unfold np_random_choice.
  destruct ((pop =? 0) && negb (size =? 0)); [discriminate|].
  destruct (negb replace && (pop <? size)); [discriminate|].
  destruct (np_draw G (np_rng s) pop size replace) as [i r].
  intros H. injection H as <- <-. cbn. repeat split.
Qed.

(** The call ends with the indices or with [ValueError], and then
    leaves the state as it was. *)
Lemma np_random_choice_outcome (pop size : nat) (replace : bool) (s : state G) :
  np_random_choice G pop size replace s = (Raised ValueError, s)
  \/ exists idx s', np_random_choice G pop size replace s = (Return idx, s').
Proof.
  unfold np_random_choice.
  destruct ((pop =? 0) && negb (size =? 0)); [left; reflexivity|].
  destruct (negb replace && (pop <? size)); [left; reflexivity|].
  destruct (np_draw G (np_rng s) pop size replace) as [i r].
  right. eexists _, _. reflexivity.
Qed.

Context (w : world).

(** *** Selection (lines 258-264) *)

(** Lines 258-264.  When one of the two lists of geometries has fewer
    entries than the number of shapes to select from it, the selection
    without replacement raises [ValueError], and no point cloud has been
    read. *)
Theorem too_few_geometries (st : settings)
        (geom_training geom_testing : list string) (pc_size : nat) (s : state G) :
  List.length geom_training < n_shapes_trainingset st
  \/ List.length geom_testing < n_shapes_testset st ->
  exists s', load_shapes G w st geom_training geom_testing pc_size s
             = (Raised ValueError, s')
             /\ log s' = log s.
Proof.
  intros H. unfold load_shapes.
  destruct (np_random_choice_outcome (List.length geom_training)
              (n_shapes_trainingset st) false s) as [H1|(sel & s1 & H1)].
  - exists s. split; [|reflexivity]. apply bind_Raised_eq. exact H1.
  - destruct H as [H|H].
    + rewrite (np_random_choice_short _ _ s H) in H1. discriminate.
    + exists s1. split.
      * rewrite (bind_Return_eq G _ _ s s1 sel H1).
        apply bind_Raised_eq. apply np_random_choice_short. exact H.
      * apply np_random_choice_Return in H1. apply H1.
Qed.

(** *** One shape *)

Lemma read_points_Return (name : string) (s s' : state G) (pts : cloud) :
  read_points G w name s = (Return pts, s') ->
  csv_points w name = Some pts /\ s' = logged s [ReadCsv name].
Proof.
  unfold read_points. rewrite bind_emit.
  destruct (csv_points w name) as [l|]; cbn; intros H; [|discriminate].
  injection H as <- <-. split; reflexivity.
Qed.

Lemma resample_Return (pts : cloud) (pc_size : nat) (s s' : state G) (idx : list nat) :
  resample G pts pc_size s = (Return idx, s') ->
  draws s' = (draws s ++ [{| population := List.length pts; sample_size := pc_size;
                              with_replacement := (List.length pts <? pc_size);
                              drawn := idx |}])%list
  /\ log s' = log s.
Proof.
  unfold resample. destruct (List.length pts <? pc_size); intros H;
    apply np_random_choice_Return in H; split; apply H.
Qed.

(** What one pass of a loading loop has done when it ends. *)
Lemma load_shape_Return (geom : list string) (pc_size component : nat)
      (v v' : loading) (i : nat) (s s' : state G) :
  load_shape G w geom pc_size component v i s = (Return v', s') ->
  exists name pts idx rows,
    index geom i = Ok name
    /\ csv_points w name = Some pts
    /\ log s' = (log s ++ [ReadCsv name])%list
    /\ draws s' = (draws s ++ [{| population := List.length pts;
                                  sample_size := pc_size;
                                  with_replacement := (List.length pts <? pc_size);
                                  drawn := idx |}])%list
    /\ take_rows pts idx = Ok rows
    /\ set_color (color_shape v) (cntr v) component = Ok (color_shape v')
    /\ set_rows (vis_set v) pc_size (cntr v) rows = Ok (vis_set v')
    /\ log_reconst v' = (log_reconst v ++ [name])%list
    /\ cntr v' = S (cntr v)
    /\ pc_load v' = Some pts
    /\ pc_sample v' = Some idx
    /\ i_sel_training v' = i_sel_training v
    /\ i_sel_testing v' = i_sel_testing v.
Proof.
  intros H. unfold load_shape in H.
  apply bind_Return in H. destruct H as (name & s1 & Hname & H).
  apply bind_Return in H. destruct H as (pts & s2 & Hpts & H).
  apply bind_Return in H. destruct H as (idx & s3 & Hidx & H).
  apply bind_Return in H. destruct H as (colors & s4 & Hcolors & H).
  apply bind_Return in H. destruct H as (rows & s5 & Hrows & H).
  apply bind_Return in H. destruct H as (vis & s6 & Hvis & H).
  apply ret_Return in H. destruct H as [-> ->].
  apply lift_Return in Hname. destruct Hname as [Hname ->].
  apply read_points_Return in Hpts. destruct Hpts as [Hpts ->].
  apply resample_Return in Hidx. destruct Hidx as [Hdraws Hlog].
  apply lift_Return in Hcolors. destruct Hcolors as [Hcolors ->].
  apply lift_Return in Hrows. destruct Hrows as [Hrows ->].
  apply lift_Return in Hvis. destruct Hvis as [Hvis ->].
  exists name, pts, idx, rows. cbn.
  repeat split; try assumption.
Qed.

(** *** The names and the files *)

Lemma load_loop_names (geom : list string) (pc_size component : nat) :
  forall (l : list nat) (v v' : loading) (s s' : state G),
    for_each G l (load_shape G w geom pc_size component) v s = (Return v', s') ->
    exists names,
      Forall2 (fun i name => index geom i = Ok name) l names
      /\ log_reconst v' = (log_reconst v ++ names)%list
      /\ log s' = (log s ++ map ReadCsv names)%list
      /\ i_sel_training v' = i_sel_training v
      /\ i_sel_testing v' = i_sel_testing v.
Proof.
  induction l as [|i l IH]; intros v v' s s' H.
  - cbn in H. apply ret_Return in H. destruct H as [-> ->].
    exists []. cbn. rewrite !app_nil_r. repeat split. constructor.
  - cbn [for_each] in H. apply bind_Return in H. destruct H as (v1 & s1 & H1 & H).
    apply load_shape_Return in H1.
    destruct H1 as (name & pts & idx & rows & Hname & _ & Hlog & _ & _ & _ & _
                    & Hrec & _ & _ & _ & Htr & Hte).
    destruct (IH v1 v' s1 s' H) as (names & Hall & Hrec' & Hlog' & Htr' & Hte').
    exists (name :: names). split; [constructor; assumption|].
    rewrite Hrec', Hrec, Hlog', Hlog. cbn [map]. rewrite <- !app_assoc. cbn [app].
    repeat split; congruence.
Qed.

(** The state a computation that only binds results leaves. *)
Lemma bound_Return {A : Type} (o : option A) (a : A) (s s' : state G) :
  bound G o s = (Return a, s') -> o = Some a /\ s' = s.
Proof.
  destruct o as [b|]; cbn; intros H; [|discriminate].
  injection H as <- <-. split; reflexivity.
Qed.

(** The names logged by the two loops and the files they read. *)
Lemma load_shapes_names (st : settings) (geom_training geom_testing : list string)
      (pc_size : nat) (v : loading) (s s' : state G) :
  load_shapes G w st geom_training geom_testing pc_size s = (Return v, s') ->
  exists names_training names_testing,
    log_reconst v = (names_training ++ names_testing)%list
    /\ Forall2 (fun i name => index geom_training i = Ok name)
               (i_sel_training v) names_training
    /\ Forall2 (fun i name => index geom_testing i = Ok name)
               (i_sel_testing v) names_testing
    /\ log s' = (log s ++ map ReadCsv (log_reconst v))%list.
Proof.
  intros H. unfold load_shapes in H.
  apply bind_Return in H. destruct H as (sel1 & s1 & Hsel1 & H).
  apply bind_Return in H. destruct H as (sel2 & s2 & Hsel2 & H).
  apply bind_Return in H. destruct H as (v1 & s3 & Hv1 & H).
  apply bind_Return in H. destruct H as (v2 & s4 & Hv2 & H).
  apply bind_Return in H. destruct H as (pts & s5 & Hpts & H).
  apply bind_Return in H. destruct H as (idx & s6 & Hidx & H).
  apply bind_Return in H. destruct H as (rows & s7 & Hrows & H).
  apply bind_Return in H. destruct H as (vis & s8 & Hvis & H).
  apply bind_Return in H. destruct H as (colors & s9 & Hcolors & H).
  apply ret_Return in H. destruct H as [-> ->].
  apply np_random_choice_Return in Hsel1. destruct Hsel1 as (_ & _ & Hlog1).
  apply np_random_choice_Return in Hsel2. destruct Hsel2 as (_ & _ & Hlog2).
  apply load_loop_names in Hv1. destruct Hv1 as (n1 & Hall1 & Hrec1 & Hl1 & _ & _).
  apply load_loop_names in Hv2. destruct Hv2 as (n2 & Hall2 & Hrec2 & Hl2 & _ & _).
  apply bound_Return in Hpts. destruct Hpts as [_ ->].
  apply bound_Return in Hidx. destruct Hidx as [_ ->].
  apply lift_Return in Hrows. destruct Hrows as [_ ->].
  apply lift_Return in Hvis. destruct Hvis as [_ ->].
  apply lift_Return in Hcolors. destruct Hcolors as [_ ->].
  cbn [log_reconst i_sel_training i_sel_testing] in *.
  exists n1, n2. rewrite Hrec2, Hrec1. cbn [app].
  split; [reflexivity|]. split; [exact Hall1|]. split; [exact Hall2|].
  rewrite Hl2, Hl1, Hlog2, Hlog1, map_app, app_assoc. reflexivity.
Qed.

(** Lines 273-302.  When the loading ends, [log_reconst] holds the names
    of the selected training geometries followed by those of the
    selected test geometries, in the order they were drawn, and the
    point files read are exactly these, in that order. *)
Theorem loading_reads (st : settings) (geom_training geom_testing : list string)
        (pc_size : nat) (v : loading) (s s' : state G) :
  load_shapes G w st geom_training geom_testing pc_size s = (Return v, s') ->
  exists names_training names_testing,
    log_reconst v = (names_training ++ names_testing)%list
    /\ Forall2 (fun i name => index geom_training i = Ok name)
               (i_sel_training v) names_training
    /\ Forall2 (fun i name => index geom_testing i = Ok name)
               (i_sel_testing v) names_testing
    /\ log s' = (log s ++ map ReadCsv (log_reconst v))%list.
Proof.
  intros H. destruct (load_shapes_names st _ _ _ _ _ _ H)
    as (names_training & names_testing & Hnames & Htraining & Htesting & Hlog).
  exists names_training, names_testing.
  split; [exact Hnames|]. split; [exact Htraining|]. split; [exact Htesting|exact Hlog].
Qed.

(** *** The colors *)

Lemma set_color_fresh (pre post : list ndarray) (row lab : ndarray) (c : nat) :
  assign row c lit_1_0 = Ok lab ->
  set_color (pre ++ row :: post) (List.length pre) c = Ok (pre ++ lab :: post).
Proof.
  intros H. unfold set_color. rewrite index_app. cbn [rbind]. rewrite H.
  cbn [rbind]. apply assign_app.
Qed.

Lemma load_loop_colors (geom : list string) (pc_size component : nat) (lab : ndarray) :
  assign [zero; zero; zero] component lit_1_0 = Ok lab ->
  forall (l : list nat) (v v' : loading) (s s' : state G) (pre post : list ndarray),
    for_each G l (load_shape G w geom pc_size component) v s = (Return v', s') ->
    color_shape v = (pre ++ repeat [zero; zero; zero] (List.length l) ++ post)%list ->
    List.length pre = cntr v ->
    color_shape v' = (pre ++ repeat lab (List.length l) ++ post)%list
    /\ cntr v' = cntr v + List.length l.
Proof.
  intros Hlab. induction l as [|i l IH]; intros v v' s s' pre post H Hcol Hpre.
  - cbn in H. apply ret_Return in H. destruct H as [-> ->].
    cbn in *. split; [exact Hcol|lia].
  - cbn [for_each] in H. apply bind_Return in H. destruct H as (v1 & s1 & H1 & H).
    apply load_shape_Return in H1.
    destruct H1 as (name & pts & idx & rows & _ & _ & _ & _ & _ & Hset & _ & _
                    & Hcntr & _).
    cbn [List.length repeat app] in Hcol. rewrite Hcol, <- Hpre in Hset.
    rewrite (set_color_fresh pre _ _ lab component Hlab) in Hset.
    injection Hset as Hset.
    destruct (IH v1 v' s1 s' (pre ++ [lab])%list post H) as [Hc Hn].
    + rewrite <- Hset, <- app_assoc. reflexivity.
    + rewrite length_app. cbn. lia.
    + split; [|cbn [List.length]; lia].
      rewrite Hc, <- app_assoc. reflexivity.
Qed.

Context (contract : numpy_contract G).

Lemma np_random_choice_length (pop size : nat) (replace : bool)
      (s s' : state G) (idx : list nat) :
  np_random_choice G pop size replace s = (Return idx, s') ->
  List.length idx = size.
Proof.
  intros H. apply np_random_choice_Return in H. destruct H as (-> & _).
  apply (draw_length G contract).
Qed.

(** Lines 271, 286, 300 and 304.  When the loading ends, [color_shape] holds
    the label [[0, 0, 1]] (blue) for every training shape, then
    [[1, 0, 0]] (red) for every test shape, and [[0, 0, 1]] in the
    additional last row. *)
Theorem color_scheme (st : settings) (geom_training geom_testing : list string)
        (pc_size : nat) (v : loading) (s s' : state G) :
  load_shapes G w st geom_training geom_testing pc_size s = (Return v, s') ->
  color_shape v
  = (repeat [zero; zero; lit_1_0] (n_shapes_trainingset st)
       ++ repeat [lit_1_0; zero; zero] (n_shapes_testset st)
       ++ [[zero; zero; lit_1_0]])%list.
Proof.
  intros H. unfold load_shapes in H.
  apply bind_Return in H. destruct H as (sel1 & s1 & Hsel1 & H).
  apply bind_Return in H. destruct H as (sel2 & s2 & Hsel2 & H).
  apply bind_Return in H. destruct H as (v1 & s3 & Hv1 & H).
  apply bind_Return in H. destruct H as (v2 & s4 & Hv2 & H).
  apply bind_Return in H. destruct H as (pts & s5 & _ & H).
  apply bind_Return in H. destruct H as (idx & s6 & _ & H).
  apply bind_Return in H. destruct H as (rows & s7 & _ & H).
  apply bind_Return in H. destruct H as (vis & s8 & _ & H).
  apply bind_Return in H. destruct H as (colors & s9 & Hcolors & H).
  apply ret_Return in H. destruct H as [-> _]. cbn [color_shape].
  apply np_random_choice_length in Hsel1. apply np_random_choice_length in Hsel2.
  set (n1 := n_shapes_trainingset st) in *. set (n2 := n_shapes_testset st) in *.
  destruct (load_loop_colors geom_training pc_size 2 [zero; zero; lit_1_0] eq_refl
              sel1 _ v1 _ _ [] (repeat [zero; zero; zero] (n2 + 1)) Hv1) as [Hc1 Hn1].
  { cbn [color_shape app]. rewrite Hsel1, <- repeat_app. f_equal. lia. }
  { reflexivity. }
  cbn [cntr app] in Hc1, Hn1.
  destruct (load_loop_colors geom_testing pc_size 0 [lit_1_0; zero; zero] eq_refl
              sel2 v1 v2 _ _ (repeat [zero; zero; lit_1_0] n1)
              [[zero; zero; zero]] Hv2) as [Hc2 Hn2].
  { rewrite Hc1, Hsel1, Hsel2, repeat_app. reflexivity. }
  { rewrite repeat_length. lia. }
  apply lift_Return in Hcolors. destruct Hcolors as [Hcolors _].
  rewrite Hc2, Hsel2, app_assoc in Hcolors.
  match type of Hcolors with
  | set_color (?X ++ _)%list ?K _ = _ =>
      replace K with (List.length X) in Hcolors by (rewrite !length_app; cbn; lia);
      assert (Heq : Ok colors = Ok (X ++ [[zero; zero; lit_1_0]])%list)
        by (rewrite <- Hcolors;
            exact (set_color_fresh X [] [zero; zero; zero] [zero; zero; lit_1_0] 2 eq_refl))
  end.
  clear Hcolors. rename Heq into Hcolors.
  injection Hcolors as ->. rewrite <- app_assoc. reflexivity.
Qed.

(** *** The batch *)

Lemma set_rows_Ok (vis vis' : list cloud) (pc_size k : nat) (rows : cloud) :
  set_rows vis pc_size k rows = Ok vis' ->
  List.length rows = pc_size /\ assign vis k rows = Ok vis'.
Proof.
  unfold set_rows. destruct (List.length rows =? pc_size) eqn:Hlen; [|discriminate].
  apply Nat.eqb_eq in Hlen. intros H. split; assumption.
Qed.

Lemma load_loop_batch (geom : list string) (pc_size component : nat) :
  forall (l : list nat) (v v' : loading) (s s' : state G) (filled rest : list cloud),
    for_each G l (load_shape G w geom pc_size component) v s = (Return v', s') ->
    vis_set v = (filled ++ rest)%list ->
    List.length filled = cntr v ->
    exists names ds rows,
      log_reconst v' = (log_reconst v ++ names)%list
      /\ draws s' = (draws s ++ ds)%list
      /\ List.length names = List.length l
      /\ List.length ds = List.length l
      /\ List.length rows = List.length l
      /\ Forall2 (sampled_from w pc_size) (combine names ds) rows
      /\ vis_set v' = (filled ++ rows ++ skipn (List.length l) rest)%list
      /\ List.length l <= List.length rest
      /\ cntr v' = cntr v + List.length l.
Proof.
  induction l as [|i l IH]; intros v v' s s' filled rest H Hvis Hfilled.
  - cbn in H. apply ret_Return in H. destruct H as [-> ->].
    exists [], [], []. cbn. rewrite !app_nil_r.
    repeat split; try assumption; try constructor; lia.
  - cbn [for_each] in H. apply bind_Return in H. destruct H as (v1 & s1 & H1 & H).
    apply load_shape_Return in H1.
    destruct H1 as (name & pts & idx & row & _ & Hpts & _ & Hdraws & Hrow & _ & Hset
                    & Hrec & Hcntr & _).
    apply set_rows_Ok in Hset. destruct Hset as [Hlen Hset].
    rewrite Hvis, <- Hfilled in Hset.
    apply assign_app_inv in Hset. destruct Hset as (r0 & rest' & -> & Hvis1).
    destruct (IH v1 v' s1 s' (filled ++ [row])%list rest' H) as
      (names & ds & rows & Hrec' & Hdraws' & Hln & Hld & Hlr & Hall & Hvis' & Hle & Hc).
    + rewrite Hvis1, <- app_assoc. reflexivity.
    + rewrite length_app. cbn. lia.
    + exists (name :: names),
             ({| population := List.length pts; sample_size := pc_size;
                 with_replacement := (List.length pts <? pc_size);
                 drawn := idx |} :: ds),
             (row :: rows).
      rewrite Hrec', Hrec, Hdraws', Hdraws, Hvis', <- !app_assoc. cbn.
      repeat split; try lia.
      constructor; [|exact Hall].
      exists pts. cbn. repeat split; assumption.
Qed.

(** The last shape loaded stays in [pc_load] and [pc_sample], and its
    rows are the ones stored last. *)
Lemma load_loop_last (geom : list string) (pc_size component : nat) :
  forall (l : list nat) (v v' : loading) (s s' : state G),
    for_each G l (load_shape G w geom pc_size component) v s = (Return v', s') ->
    (forall pts idx, pc_load v = Some pts -> pc_sample v = Some idx ->
       exists rows, take_rows pts idx = Ok rows
                    /\ nth_error (vis_set v) (cntr v - 1) = Some rows) ->
    forall pts idx, pc_load v' = Some pts -> pc_sample v' = Some idx ->
      exists rows, take_rows pts idx = Ok rows
                   /\ nth_error (vis_set v') (cntr v' - 1) = Some rows.
Proof.
  intros l v v' s s' H Hv.
  refine (for_each_invariant G
            (fun v => forall pts idx, pc_load v = Some pts -> pc_sample v = Some idx ->
               exists rows, take_rows pts idx = Ok rows
                            /\ nth_error (vis_set v) (cntr v - 1) = Some rows)
            _ _ l v s v' s' Hv H).
  clear. intros b a s b' s' _ Hrun pts idx Hpts Hidx.
  apply load_shape_Return in Hrun.
  destruct Hrun as (name & pts' & idx' & row & _ & _ & _ & _ & Hrow & _ & Hset
                    & _ & Hcntr & Hload & Hsample & _).
  rewrite Hload in Hpts. injection Hpts as <-.
  rewrite Hsample in Hidx. injection Hidx as <-.
  exists row. split; [exact Hrow|].
  apply set_rows_Ok in Hset. destruct Hset as [_ Hset].
  rewrite Hcntr. replace (S (cntr b) - 1) with (cntr b) by lia.
  exact (assign_nth _ _ _ _ Hset).
Qed.

(** Lines 268-303.  When the loading ends, after the two selections
    one call of [np.random.choice] was made for each shape, and row [k]
    of [vis_set] holds the points of the [k]-th geometry of [log_reconst]
    at the positions drawn in the [k]-th of these calls; the assignment
    to the last row after the loops stores what that row already
    holds. *)
Theorem batch_contents (st : settings) (geom_training geom_testing : list string)
        (pc_size : nat) (v : loading) (s s' : state G) :
  load_shapes G w st geom_training geom_testing pc_size s = (Return v, s') ->
  exists d_training d_testing ds,
    draws s' = (draws s ++ d_training :: d_testing :: ds)%list
    /\ drawn d_training = i_sel_training v
    /\ drawn d_testing = i_sel_testing v
    /\ List.length ds = n_shapes_trainingset st + n_shapes_testset st
    /\ List.length (log_reconst v) = n_shapes_trainingset st + n_shapes_testset st
    /\ Forall2 (sampled_from w pc_size) (combine (log_reconst v) ds) (vis_set v).
Proof.
  intros H.
  pose proof (load_shapes_shaped G w st _ _ _ _ _ _ H) as Hshape.
  unfold load_shapes in H.
  apply bind_Return in H. destruct H as (sel1 & s1 & Hsel1 & H).
  apply bind_Return in H. destruct H as (sel2 & s2 & Hsel2 & H).
  apply bind_Return in H. destruct H as (v1 & s3 & Hv1 & H).
  apply bind_Return in H. destruct H as (v2 & s4 & Hv2 & H).
  apply bind_Return in H. destruct H as (pts & s5 & Hpts & H).
  apply bind_Return in H. destruct H as (idx & s6 & Hidx & H).
  apply bind_Return in H. destruct H as (rows & s7 & Hrows & H).
  apply bind_Return in H. destruct H as (vis & s8 & Hvis & H).
  apply bind_Return in H. destruct H as (colors & s9 & Hcolors & H).
  apply ret_Return in H. destruct H as [-> ->].
  cbn [vis_set log_reconst i_sel_training i_sel_testing] in *.
  pose proof (np_random_choice_length _ _ _ _ _ _ Hsel1) as Hn1.
  pose proof (np_random_choice_length _ _ _ _ _ _ Hsel2) as Hn2.
  apply np_random_choice_Return in Hsel1. destruct Hsel1 as (_ & Hd1 & _).
  apply np_random_choice_Return in Hsel2. destruct Hsel2 as (_ & Hd2 & _).
  set (n1 := n_shapes_trainingset st) in *. set (n2 := n_shapes_testset st) in *.
  (* the two loops *)
  pose proof (load_loop_last _ _ _ _ _ _ _ _ Hv1) as Hlast1.
  pose proof (load_loop_last _ _ _ _ _ _ _ _ Hv2) as Hlast2.
  destruct (load_loop_batch _ _ _ _ _ _ _ _ [] (repeat (repeat origin pc_size) (n1 + n2))
              Hv1 eq_refl eq_refl)
    as (names1 & ds1 & rows1 & Hrec1 & Hdr1 & Hln1 & Hld1 & Hlr1 & Hall1 & Hvis1 & _ & Hc1).
  cbn [log_reconst cntr app] in Hrec1, Hvis1, Hc1.
  destruct (load_loop_batch _ _ _ _ _ _ _ _ rows1 _ Hv2 Hvis1 ltac:(lia))
    as (names2 & ds2 & rows2 & Hrec2 & Hdr2 & Hln2 & Hld2 & Hlr2 & Hall2 & Hvis2 & _ & Hc2).
  (* the batch is full *)
  destruct Hshape as [Hlen _]. 
  apply bound_Return in Hpts. destruct Hpts as [Hpts ->].
  apply bound_Return in Hidx. destruct Hidx as [Hidx ->].
  apply lift_Return in Hrows. destruct Hrows as [Hrows ->].
  apply lift_Return in Hvis. destruct Hvis as [Hvis ->].
  apply lift_Return in Hcolors. destruct Hcolors as [_ ->].
  assert (Hfull : List.length (vis_set v2) = n1 + n2).
  { destruct (List.length rows =? pc_size); [|discriminate].
    unfold assign_last in Hvis.
    destruct (List.length (vis_set v2)) as [|k] eqn:Hk; [discriminate|].
    rewrite <- Hlen, (assign_length _ _ _ _ Hvis). lia. }
  match type of Hvis2 with
  | _ = (_ ++ _ ++ ?R)%list =>
      assert (Hrest : R = [])
        by (apply length_zero_iff_nil; rewrite !length_skipn, repeat_length; lia);
      rewrite Hrest, app_nil_r in Hvis2
  end.
  (* the assignment after the loops *)
  assert (Hsame : vis = vis_set v2).
  { destruct (Hlast2 ltac:(intros p i Hp Hi; apply Hlast1; [|exact Hp|exact Hi];
                            intros ? ? Hnone; discriminate) pts idx Hpts Hidx)
      as (rows' & Hrows' & Hnth).
    rewrite Hrows in Hrows'. injection Hrows' as <-.
    destruct (List.length rows =? pc_size); [|discriminate].
    unfold assign_last in Hvis. rewrite Hfull in Hvis.
    replace (cntr v2) with (n1 + n2) in Hnth by lia.
    destruct (n1 + n2) as [|k] eqn:Hk; [discriminate|].
    replace (S k - 1) with k in Hnth by lia.
    rewrite (assign_same _ _ _ Hnth) in Hvis. injection Hvis as <-. reflexivity. }
  exists {| population := List.length geom_training; sample_size := n1;
            with_replacement := false; drawn := sel1 |},
         {| population := List.length geom_testing; sample_size := n2;
            with_replacement := false; drawn := sel2 |},
         (ds1 ++ ds2)%list.
  cbn [drawn]. rewrite Hsame, Hvis2, Hrec2, Hrec1.
  split; [rewrite Hdr2, Hdr1, Hd2, Hd1, <- !app_assoc; reflexivity|].
  split; [reflexivity|]. split; [reflexivity|].
  split; [rewrite length_app; lia|].
  split; [rewrite length_app; lia|].
  rewrite combine_app by lia. apply Forall2_app; assumption.
Qed.

End Generator.

Lemma too_few_geometries_witness :
  exists s', load_shapes counter_generators Examples.small_world script_settings
               ["a"; "b"; "c"]%string ["d"; "e"]%string 4 Examples.start
             = (Raised ValueError, s')
             /\ log s' = log Examples.start.
Proof.
  apply (too_few_geometries counter_generators Examples.small_world script_settings).
  left. cbn. lia.
Defined.

Lemma loading_reads_witness :
  exists v s',
    load_shapes counter_generators Examples.small_world Examples.two_two_five
      ["a"; "b"; "c"]%string ["d"; "e"]%string 4 Examples.start = (Return v, s')
    /\ exists names_training names_testing,
         log_reconst v = (names_training ++ names_testing)%list
         /\ Forall2 (fun i name => index ["a"; "b"; "c"]%string i = Ok name)
                    (i_sel_training v) names_training
         /\ Forall2 (fun i name => index ["d"; "e"]%string i = Ok name)
                    (i_sel_testing v) names_testing
         /\ log s' = (log Examples.start ++ map ReadCsv (log_reconst v))%list.
Proof.
  eexists _, _. split; [vm_compute; reflexivity|].
  eapply (loading_reads counter_generators Examples.small_world Examples.two_two_five
           ["a"; "b"; "c"]%string ["d"; "e"]%string 4 _ Examples.start _).
  vm_compute. reflexivity.
Defined.

Lemma color_scheme_witness :
  exists v s',
    load_shapes counter_generators Examples.small_world Examples.two_two_five
      ["a"; "b"; "c"]%string ["d"; "e"]%string 4 Examples.start = (Return v, s')
    /\ color_shape v
       = (repeat [zero; zero; lit_1_0] 2 ++ repeat [lit_1_0; zero; zero] 2
            ++ [[zero; zero; lit_1_0]])%list.
Proof.
  eexists _, _. split; [vm_compute; reflexivity|].
  eapply (color_scheme counter_generators Examples.small_world
           counter_generators_contract Examples.two_two_five
           ["a"; "b"; "c"]%string ["d"; "e"]%string 4 _ Examples.start _).
  vm_compute. reflexivity.
Defined.

Lemma batch_contents_witness :
  exists v s',
    load_shapes counter_generators Examples.small_world Examples.two_two_five
      ["a"; "b"; "c"]%string ["d"; "e"]%string 4 Examples.start = (Return v, s')
    /\ exists d_training d_testing ds,
         draws s' = (draws Examples.start ++ d_training :: d_testing :: ds)%list
         /\ drawn d_training = i_sel_training v
         /\ drawn d_testing = i_sel_testing v
         /\ List.length ds = 2 + 2
         /\ List.length (log_reconst v) = 2 + 2
         /\ Forall2 (sampled_from Examples.small_world 4)
                    (combine (log_reconst v) ds) (vis_set v).
Proof.
  eexists _, _. split; [vm_compute; reflexivity|].
  eapply (batch_contents counter_generators Examples.small_world
           counter_generators_contract Examples.two_two_five
           ["a"; "b"; "c"]%string ["d"; "e"]%string 4 _ Examples.start _).
  vm_compute. reflexivity.
Defined.

End Loading.

(* ================================================================== *)
(** ** The seams between the shapes *)

Module Seams.

Import IEEE Py Frame Rng Script IEEE_facts Frame_facts Sampling Loop.
Local Open Scope string_scope.

Lemma same_value_meet (x y b : float) :
  same_value x b -> same_value y b -> b <> S754_nan -> eqb x y = true.
Proof.
  intros [->|[Hx Hb]] [->|[Hy Hb']] Hn.
  - apply eqb_refl. exact Hn.
  - apply eqb_zeros; assumption.
  - apply eqb_zeros; assumption.
  - apply eqb_zeros; assumption.
Qed.

Lemma meet_array_eqb (dt : dtype) (R1 R2 B : ndarray) :
  Forall2 same_value R1 B -> Forall2 same_value R2 B -> Spec.numeric dt B ->
  array_eqb R1 R2 = true.
Proof.
  intros H1. revert R2. induction H1 as [|r b R1 B Hr H1 IH]; intros R2 H2 HB.
  - inversion H2. reflexivity.
  - inversion H2 as [|r2 b2 R2' B2 Hr2 H2']; subst.
    inversion HB as [|? ? Hb HB']; subst. cbn [array_eqb].
    rewrite (same_value_meet r r2 b Hr Hr2 (finite_not_nan dt b Hb)).
    rewrite (IH R2' H2' HB'). reflexivity.
Qed.

Lemma index_In {A : Type} (l : list A) (k : nat) (a : A) : index l k = Ok a -> In a l.
Proof.
  unfold index. destruct (nth_error l k) as [x|] eqn:H; intros E; [|discriminate].
  injection E as <-. exact (nth_error_In _ _ H).
Qed.

(** The rows of [latent_rep_total] around the seam after shape [i]:
    row [i+1] is the code of the shape that follows, the first one after
    the last, and the blends at the two sides of the seam have its
    value. *)
Lemma rows_meet (dt : dtype) (latent : list ndarray) (first : ndarray)
      (S : Z) (i : nat) :
  2 <= S <= 2 ^ 53 ->
  index latent 0 = Ok first ->
  Forall (fun row => List.length row = List.length first /\ Spec.numeric dt row) latent ->
  (i < List.length latent)%nat ->
  let latent_rep_total := (latent ++ [first])%list in
  let next := ((i + 1) mod List.length latent)%nat in
  exists a b c,
    index latent_rep_total i = Ok a
    /\ index latent_rep_total (i + 1) = Ok b
    /\ index latent next = Ok b
    /\ index latent_rep_total next = Ok b
    /\ index latent_rep_total (next + 1) = Ok c
    /\ Spec.numeric dt b
    /\ Forall2 same_value (Spec.interpolation dt a b (S - 1) S) b
    /\ Forall2 same_value (Spec.interpolation dt b c 0 S) b.
Proof.
  intros HS Hfirst Hrows Hi total next.
  assert (Hn : (0 < List.length latent)%nat) by lia.
  assert (Hlen : List.length total = (List.length latent + 1)%nat)
    by (unfold total; rewrite length_app; reflexivity).
  assert (Hnext : (next < List.length latent)%nat)
    by (apply Nat.mod_upper_bound; lia).
  assert (Hall : Forall (fun row => List.length row = List.length first
                                    /\ Spec.numeric dt row) total).
  { unfold total. apply Forall_app. split; [exact Hrows|].
    constructor; [|constructor].
    rewrite Forall_forall in Hrows. apply Hrows. exact (index_In _ _ _ Hfirst). }
  rewrite Forall_forall in Hall.
  destruct (index_lt total i ltac:(lia)) as (a & Ha).
  destruct (index_lt total (i + 1) ltac:(lia)) as (b & Hb).
  destruct (index_lt total (next + 1) ltac:(lia)) as (c & Hc).
  assert (Hb' : index latent next = Ok b).
  { destruct (Nat.eq_dec (i + 1) (List.length latent)) as [Hend|Hmid].
    - (* the last segment ends on the appended row, which is row 0 *)
      unfold next. rewrite Hend, Nat.Div0.mod_same.
      unfold index, total in Hb.
      rewrite Hend, nth_error_app2, Nat.sub_diag in Hb by lia. cbn in Hb.
      rewrite <- Hb. exact Hfirst.
    - unfold next. rewrite Nat.mod_small by lia.
      unfold index, total in Hb |- *. rewrite nth_error_app1 in Hb by lia. exact Hb. }
  assert (Hb'' : index total next = Ok b).
  { unfold index, total in Hb' |- *. rewrite nth_error_app1 by lia. exact Hb'. }
  destruct (Hall a (index_In _ _ _ Ha)) as [Hla Hna].
  destruct (Hall b (index_In _ _ _ Hb)) as [Hlb Hnb].
  destruct (Hall c (index_In _ _ _ Hc)) as [Hlc Hnc].
  exists a, b, c.
  split; [exact Ha|]. split; [exact Hb|]. split; [exact Hb'|]. split; [exact Hb''|].
  split; [exact Hc|]. split; [exact Hnb|]. split.
  - apply interpolation_last; try assumption. congruence.
  - apply interpolation_first; try assumption. congruence.
Qed.

Lemma index_inj {A : Type} (l : list A) (k : nat) (a b : A) :
  index l k = Ok a -> index l k = Ok b -> a = b.
Proof. intros H1 H2. rewrite H1 in H2. injection H2 as <-. reflexivity. Qed.

Section Run.

Context (G : generators) (w : world) (st : settings).

(** Lines 351-352 and 360-381, for a [plot3] that takes the keywords
    [az] and [col] of line 399 (the one of the script does not, and the
    run stops at the first frame).  With the code of the first shape
    appended to [latent_rep_total], the decoder is given, at the last
    step of every shape [i], a code with the value of the code of the
    shape that follows, and at the first step of that shape a code with
    the same value; after the last shape follows the first.  The codes
    at the two sides of a seam are equal under [==]. *)
Theorem loop_seams (sg : signature) (flag : bool) (top : string)
        (vis : list cloud) (color : list ndarray) (n : nat) (s : state G) :
  binds sg 2 ["az"; "col"] = true ->
  vis <> [] ->
  List.length (encoder w vis) = List.length vis ->
  Forall (fun row => List.length row = n /\ Spec.numeric (latent_dtype w) row)
         (encoder w vis) ->
  List.length color = (List.length vis + 1)%nat ->
  2 <= Z.of_nat (n_steps_interp st) <= 2 ^ 53 ->
  Z.of_nat (List.length vis) * Z.of_nat (n_steps_interp st) < 2 ^ 53 ->
  exists es,
    visualize_with G w st sg flag top vis color s = (Return tt, logged s es)
    /\ List.length (decoded es) = (List.length vis * n_steps_interp st)%nat
    /\ forall i, (i < List.length vis)%nat ->
         let next := ((i + 1) mod List.length vis)%nat in
         exists b d1 d2,
           index (encoder w vis) next = Ok b
           /\ nth_error (decoded es) (i * n_steps_interp st + (n_steps_interp st - 1))
              = Some d1
           /\ nth_error (decoded es) (next * n_steps_interp st) = Some d2
           /\ Forall2 same_value d1 b
           /\ Forall2 same_value d2 b
           /\ array_eqb d1 d2 = true.
Proof.
  intros Hsg Hvis Hlat Hrows Hcol HS HN.
  set (latent := encoder w vis) in *.
  set (S := n_steps_interp st) in *.
  assert (Hpos : (0 < List.length vis)%nat)
    by (destruct vis; [contradiction|cbn; lia]).
  destruct (index_lt latent 0 ltac:(lia)) as (first & Hfirst).
  assert (Hrows' : Forall (fun row => List.length row = List.length first
                                      /\ Spec.numeric (latent_dtype w) row) latent).
  { rewrite Forall_forall in Hrows |- *. intros row Hrow.
    destruct (Hrows row Hrow) as [Hl Hnum].
    destruct (Hrows first (index_In _ _ _ Hfirst)) as [Hlf _].
    split; [congruence|exact Hnum]. }
  (* the run up to the loops *)
  unfold visualize_with. cbv zeta. fold latent.
  rewrite !bind_emit, !logged_logged. cbn [app].
  rewrite Hfirst, bind_lift_Ok.
  match goal with
  | |- exists es, bind _ _ _ (logged s ?es0) = _ /\ _ =>
      set (before := es0); set (s1 := logged s es0)
  end.
  destruct (interpolation_loop_codes G w st sg Hsg
              (top ++ "/point_cloud_interpolation") vis (latent ++ [first]) color
              ltac:(rewrite length_app; cbn [List.length]; lia) Hcol HS HN s1)
    as (es & Hrun & Hlen & Hcodes).
  fold S in Hrun, Hlen, Hcodes.
  rewrite (bind_Return_eq _ _ _ _ _ _ Hrun).
  match goal with
  | |- exists es', emit _ ?e _ = _ /\ _ =>
      exists (before ++ es ++ [e])%list
  end.
  assert (Hdec : decoded (before ++ es ++ [System
                   ("convert -delay 40 -loop 0 " ++ (top ++ "/point_cloud_interpolation")
                      ++ "/*.png         " ++ (top ++ "/point_cloud_interpolation")
                      ++ "/interpolation.gif")]) = decoded es).
  { rewrite !decoded_app. cbn [before decoded app]. apply app_nil_r. }
  split; [|split].
  - unfold emit, s1. cbn [logged log np_rng py_rng draws].
    unfold logged. cbn [log np_rng py_rng draws]. rewrite <- !app_assoc. reflexivity.
  - rewrite Hdec. exact Hlen.
  - rewrite Hdec. intros i Hi.
    set (next := ((i + 1) mod List.length vis)%nat).
    destruct (rows_meet (latent_dtype w) latent first (Z.of_nat S) i HS Hfirst Hrows'
                ltac:(lia))
      as (a & b & c & Ha & Hb & Hb' & Hb'' & Hc & Hnb & Hlast & Hfst).
    rewrite Hlat in Hb', Hb'', Hc. fold next in Hb', Hb'', Hc.
    assert (Hnext : (next < List.length vis)%nat)
      by (apply Nat.mod_upper_bound; lia).
    assert (HSpos : (2 <= S)%nat) by lia.
    (* the last step of shape [i] *)
    assert (Hc1 : (i * S + (S - 1) < List.length vis * S)%nat) by nia.
    destruct (nth_error (decoded es) (i * S + (S - 1))) as [d1|] eqn:Hd1.
    2:{ apply nth_error_None in Hd1. lia. }
    destruct (Hcodes _ _ Hd1) as (x1 & y1 & Hx1 & Hy1 & Hxy1).
    replace ((i * S + (S - 1)) / S)%nat with i in Hx1, Hy1
      by (rewrite Nat.div_add_l, Nat.div_small by lia; lia).
    replace ((i * S + (S - 1)) mod S)%nat with (S - 1)%nat in Hxy1
      by (rewrite Nat.add_comm, Nat.Div0.mod_add, Nat.mod_small by lia; reflexivity).
    rewrite (index_inj _ _ _ _ Hx1 Ha) in Hxy1.
    rewrite (index_inj _ _ _ _ Hy1 Hb) in Hxy1.
    unfold shp_interp in Hxy1.
    rewrite Nat2Z.inj_sub in Hxy1 by lia. change (Z.of_nat 1) with 1 in Hxy1.
    rewrite blend_spec in Hxy1 by lia. injection Hxy1 as Hd1'.
    (* the first step of the shape that follows *)
    assert (Hc2 : (next * S < List.length vis * S)%nat) by nia.
    destruct (nth_error (decoded es) (next * S)) as [d2|] eqn:Hd2.
    2:{ apply nth_error_None in Hd2. lia. }
    destruct (Hcodes _ _ Hd2) as (x2 & y2 & Hx2 & Hy2 & Hxy2).
    replace ((next * S) / S)%nat with next in Hx2, Hy2
      by (rewrite Nat.div_mul by lia; reflexivity).
    replace ((next * S) mod S)%nat with 0%nat in Hxy2
      by (rewrite Nat.Div0.mod_mul; reflexivity).
    rewrite (index_inj _ _ _ _ Hx2 Hb'') in Hxy2.
    rewrite (index_inj _ _ _ _ Hy2 Hc) in Hxy2.
    unfold shp_interp in Hxy2. change (Z.of_nat 0) with 0 in Hxy2.
    rewrite blend_spec in Hxy2 by lia. injection Hxy2 as Hd2'.
    exists b, d1, d2. subst d1 d2.
    split; [exact Hb'|]. split; [reflexivity|]. split; [reflexivity|].
    split; [exact Hlast|]. split; [exact Hfst|].
    exact (meet_array_eqb (latent_dtype w) _ _ b Hlast Hfst Hnb).
Qed.

End Run.

Lemma loop_seams_witness :
  exists es,
    visualize_with counter_generators Examples.small_world Examples.two_two_five
      Examples.plot3_with_az_col false "t" Examples.two_shapes
      (repeat [zero; zero; lit_1_0] 3) Examples.start
    = (Return tt, logged Examples.start es)
    /\ List.length (decoded es)
       = (List.length Examples.two_shapes * n_steps_interp Examples.two_two_five)%nat
    /\ forall i,
         (i < List.length Examples.two_shapes)%nat ->
         let next := ((i + 1) mod List.length Examples.two_shapes)%nat in
         exists b d1 d2,
           index (encoder Examples.small_world Examples.two_shapes) next = Ok b
           /\ nth_error (decoded es)
                (i * n_steps_interp Examples.two_two_five
                 + (n_steps_interp Examples.two_two_five - 1)) = Some d1
           /\ nth_error (decoded es) (next * n_steps_interp Examples.two_two_five)
              = Some d2
           /\ Forall2 same_value d1 b
           /\ Forall2 same_value d2 b
           /\ array_eqb d1 d2 = true.
Proof.
  apply (loop_seams counter_generators Examples.small_world Examples.two_two_five
           Examples.plot3_with_az_col false "t" Examples.two_shapes
           (repeat [zero; zero; lit_1_0] 3) 2%nat Examples.start).
  - reflexivity.
  - discriminate.
  - reflexivity.
  - repeat constructor.
  - reflexivity.
  - cbn. lia.
  - cbn. lia.
Defined.

End Seams.

(* ================================================================== *)
(** ** Names of directories and files *)

Module Names.

Import Script.
Import Decimal DecimalPos.
Local Open Scope string_scope.

(** *** Strings *)

Lemma append_assoc (a b c : string) : (a ++ b) ++ c = a ++ b ++ c.
Proof. induction a as [|x a IH]; cbn; [reflexivity|]. rewrite IH. reflexivity. Qed.

Lemma append_inv_head (p a b : string) : p ++ a = p ++ b -> a = b.
Proof.
  induction p as [|x p IH]; cbn; intros H; [exact H|].
  injection H as H. exact (IH H).
Qed.

Lemma chars_append (a b : string) :
  list_ascii_of_string (a ++ b)
  = (list_ascii_of_string a ++ list_ascii_of_string b)%list.
Proof. induction a as [|x a IH]; cbn; [reflexivity|]. rewrite IH. reflexivity. Qed.

(** Two strings cut at the first occurrence of a character. *)
Lemma split_at (c : ascii) (x x' r r' : string) :
  ~ In c (list_ascii_of_string x) -> ~ In c (list_ascii_of_string x') ->
  x ++ String c r = x' ++ String c r' -> x = x' /\ r = r'.
Proof.
  revert x'. induction x as [|a x IH]; intros [|a' x'] Hx Hx' H; cbn in *.
  - injection H as ->. split; reflexivity.
  - injection H as <- _. exfalso. apply Hx'. left. reflexivity.
  - injection H as -> _. exfalso. apply Hx. left. reflexivity.
  - injection H as -> H.
    destruct (IH x' ltac:(intros Hin; apply Hx; right; exact Hin)
                 ltac:(intros Hin; apply Hx'; right; exact Hin) H) as [-> ->].
    split; reflexivity.
Qed.

(** *** Decimals *)

(** The characters a decimal is written with. *)
Lemma uint_chars (d : uint) :
  Forall (fun c => In c (list_ascii_of_string "0123456789"))
         (list_ascii_of_string (NilEmpty.string_of_uint d)).
Proof.
  induction d; cbn [NilEmpty.string_of_uint list_ascii_of_string];
    constructor; try assumption; cbn; tauto.
Qed.

Lemma to_int_nonneg (z : Z) :
  0 <= z -> exists d, Z.to_int z = Pos d /\ d <> Nil /\ Z.of_uint d = z.
Proof.
  intros Hz. destruct z as [|p|p]; try lia.
  - exists (D0 Nil). repeat split. discriminate.
  - exists (Pos.to_uint p). split; [reflexivity|].
    split; [apply Unsigned.to_uint_nonnil|].
    exact (DecimalZ.of_to (Zpos p)).
Qed.

Lemma string_of_uint_nonnil (d : uint) :
  d <> Nil -> NilZero.string_of_uint d = NilEmpty.string_of_uint d.
Proof. destruct d; intros H; [contradiction|reflexivity..]. Qed.

Lemma zeros_string (k : nat) (d : uint) :
  zeros k ++ NilEmpty.string_of_uint d = NilEmpty.string_of_uint (Nat.iter k D0 d).
Proof.
  induction k as [|k IH]; [reflexivity|].
  cbn [zeros append]. rewrite IH. reflexivity.
Qed.

Lemma of_uint_zeros (k : nat) (d : uint) : Z.of_uint (Nat.iter k D0 d) = Z.of_uint d.
Proof. induction k as [|k IH]; [reflexivity|]. exact IH. Qed.

(** [str(n).zfill(width)] is a string of digits that reads as [n]. *)
Lemma zfill_decimal (width : nat) (z : Z) :
  0 <= z ->
  exists d, zfill width (str_of_int z) = NilEmpty.string_of_uint d
            /\ Z.of_uint d = z.
Proof.
  intros Hz. destruct (to_int_nonneg z Hz) as (d & Hd & Hnil & Hval).
  unfold zfill, str_of_int. rewrite Hd. cbn [NilZero.string_of_int].
  rewrite (string_of_uint_nonnil d Hnil), zeros_string.
  eexists. split; [reflexivity|]. rewrite of_uint_zeros. exact Hval.
Qed.

Lemma zfill_inj (width width' : nat) (z z' : Z) :
  0 <= z -> 0 <= z' ->
  zfill width (str_of_int z) = zfill width' (str_of_int z') -> z = z'.
Proof.
  intros Hz Hz' H.
  destruct (zfill_decimal width z Hz) as (d & Hd & <-).
  destruct (zfill_decimal width' z' Hz') as (d' & Hd' & <-).
  rewrite Hd, Hd' in H.
  assert (Hdd : Some d = Some d')
    by (rewrite <- (NilEmpty.usu d), <- (NilEmpty.usu d'), H; reflexivity).
  injection Hdd as ->. reflexivity.
Qed.

Lemma zfill_chars (width : nat) (z : Z) :
  0 <= z ->
  Forall (fun c => In c (list_ascii_of_string "0123456789"))
         (list_ascii_of_string (zfill width (str_of_int z))).
Proof.
  intros Hz. destruct (zfill_decimal width z Hz) as (d & -> & _). apply uint_chars.
Qed.

Lemma digits_without (c : ascii) (s : string) :
  ~ In c (list_ascii_of_string "0123456789") ->
  Forall (fun c => In c (list_ascii_of_string "0123456789")) (list_ascii_of_string s) ->
  ~ In c (list_ascii_of_string s).
Proof.
  intros Hc Hs Hin. rewrite Forall_forall in Hs. exact (Hc (Hs c Hin)).
Qed.

Lemma not_a_digit_underscore : ~ In "_"%char (list_ascii_of_string "0123456789").
Proof. cbn. intros H. repeat destruct H as [H|H]; try discriminate; exact H. Qed.

Lemma not_a_digit_dot : ~ In "."%char (list_ascii_of_string "0123456789").
Proof. cbn. intros H. repeat destruct H as [H|H]; try discriminate; exact H. Qed.

Lemma str_of_int_zfill (z : Z) : str_of_int z = zfill 0 (str_of_int z).
Proof. reflexivity. Qed.

(** *** Files of the frames *)

(** Lines 392-394.  The names of the PNG files of two frames are
    different unless the frames have the same shape index and the same
    step: no frame is written over another. *)
Theorem pc_name_distinct (dir_pc_plot : string) (i j i' j' : nat) :
  pc_name dir_pc_plot i j = pc_name dir_pc_plot i' j' -> i = i' /\ j = j'.
Proof.
  unfold pc_name. intros H. apply append_inv_head in H.
  cbn [append] in H. injection H as H.
  apply split_at in H.
  2,3: apply (digits_without _ _ not_a_digit_underscore), zfill_chars; lia.
  destruct H as [Hi H].
  apply split_at in H.
  2,3: apply (digits_without _ _ not_a_digit_dot), zfill_chars; lia.
  destruct H as [Hj _].
  apply zfill_inj in Hi; [|lia|lia]. apply zfill_inj in Hj; [|lia|lia].
  split; lia.
Qed.

Lemma pc_name_distinct_witness :
  pc_name "d" 3 4 = pc_name "d" 3 4 /\ (3 = 3 /\ 4 = 4)%nat.
Proof. split; [reflexivity|]. apply (pc_name_distinct "d" 3 4 3 4). reflexivity. Defined.

(** Lines 386-387.  The HTML scenes of two shapes have different
    names. *)
Theorem html_name_distinct (dir_pc_plot : string) (i i' : nat) :
  html_name dir_pc_plot i = html_name dir_pc_plot i' -> i = i'.
Proof.
  unfold html_name. intros H. apply append_inv_head in H.
  cbn [append] in H. injection H as H.
  rewrite (str_of_int_zfill (Z.of_nat i)), (str_of_int_zfill (Z.of_nat i')) in H.
  apply split_at in H.
  2,3: apply (digits_without _ _ not_a_digit_underscore), zfill_chars; lia.
  destruct H as [Hi _].
  apply zfill_inj in Hi; [|lia|lia]. lia.
Qed.

Lemma html_name_distinct_witness :
  html_name "d" 3 = html_name "d" 3 /\ (3 = 3)%nat.
Proof. split; [reflexivity|]. apply (html_name_distinct "d" 3 3). reflexivity. Defined.

(** *** The directory of the network *)

Lemma to_int_not_nil (z : Z) : Z.to_int z <> Pos Nil /\ Z.to_int z <> Neg Nil.
Proof.
  destruct z as [|p|p]; cbn; split; try discriminate;
    intros H; injection H as H; exact (Unsigned.to_uint_nonnil p H).
Qed.

Lemma str_of_int_inj (z z' : Z) : str_of_int z = str_of_int z' -> z = z'.
Proof.
  unfold str_of_int. intros H. apply DecimalZ.to_int_inj.
  destruct (to_int_not_nil z) as [H1 H2]. destruct (to_int_not_nil z') as [H1' H2'].
  assert (Hs : Some (Z.to_int z) = Some (Z.to_int z'))
    by (rewrite <- (NilZero.isi _ H1 H2), <- (NilZero.isi _ H1' H2'), H; reflexivity).
  injection Hs as Hs. exact Hs.
Qed.

(** The characters of ['{}'.format(v)] for an [int] or [None]. *)
Lemma format_arg_chars (v : option Z) :
  Forall (fun c => In c (list_ascii_of_string "-0123456789None"))
         (list_ascii_of_string (format_arg v)).
Proof.
  destruct v as [z|]; cbn [format_arg].
  - assert (Hd : forall d, Forall (fun c => In c (list_ascii_of_string "-0123456789None"))
                             (list_ascii_of_string (NilZero.string_of_uint d))).
    { intros d. destruct d; try (repeat constructor; cbn; tauto);
        cbn [NilZero.string_of_uint];
        (eapply Forall_impl; [|apply uint_chars]); cbn; tauto. }
    unfold str_of_int. destruct (Z.to_int z) as [d|d]; cbn [NilZero.string_of_int].
    + apply Hd.
    + cbn [list_ascii_of_string]. constructor; [cbn; tauto|apply Hd].
  - repeat constructor; cbn; tauto.
Qed.

Lemma format_arg_no_underscore (v : option Z) :
  ~ In "_"%char (list_ascii_of_string (format_arg v)).
Proof.
  intros Hin. pose proof (format_arg_chars v) as H. rewrite Forall_forall in H.
  specialize (H _ Hin). cbn in H.
  repeat destruct H as [H|H]; try discriminate; exact H.
Qed.

Lemma format_arg_inj (v v' : option Z) : format_arg v = format_arg v' -> v = v'.
Proof.
  assert (Hnone : forall z, str_of_int z <> "None").
  { intros z H. unfold str_of_int in H.
    destruct (Z.to_int z) as [d|d]; cbn [NilZero.string_of_int] in H; [|discriminate].
    destruct d; discriminate. }
  destruct v as [z|], v' as [z'|]; cbn [format_arg]; intros H.
  - f_equal. exact (str_of_int_inj z z' H).
  - exfalso. exact (Hnone z H).
  - exfalso. symmetry in H. exact (Hnone z' H).
  - reflexivity.
Qed.

(** Lines 211-212 and 225.  Two command lines that differ in [--N],
    in [--LR] or in the VAE flag name different network directories. *)
Theorem top_dir_distinct (a a' : args) (flag flag' : bool) :
  top_dir a flag = top_dir a' flag' ->
  flag = flag' /\ N a = N a' /\ LR a = LR a'.
Proof.
  unfold top_dir, name_exp. intros H.
  assert (Hbase : flag = flag'
                  /\ format_arg (N a) ++ "_LR" ++ format_arg (LR a)
                     = format_arg (N a') ++ "_LR" ++ format_arg (LR a')).
  { destruct flag, flag'; cbn [append] in H; try discriminate;
      injection H as H; split; (reflexivity || exact H). }
  destruct Hbase as [Hflag Hbase]. split; [exact Hflag|].
  cbn [append] in Hbase.
  apply split_at in Hbase; try apply format_arg_no_underscore.
  destruct Hbase as [HN HLR]. injection HLR as HLR.
  split; apply format_arg_inj; assumption.
Qed.

Lemma top_dir_distinct_witness :
  top_dir {| N := Some 4; LR := Some 2; GPU := None; VAE := None |} true
  = top_dir {| N := Some 4; LR := Some 2; GPU := Some 1; VAE := Some "true" |} true
  /\ (true = true /\ Some 4 = Some 4 /\ Some 2 = Some 2).
Proof.
  split; [reflexivity|].
  apply (top_dir_distinct
           {| N := Some 4; LR := Some 2; GPU := None; VAE := None |}
           {| N := Some 4; LR := Some 2; GPU := Some 1; VAE := Some "true" |}
           true true).
  reflexivity.
Defined.

End Names.

(* ================================================================== *)
(** ** What a run writes *)

Module Effects.

Import IEEE Py Frame Rng Script Startup Sampling Loop Loading Names.
Local Open Scope string_scope.

Lemma prefix_append (s t : string) : prefix s (s ++ t) = true.
Proof.
  induction s as [|a s IH]; cbn [append prefix]; [destruct t; reflexivity|].
  destruct (ascii_dec a a) as [_|H]; [exact IH|contradiction].
Qed.

Lemma prefix_slash (t r : string) : prefix (t ++ "/") (t ++ String "/" r) = true.
Proof.
  change (String "/" r) with ("/" ++ r). rewrite <- append_assoc. apply prefix_append.
Qed.

Section Run.

Context (G : generators) (P : event -> Prop).

(** *** The statements of the script, one by one *)

Lemma appends_nothing {A : Type} (c : M G A) :
  (forall s, log (snd (c s)) = log s) -> appends G P c.
Proof.
  intros H s. exists []. rewrite app_nil_r. split; [apply H|constructor].
Qed.

Lemma appends_ret {A : Type} (a : A) : appends G P (ret G a).
Proof. apply appends_nothing. reflexivity. Qed.

Lemma appends_raise {A : Type} (e : exn) : appends G P (@raise G A e).
Proof. apply appends_nothing. reflexivity. Qed.

Lemma appends_exit {A : Type} : appends G P (@exit G A).
Proof. apply appends_nothing. reflexivity. Qed.

Lemma appends_lift {A : Type} (r : result A) : appends G P (lift G r).
Proof. destruct r; [apply appends_ret|apply appends_raise]. Qed.

Lemma appends_bound {A : Type} (o : option A) : appends G P (bound G o).
Proof. destruct o; [apply appends_ret|apply appends_raise]. Qed.

Lemma appends_emit (e : event) : P e -> appends G P (emit G e).
Proof.
  intros He s. exists [e]. split; [reflexivity|].
  constructor; [exact He|constructor].
Qed.

Lemma appends_bind_if {A B : Type} (Q : A -> Prop) (c : M G A) (k : A -> M G B) :
  appends G P c ->
  (forall s a s', c s = (Return a, s') -> Q a) ->
  (forall a, Q a -> appends G P (k a)) ->
  appends G P (bind G c k).
Proof.
  intros Hc HQ Hk s. destruct (Hc s) as (es1 & Hlog1 & Hes1). unfold bind.
  destruct (c s) as [[a|e|] s1] eqn:E; cbn [snd] in Hlog1 |- *;
    try (exists es1; split; assumption).
  destruct (Hk a (HQ s a s1 E) s1) as (es2 & Hlog2 & Hes2).
  exists (es1 ++ es2)%list. split.
  - rewrite Hlog2, Hlog1, app_assoc. reflexivity.
  - apply Forall_app. split; assumption.
Qed.

Lemma appends_bind {A B : Type} (c : M G A) (k : A -> M G B) :
  appends G P c -> (forall a, appends G P (k a)) -> appends G P (bind G c k).
Proof.
  intros Hc Hk. apply (appends_bind_if (fun _ => True)); auto.
Qed.

Lemma appends_for_each {A B : Type} (l : list A) (body : B -> A -> M G B) :
  (forall b a, appends G P (body b a)) -> forall acc, appends G P (for_each G l body acc).
Proof.
  intros Hbody. induction l as [|a l IH]; intros acc; cbn [for_each].
  - apply appends_ret.
  - apply appends_bind; [apply Hbody|exact IH].
Qed.

Lemma appends_np_random_seed (z : Z) : appends G P (np_random_seed G z).
Proof. apply appends_nothing. reflexivity. Qed.

Lemma appends_random_seed (z : Z) : appends G P (random_seed G z).
Proof. apply appends_nothing. reflexivity. Qed.

Lemma appends_np_random_choice (pop size : nat) (replace : bool) :
  appends G P (np_random_choice G pop size replace).
Proof.
  apply appends_nothing. intros s. unfold np_random_choice.
  destruct ((pop =? 0)%nat && negb (size =? 0)%nat); [reflexivity|].
  destruct (negb replace && (pop <? size)%nat); [reflexivity|].
  destruct (np_draw G (np_rng s) pop size replace) as [idx r]. reflexivity.
Qed.

(** Effects that read and write no file, and reads. *)
Context (quiet : forall e, written e = None -> (forall path, e <> ReadCsv path) -> P e).
Context (reads : forall path, P (ReadCsv path)).

Context (w : world) (st : settings).

Lemma appends_read_names (path : string) : appends G P (read_names G w path).
Proof.
  unfold read_names. apply appends_bind; [apply appends_emit, reads|].
  intros _. destruct (csv_names w path); [apply appends_ret|apply appends_raise].
Qed.

Lemma appends_read_points (path : string) : appends G P (read_points G w path).
Proof.
  unfold read_points. apply appends_bind; [apply appends_emit, reads|].
  intros _. destruct (csv_points w path); [apply appends_ret|apply appends_raise].
Qed.

Lemma appends_read_values (path : string) : appends G P (read_values G w path).
Proof.
  unfold read_values. apply appends_bind; [apply appends_emit, reads|].
  intros _. destruct (csv_values w path); [apply appends_ret|apply appends_raise].
Qed.

Lemma appends_load_shape (geom : list string) (pc_size component : nat)
      (v : loading) (i : nat) :
  appends G P (load_shape G w geom pc_size component v i).
Proof.
  unfold load_shape, resample.
  repeat first
    [ apply appends_ret | apply appends_lift | apply appends_read_points
    | apply appends_np_random_choice
    | match goal with |- appends _ _ (if ?b then _ else _) => destruct b end
    | apply appends_bind; [|intros ?] ].
Qed.

Lemma appends_load_shapes (geom_training geom_testing : list string) (pc_size : nat) :
  appends G P (load_shapes G w st geom_training geom_testing pc_size).
Proof.
  unfold load_shapes.
  repeat first
    [ apply appends_ret | apply appends_lift | apply appends_bound
    | apply appends_np_random_choice
    | apply appends_for_each; intros; apply appends_load_shape
    | apply appends_bind; [|intros ?] ].
Qed.

Lemma appends_initialization : appends G P (initialization G w).
Proof.
  unfold initialization.
  repeat first
    [ apply appends_ret | apply appends_lift
    | apply appends_np_random_seed | apply appends_random_seed
    | apply appends_emit, quiet; [reflexivity|intros ?; discriminate]
    | apply appends_bind; [|intros ?] ].
Qed.

Lemma appends_check_top_dir (top : string) : appends G P (check_top_dir G w top).
Proof.
  unfold check_top_dir. destruct (negb (path_exists w top)); [|apply appends_ret].
  apply appends_bind; [apply appends_emit, quiet; [reflexivity|intros ?; discriminate]|].
  intros _. apply appends_exit.
Qed.

Lemma appends_import_log_dictionary (top : string) :
  appends G P (import_log_dictionary G w top).
Proof.
  unfold import_log_dictionary.
  repeat first
    [ apply appends_ret | apply appends_raise
    | apply appends_emit, quiet; [reflexivity|intros ?; discriminate]
    | match goal with |- appends _ _ (match ?o with Some _ => _ | None => _ end) =>
        destruct o end
    | apply appends_bind; [|intros ?] ].
Qed.

Lemma appends_select_shapes : appends G P (select_shapes G w st).
Proof.
  unfold select_shapes.
  repeat first
    [ apply appends_ret | apply appends_initialization | apply appends_check_top_dir
    | apply appends_import_log_dictionary | apply appends_read_names
    | apply appends_load_shapes
    | apply appends_bind; [|intros ?] ].
Qed.

(** The selection ends with the flag and the directory of the command
    line. *)
Lemma select_shapes_Return (flag f : bool) (top : string) (v : loading)
      (s s' : state G) :
  flagVAE (argv w) = Ok flag ->
  select_shapes G w st s = (Return (f, top, v), s') ->
  f = flag /\ top = top_dir (argv w) flag.
Proof.
  intros Hflag H. unfold select_shapes in H.
  apply bind_Return in H. destruct H as (f0 & s1 & Hinit & H).
  rewrite (initialization_run G w flag s Hflag) in Hinit. injection Hinit as <- <-.
  apply bind_Return in H. destruct H as (u & s2 & _ & H).
  apply bind_Return in H. destruct H as (pc_size & s3 & _ & H).
  apply bind_Return in H. destruct H as (g1 & s4 & _ & H).
  apply bind_Return in H. destruct H as (g2 & s5 & _ & H).
  apply bind_Return in H. destruct H as (v0 & s6 & _ & H).
  apply ret_Return in H. destruct H as [H _]. injection H as -> -> ->.
  split; reflexivity.
Qed.

(** *** The files of a run *)

Context (flag : bool) (Hflag : flagVAE (argv w) = Ok flag).
Context (Pcsv : forall rows,
            P (WriteCsv (top_dir (argv w) flag ++ "/geometries_reconstruction.csv") rows)).
Context (Phtml : forall i,
            P (WriteHtml (html_name (top_dir (argv w) flag ++ "/point_cloud_interpolation")
                                    i))).

Lemma appends_normalize (v : loading) :
  appends G P (normalize G w (top_dir (argv w) flag) v).
Proof.
  unfold normalize.
  repeat first
    [ apply appends_ret | apply appends_lift | apply appends_read_values
    | apply appends_emit, Pcsv
    | apply appends_bind; [|intros ?] ].
Qed.

(** A pass of the loop around the [plot3] of the script writes no
    PNG: the call does not bind. *)
Lemma appends_frame (vis : list cloud) (latent color : list ndarray)
      (n_shapes i cntr j : nat) :
  appends G P (frame G w st plot3_signature
               (top_dir (argv w) flag ++ "/point_cloud_interpolation")
               vis latent color n_shapes i cntr j).
Proof.
  unfold frame, plot3, PC_html. cbn [map fst].
  change (binds plot3_signature 2 ["az"; "col"]) with false.
  change (binds PC_html_signature 3 []) with true.
  cbv iota zeta.
  repeat first
    [ apply appends_ret | apply appends_raise | apply appends_lift
    | apply appends_emit, Phtml
    | apply appends_emit, quiet; [reflexivity|intros ?; discriminate]
    | match goal with |- appends _ _ (if ?b then _ else _) => destruct b end
    | apply appends_bind; [|intros ?] ].
Qed.

Lemma appends_visualize (vis : list cloud) (color : list ndarray) :
  appends G P (visualize G w st flag (top_dir (argv w) flag) vis color).
Proof.
  unfold visualize, visualize_with, interpolation_loop_with. cbv zeta.
  repeat first
    [ apply appends_ret | apply appends_lift
    | apply appends_emit, quiet; [reflexivity|intros ?; discriminate]
    | apply appends_for_each; intros
    | apply appends_frame
    | apply appends_bind; [|intros ?] ].
Qed.

Lemma appends_main : appends G P (main G w st).
Proof.
  unfold main.
  apply (appends_bind_if (fun sel => fst (fst sel) = flag
                                   /\ snd (fst sel) = top_dir (argv w) flag)).
  - apply appends_select_shapes.
  - intros s [[f top] v] s' H. cbn [fst snd].
    exact (select_shapes_Return flag f top v s s' Hflag H).
  - intros [[f top] v] [Hf Htop]. cbn [fst snd] in Hf, Htop. subst f top.
    apply appends_bind; [apply appends_normalize|]. intros vis.
    apply appends_bind; [apply appends_visualize|]. intros _. apply appends_exit.
Qed.

(** Every effect of a run satisfies [P]. *)
Lemma main_effects (np0 : np_state G) (py0 : py_state G) :
  Forall P (log (snd (main G w st (initial G np0 py0)))).
Proof.
  destruct (appends_main (initial G np0 py0)) as (es & -> & Hes). exact Hes.
Qed.

End Run.

(** Lines 318-319, 386-389 and 399.  In every run, whatever the
    files, the command line, the settings and the generators, each file
    the script writes itself (the CSV of the reconstruction log, the
    HTML scenes) lies in the directory of the network, [top_dir]. *)
Theorem writes_under_top_dir (G : generators) (w : world) (st : settings)
        (np0 : np_state G) (py0 : py_state G) :
  exists flag,
    flagVAE (argv w) = Ok flag
    /\ Forall (fun e => forall path, written e = Some path ->
                 prefix (top_dir (argv w) flag ++ "/") path = true)
              (log (snd (main G w st (initial G np0 py0)))).
Proof.
  destruct (flagVAE_total (argv w)) as (flag & Hflag).
  exists flag. split; [exact Hflag|].
  refine (main_effects G (fun e => forall path, written e = Some path ->
                            prefix (top_dir (argv w) flag ++ "/") path = true)
            _ _ w st flag Hflag _ _ np0 py0).
  - intros e He _ path Hp. congruence.
  - intros p path Hp. discriminate.
  - intros rows path H. cbn [written] in H.
    replace path with (top_dir (argv w) flag ++ "/geometries_reconstruction.csv")
      by congruence.
    apply prefix_slash.
  - intros i path H. cbn [written] in H.
    replace path
      with (html_name (top_dir (argv w) flag ++ "/point_cloud_interpolation") i)
      by congruence.
    unfold html_name. rewrite append_assoc. cbn [append]. apply prefix_slash.
Qed.

(** Line 399 against line 124.  In every run, whatever the files, the
    command line, the settings and the generators, no PNG frame is
    written: each call of [plot3] passes [az] and [col], which the
    function does not take. *)
Theorem never_a_frame (G : generators) (w : world) (st : settings)
        (np0 : np_state G) (py0 : py_state G) :
  count_png (log (snd (main G w st (initial G np0 py0)))) = 0%nat.
Proof.
  destruct (flagVAE_total (argv w)) as (flag & Hflag).
  assert (H : Forall (fun e => is_png e = false)
                     (log (snd (main G w st (initial G np0 py0))))).
  { refine (main_effects G (fun e => is_png e = false) _ _ w st flag Hflag _ _ np0 py0).
    - intros [] He _; (reflexivity || discriminate).
    - reflexivity.
    - reflexivity.
    - reflexivity. }
  unfold count_png.
  induction H as [|e l He Hl IH]; [reflexivity|].
  cbn [filter]. rewrite He. exact IH.
Qed.

(** *** The log of the reconstructed shapes *)

Section Trace.

Context (G : generators) (w : world) (st : settings).

Lemma check_top_dir_Return (top : string) (u : unit) (s s' : state G) :
  check_top_dir G w top s = (Return u, s') -> s' = s.
Proof.
  unfold check_top_dir. destruct (negb (path_exists w top)).
  - rewrite bind_emit. discriminate.
  - intros H. apply ret_Return in H. apply H.
Qed.

Lemma import_log_dictionary_Return (top : string) (n : nat) (s s' : state G) :
  import_log_dictionary G w top s = (Return n, s') ->
  s' = logged s [System ("cp " ++ top ++ "/log_dictionary.py ."); Import "log_dictionary";
                 System "rm log_dictionary.py"].
Proof.
  unfold import_log_dictionary. rewrite !bind_emit.
  destruct (log_dictionary w) as [d|]; [|discriminate].
  rewrite bind_ret, bind_emit. intros H. apply ret_Return in H.
  destruct H as [_ ->]. rewrite !logged_logged. reflexivity.
Qed.

Lemma read_names_Return (path : string) (l : list string) (s s' : state G) :
  read_names G w path s = (Return l, s') -> s' = logged s [ReadCsv path].
Proof.
  unfold read_names. rewrite bind_emit.
  destruct (csv_names w path); intros H; [|discriminate].
  apply ret_Return in H. apply H.
Qed.

(** What a run has done when the shapes are loaded. *)
Lemma select_shapes_log (flag f : bool) (top : string) (v : loading) (s s' : state G) :
  flagVAE (argv w) = Ok flag ->
  select_shapes G w st s = (Return (f, top, v), s') ->
  log s' = (log s
              ++ [Putenv "CUDA_VISIBLE_DEVICES" (format_arg (GPU (argv w)));
                  System "clear";
                  System ("cp " ++ top_dir (argv w) flag ++ "/log_dictionary.py .");
                  Import "log_dictionary";
                  System "rm log_dictionary.py";
                  ReadCsv (top_dir (argv w) flag ++ "/geometries_training.csv");
                  ReadCsv (top_dir (argv w) flag ++ "/geometries_testing.csv")]
              ++ map ReadCsv (log_reconst v))%list.
Proof.
  intros Hflag H. unfold select_shapes in H.
  apply bind_Return in H. destruct H as (f0 & s1 & Hinit & H).
  rewrite (initialization_run G w flag s Hflag) in Hinit. injection Hinit as <- <-.
  apply bind_Return in H. destruct H as (u & s2 & Hc & H).
  apply check_top_dir_Return in Hc. subst s2.
  apply bind_Return in H. destruct H as (pc_size & s3 & Hi & H).
  apply import_log_dictionary_Return in Hi. subst s3.
  apply bind_Return in H. destruct H as (g1 & s4 & H1 & H).
  apply read_names_Return in H1. subst s4.
  apply bind_Return in H. destruct H as (g2 & s5 & H2 & H).
  apply read_names_Return in H2. subst s5.
  apply bind_Return in H. destruct H as (v0 & s6 & Hl & H).
  apply ret_Return in H. destruct H as [H ->]. injection H as _ _ ->.
  apply load_shapes_names in Hl. destruct Hl as (n1 & n2 & _ & _ & _ & Hlog).
  rewrite Hlog. cbn [log logged]. rewrite <- !app_assoc. reflexivity.
Qed.

Lemma normalize_run (top : string) (v : loading) (s : state G) :
  (exists vis,
     normalize G w top v s
     = (Return vis,
        logged s [ReadCsv (top ++ "/normvalues.csv");
                  WriteCsv (top ++ "/geometries_reconstruction.csv") (log_reconst v)]))
  \/ (exists e,
        normalize G w top v s = (Raised e, logged s [ReadCsv (top ++ "/normvalues.csv")])).
Proof.
  unfold normalize, read_values. rewrite bind_assoc, bind_emit.
  destruct (csv_values w (top ++ "/normvalues.csv")) as [normDS|].
  - rewrite bind_ret.
    destruct (normalize_with normDS (vis_set v)) as [vis|e].
    + left. exists vis. rewrite bind_lift_Ok, bind_emit. unfold ret.
      rewrite logged_logged. reflexivity.
    + right. exists e. reflexivity.
  - right. exists FileNotFoundError. reflexivity.
Qed.

Lemma bind_Exited_eq {A B : Type} (c : M G A) (k : A -> M G B) (s s1 : state G) :
  c s = (Exited, s1) -> bind G c k s = (Exited, s1).
Proof. intros H. unfold bind. rewrite H. reflexivity. Qed.

(** Lines 230-319.  In every run that writes the CSV of the
    reconstruction log, the rows written are the names of the point
    files read, in the order they were read: the run has set the
    environment variable, cleared the screen, copied, imported and
    removed the log dictionary, read the two lists of geometries, then
    the point files of the rows, then the normalization values.  What
    follows writes no other CSV and reads no CSV, list of geometries or
    point file again. *)
Theorem reconstruction_log_faithful (np0 : np_state G) (py0 : py_state G)
        (path : string) (rows : list string) :
  In (WriteCsv path rows) (log (snd (main G w st (initial G np0 py0)))) ->
  exists flag later,
    flagVAE (argv w) = Ok flag
    /\ path = top_dir (argv w) flag ++ "/geometries_reconstruction.csv"
    /\ log (snd (main G w st (initial G np0 py0)))
       = ([Putenv "CUDA_VISIBLE_DEVICES" (format_arg (GPU (argv w)));
           System "clear";
           System ("cp " ++ top_dir (argv w) flag ++ "/log_dictionary.py .");
           Import "log_dictionary";
           System "rm log_dictionary.py";
           ReadCsv (top_dir (argv w) flag ++ "/geometries_training.csv");
           ReadCsv (top_dir (argv w) flag ++ "/geometries_testing.csv")]
            ++ map ReadCsv rows
            ++ [ReadCsv (top_dir (argv w) flag ++ "/normvalues.csv");
                WriteCsv path rows]
            ++ later)%list
    /\ Forall (fun e => (forall p r, e <> WriteCsv p r) /\ (forall p, e <> ReadCsv p)) later.
Proof.
  intros Hin. destruct (flagVAE_total (argv w)) as (flag & Hflag). exists flag.
  set (s0 := initial G np0 py0) in *. set (top := top_dir (argv w) flag) in *.
  (* effects that are not the writing of a CSV *)
  set (Q := fun e : event => forall p r, e <> WriteCsv p r).
  assert (HQ : forall l, Forall Q l -> ~ In (WriteCsv path rows) l).
  { intros l Hl Hc. rewrite Forall_forall in Hl. exact (Hl _ Hc path rows eq_refl). }
  assert (HQreads : forall l, Forall Q (map ReadCsv l)).
  { intros l. apply Forall_forall. intros e He. apply in_map_iff in He.
    destruct He as (x & <- & _). intros p r. discriminate. }
  assert (Hsel : appends G Q (select_shapes G w st)).
  { apply appends_select_shapes.
    - intros e He _ p r ->. discriminate.
    - intros p0 p r. discriminate. }
  unfold main in Hin |- *.
  destruct (select_shapes G w st s0) as [[[[f top'] v]|e|] s1] eqn:Hrun.
  2:{ exfalso. rewrite (bind_Raised_eq G _ _ _ _ _ Hrun) in Hin. cbn [snd] in Hin.
      destruct (Hsel s0) as (es & Hlog & Hes). rewrite Hrun in Hlog. cbn [snd] in Hlog.
      rewrite Hlog in Hin. exact (HQ _ Hes Hin). }
  2:{ exfalso. rewrite (bind_Exited_eq _ _ _ _ Hrun) in Hin. cbn [snd] in Hin.
      destruct (Hsel s0) as (es & Hlog & Hes). rewrite Hrun in Hlog. cbn [snd] in Hlog.
      rewrite Hlog in Hin. exact (HQ _ Hes Hin). }
  destruct (select_shapes_Return G w st flag f top' v s0 s1 Hflag Hrun)
    as [-> ->].
  pose proof (select_shapes_log flag flag top v s0 s1 Hflag Hrun) as Hlog1.
  cbn [s0 initial log app] in Hlog1. fold top in Hlog1.
  rewrite (bind_Return_eq G _ _ _ _ _ Hrun) in Hin |- *.
  fold top in Hin |- *.
  destruct (normalize_run top v s1) as [(vis & Hnorm)|(e & Hnorm)].
  2:{ exfalso. rewrite (bind_Raised_eq G _ _ _ _ _ Hnorm) in Hin.
      cbn [snd logged log] in Hin. rewrite Hlog1 in Hin.
      refine (HQ _ _ Hin). apply Forall_app. split.
      - repeat (constructor; [intros p r; discriminate|]). apply HQreads.
      - constructor; [intros p r; discriminate|constructor]. }
  rewrite (bind_Return_eq G _ _ _ _ _ Hnorm) in Hin |- *.
  (* the rest of the run *)
  set (Q' := fun e : event => (forall p r, e <> WriteCsv p r) /\ (forall p, e <> ReadCsv p)).
  assert (Hrest : appends G Q'
                    (bind G (visualize G w st flag top vis (color_shape v))
                          (fun _ => @exit G unit))).
  { apply appends_bind; [|intros _; apply appends_exit].
    apply appends_visualize.
    - intros e He Hr. split; [intros p r ->; discriminate|exact Hr].
    - intros i. split; intros; discriminate. }
  destruct (Hrest (logged s1 [ReadCsv (top ++ "/normvalues.csv");
                              WriteCsv (top ++ "/geometries_reconstruction.csv")
                                       (log_reconst v)]))
    as (later & Hlog & Hlater).
  rewrite Hlog in Hin |- *. cbn [logged log] in Hin |- *. rewrite Hlog1 in Hin |- *.
  (* the one CSV written is the one asked about *)
  assert (Hthis : WriteCsv path rows
                  = WriteCsv (top ++ "/geometries_reconstruction.csv") (log_reconst v)).
  { rewrite <- !app_assoc in Hin. cbn [app] in Hin.
    repeat (destruct Hin as [Hin|Hin]; [discriminate Hin|]).
    apply in_app_or in Hin. destruct Hin as [Hin|Hin].
    { exfalso. exact (HQ _ (HQreads _) Hin). }
    destruct Hin as [Hin|Hin]; [discriminate Hin|].
    destruct Hin as [Hin|Hin]; [symmetry; exact Hin|].
    exfalso. rewrite Forall_forall in Hlater.
    exact (proj1 (Hlater _ Hin) path rows eq_refl). }
  injection Hthis as -> ->.
  exists later. split; [exact Hflag|]. split; [reflexivity|].
  split; [|exact Hlater].
  rewrite <- !app_assoc. reflexivity.
Qed.

End Trace.

Lemma reconstruction_log_faithful_witness :
  let final := log (snd (main counter_generators Examples.small_world
                              Examples.two_two_five
                              (initial counter_generators 0%nat 0%nat))) in
  In (WriteCsv "Network_pcae_N4_LR2/geometries_reconstruction.csv" ["a"; "b"; "d"; "e"])
     final
  /\ exists flag later,
       flagVAE (argv Examples.small_world) = Ok flag
       /\ "Network_pcae_N4_LR2/geometries_reconstruction.csv"
          = top_dir (argv Examples.small_world) flag ++ "/geometries_reconstruction.csv"
       /\ final
          = ([Putenv "CUDA_VISIBLE_DEVICES" (format_arg (GPU (argv Examples.small_world)));
              System "clear";
              System ("cp " ++ top_dir (argv Examples.small_world) flag
                            ++ "/log_dictionary.py .");
              Import "log_dictionary";
              System "rm log_dictionary.py";
              ReadCsv (top_dir (argv Examples.small_world) flag
                         ++ "/geometries_training.csv");
              ReadCsv (top_dir (argv Examples.small_world) flag
                         ++ "/geometries_testing.csv")]
               ++ map ReadCsv ["a"; "b"; "d"; "e"]
               ++ [ReadCsv (top_dir (argv Examples.small_world) flag ++ "/normvalues.csv");
                   WriteCsv "Network_pcae_N4_LR2/geometries_reconstruction.csv"
                            ["a"; "b"; "d"; "e"]]
               ++ later)%list
       /\ Forall (fun e => (forall p r, e <> WriteCsv p r) /\ (forall p, e <> ReadCsv p))
                 later.
Proof.
  intros final.
  assert (Hin : In (WriteCsv "Network_pcae_N4_LR2/geometries_reconstruction.csv"
                             ["a"; "b"; "d"; "e"]) final).
  { vm_compute. do 12 right. left. reflexivity. }
  split; [exact Hin|].
  exact (reconstruction_log_faithful counter_generators Examples.small_world
           Examples.two_two_five 0%nat 0%nat _ _ Hin).
Defined.

End Effects.

(* ================================================================== *)
(** ** The order of the frames on disk *)

Module Order.

Import Script Names.
Import Decimal DecimalFacts DecimalPos.
Local Open Scope string_scope.

(** *** Comparison of strings *)

Lemma ascii_compare_refl (c : ascii) : Ascii.compare c c = Eq.
Proof. unfold Ascii.compare. apply N.compare_refl. Qed.

Lemma compare_prefix (p a b : string) :
  String.compare (p ++ a) (p ++ b) = String.compare a b.
Proof.
  induction p as [|c p IH]; cbn [append String.compare]; [reflexivity|].
  rewrite ascii_compare_refl. exact IH.
Qed.

Lemma compare_same_length (a a' r r' : string) :
  String.length a = String.length a' ->
  String.compare a a' = Lt ->
  String.compare (a ++ r) (a' ++ r') = Lt.
Proof.
  revert a'. induction a as [|c a IH]; intros [|c' a'] Hlen H; try discriminate.
  cbn [append String.compare] in *.
  destruct (Ascii.compare c c'); try discriminate; [|reflexivity].
  apply IH; [cbn in Hlen; lia|exact H].
Qed.

(** *** Decimals of one width *)

Lemma string_length_uint (d : uint) :
  String.length (NilEmpty.string_of_uint d) = nb_digits d.
Proof. induction d; cbn; congruence. Qed.

Lemma usize_nb_digits (d : uint) : Unsigned.usize d = N.of_nat (nb_digits d).
Proof.
  induction d; cbn [Unsigned.usize nb_digits];
    rewrite ?IHd, ?Nat2N.inj_succ; reflexivity.
Qed.

(** The value of a decimal, from its first digit and the rest. *)
Lemma of_uint_cons (d : uint) :
  Pos.of_uint (D0 d) = (Pos.of_uint d + 0 * 10 ^ Unsigned.usize d)%N
  /\ Pos.of_uint (D1 d) = (Pos.of_uint d + 1 * 10 ^ Unsigned.usize d)%N
  /\ Pos.of_uint (D2 d) = (Pos.of_uint d + 2 * 10 ^ Unsigned.usize d)%N
  /\ Pos.of_uint (D3 d) = (Pos.of_uint d + 3 * 10 ^ Unsigned.usize d)%N
  /\ Pos.of_uint (D4 d) = (Pos.of_uint d + 4 * 10 ^ Unsigned.usize d)%N
  /\ Pos.of_uint (D5 d) = (Pos.of_uint d + 5 * 10 ^ Unsigned.usize d)%N
  /\ Pos.of_uint (D6 d) = (Pos.of_uint d + 6 * 10 ^ Unsigned.usize d)%N
  /\ Pos.of_uint (D7 d) = (Pos.of_uint d + 7 * 10 ^ Unsigned.usize d)%N
  /\ Pos.of_uint (D8 d) = (Pos.of_uint d + 8 * 10 ^ Unsigned.usize d)%N
  /\ Pos.of_uint (D9 d) = (Pos.of_uint d + 9 * 10 ^ Unsigned.usize d)%N.
Proof.
  repeat split;
    rewrite !Unsigned.of_uint_alt; unfold rev; cbn [revapp];
    rewrite Unsigned.of_lu_revapp; reflexivity.
Qed.

Lemma of_uint_bound (d : uint) : (Pos.of_uint d < 10 ^ Unsigned.usize d)%N.
Proof.
  induction d;
    [cbn; lia|
     destruct (of_uint_cons d) as (H0 & H1 & H2 & H3 & H4 & H5 & H6 & H7 & H8 & H9);
     cbn [Unsigned.usize]; rewrite N.pow_succ_r';
     first [rewrite H0|rewrite H1|rewrite H2|rewrite H3|rewrite H4
           |rewrite H5|rewrite H6|rewrite H7|rewrite H8|rewrite H9]; lia ..].
Qed.

(** On decimals with the same number of digits the order of the
    strings is the order of the numbers. *)
Lemma compare_decimals (d d' : uint) :
  nb_digits d = nb_digits d' ->
  (Pos.of_uint d < Pos.of_uint d')%N ->
  String.compare (NilEmpty.string_of_uint d) (NilEmpty.string_of_uint d') = Lt.
Proof.
  revert d'. induction d as [|d IH|d IH|d IH|d IH|d IH|d IH|d IH|d IH|d IH|d IH];
    intros d' Hn Hlt;
    destruct d' as [|d'|d'|d'|d'|d'|d'|d'|d'|d'|d']; try discriminate Hn;
    try (exfalso; cbn in Hlt; lia);
    cbn [nb_digits] in Hn; injection Hn as Hn;
    pose proof (of_uint_bound d) as Hb; pose proof (of_uint_bound d') as Hb';
    assert (Hu : Unsigned.usize d = Unsigned.usize d')
      by (rewrite !usize_nb_digits, Hn; reflexivity);
    rewrite <- Hu in Hb';
    destruct (of_uint_cons d) as (H0 & H1 & H2 & H3 & H4 & H5 & H6 & H7 & H8 & H9);
    destruct (of_uint_cons d') as (K0 & K1 & K2 & K3 & K4 & K5 & K6 & K7 & K8 & K9);
    rewrite <- Hu in K0, K1, K2, K3, K4, K5, K6, K7, K8, K9;
    cbn [NilEmpty.string_of_uint String.compare];
    match goal with
    | |- context [Ascii.compare ?a ?b] =>
        let r := eval vm_compute in (Ascii.compare a b) in
        change (Ascii.compare a b) with r
    end;
    cbv iota;
    first [reflexivity | apply IH; [exact Hn|lia] | exfalso; lia].
Qed.

(** *** Zero-padded numbers *)

Lemma to_uint_head (p : positive) (d : uint) : Pos.to_uint p <> D0 d.
Proof.
  intros H. pose proof (Unsigned.to_of (Pos.to_uint p)) as E.
  rewrite Unsigned.of_to in E. change (N.to_uint (Npos p)) with (Pos.to_uint p) in E.
  rewrite H in E. unfold unorm in E. cbn [nzhead] in E.
  destruct (nzhead d) eqn:Hn; try discriminate E.
  - injection E as ->. exact (Unsigned.to_uint_nonzero p H).
  - exact (nzhead_nonzero _ _ Hn).
Qed.

(** A number below [10^width] is written with at most [width] digits. *)
Lemma digits_of_small (width : nat) (z : Z) (d : uint) :
  (0 < width)%nat -> 0 <= z < 10 ^ Z.of_nat width ->
  Z.to_int z = Pos d -> (nb_digits d <= width)%nat.
Proof.
  intros Hw Hz Hd. destruct z as [|p|p]; try lia.
  - injection Hd as <-. cbn. lia.
  - cbn [Z.to_int] in Hd. injection Hd as Hd.
    assert (Hval : Z.of_N (Pos.of_uint d) = Zpos p).
    { rewrite <- Hd, Unsigned.of_to. reflexivity. }
    pose proof (to_uint_head p) as Hhead. rewrite Hd in Hhead.
    pose proof (Unsigned.to_uint_nonnil p) as Hnil. rewrite Hd in Hnil.
    destruct (le_gt_dec (nb_digits d) width) as [|Hgt]; [assumption|exfalso].
    assert (Hlow : (10 ^ N.of_nat width <= Pos.of_uint d)%N).
    { destruct d as [|u|u|u|u|u|u|u|u|u|u];
        [contradiction|exfalso; exact (Hhead u eq_refl)|..];
        cbn [nb_digits] in Hgt;
        destruct (of_uint_cons u) as (H0 & H1 & H2 & H3 & H4 & H5 & H6 & H7 & H8 & H9);
        first [rewrite H1|rewrite H2|rewrite H3|rewrite H4
              |rewrite H5|rewrite H6|rewrite H7|rewrite H8|rewrite H9];
        rewrite usize_nb_digits;
        assert (Hpow : (10 ^ N.of_nat width <= 10 ^ N.of_nat (nb_digits u))%N)
          by (apply N.pow_le_mono_r; lia);
        lia. }
    assert (Hz' : Z.of_N (10 ^ N.of_nat width) = 10 ^ Z.of_nat width).
    { rewrite N2Z.inj_pow, nat_N_Z. reflexivity. }
    lia.
Qed.

(** [str(n).zfill(width)] for [n < 10^width]: exactly [width] digits
    that read as [n]. *)
Lemma zfill_exact (width : nat) (z : Z) :
  (0 < width)%nat -> 0 <= z < 10 ^ Z.of_nat width ->
  exists d, zfill width (str_of_int z) = NilEmpty.string_of_uint d
            /\ nb_digits d = width
            /\ Pos.of_uint d = Z.to_N z.
Proof.
  intros Hw Hz.
  destruct (to_int_nonneg z ltac:(lia)) as (du & Hdu & Hnil & Hval).
  pose proof (digits_of_small width z du Hw Hz Hdu) as Hlen.
  unfold zfill, str_of_int. rewrite Hdu. cbn [NilZero.string_of_int].
  rewrite (string_of_uint_nonnil du Hnil), string_length_uint, zeros_string.
  eexists. split; [reflexivity|]. split.
  - rewrite nb_digits_iter_D0. lia.
  - assert (H : Z.of_uint (Nat.iter (width - nb_digits du) D0 du) = z)
      by (rewrite of_uint_zeros; exact Hval).
    unfold Z.of_uint in H. rewrite <- H, N2Z.id. reflexivity.
Qed.

Lemma zfill_compare (width : nat) (z z' : Z) :
  (0 < width)%nat -> 0 <= z -> z < z' -> z' < 10 ^ Z.of_nat width ->
  String.length (zfill width (str_of_int z)) = String.length (zfill width (str_of_int z'))
  /\ String.compare (zfill width (str_of_int z)) (zfill width (str_of_int z')) = Lt.
Proof.
  intros Hw Hz Hlt Hz'.
  destruct (zfill_exact width z Hw ltac:(lia)) as (d & -> & Hn & Hv).
  destruct (zfill_exact width z' Hw ltac:(lia)) as (d' & -> & Hn' & Hv').
  rewrite !string_length_uint. split; [congruence|].
  apply compare_decimals; [congruence|]. rewrite Hv, Hv'. lia.
Qed.

(** Lines 392-394 and 402-403.  With fewer than 100000 shapes and fewer
    than 1000 steps, the name of the PNG file of a frame is before the
    name of every later frame in the order of the character codes, so
    the files, sorted by name, are in the order the frames are
    rendered. *)
Theorem pc_name_sorted (dir_pc_plot : string) (i j i' j' : nat) :
  Z.of_nat i' < 100000 -> Z.of_nat j' < 1000 ->
  (i < i' \/ (i = i' /\ j < j'))%nat ->
  String.compare (pc_name dir_pc_plot i j) (pc_name dir_pc_plot i' j') = Lt.
Proof.
  intros Hi' Hj' Horder. unfold pc_name. rewrite compare_prefix.
  rewrite (compare_prefix "/PC_").
  destruct Horder as [Hlt|[<- Hlt]].
  - destruct (zfill_compare 5 (Z.of_nat i) (Z.of_nat i') ltac:(lia) ltac:(lia)
                ltac:(lia) ltac:(cbn; lia)) as [Hlen Hcmp].
    apply compare_same_length; assumption.
  - rewrite compare_prefix. rewrite (compare_prefix "_").
    destruct (zfill_compare 3 (Z.of_nat j) (Z.of_nat j') ltac:(lia) ltac:(lia)
                ltac:(lia) ltac:(cbn; lia)) as [Hlen Hcmp].
    apply compare_same_length; assumption.
Qed.

Lemma pc_name_sorted_witness :
  String.compare (pc_name "d" 3 4) (pc_name "d" 12 0) = Lt.
Proof. apply (pc_name_sorted "d" 3 4 12 0); cbn; lia. Defined.

End Order.

(* ================================================================== *)
(** ** The exceptions of the loading *)

Module Failures.

Import IEEE Py Rng Script Sampling Loop Loading.
Local Open Scope nat_scope.

Section Generator.

Context (G : generators) (contract : numpy_contract G) (w : world).

Lemma bind_Raised {A B : Type} (c : M G A) (k : A -> M G B)
      (s s' : state G) (e : exn) :
  bind G c k s = (Raised e, s') ->
  c s = (Raised e, s')
  \/ exists a s1, c s = (Return a, s1) /\ k a s1 = (Raised e, s').
Proof.
  unfold bind. destruct (c s) as [[a|e0|] s1]; intros H.
  - right. exists a, s1. split; [reflexivity|exact H].
  - left. injection H as -> ->. reflexivity.
  - discriminate.
Qed.

Lemma lift_Raised {A : Type} (r : result A) (s s' : state G) (e : exn) :
  lift G r s = (Raised e, s') -> r = Raise e.
Proof.
  destruct r as [a|e0]; unfold lift, ret, raise; intros H; [discriminate|].
  injection H as -> _. reflexivity.
Qed.

Lemma lift_Ok_not_Raised {A : Type} (a : A) (s s' : state G) (e : exn) :
  lift G (Ok a) s <> (Raised e, s').
Proof. cbn. discriminate. Qed.

Lemma np_random_choice_Raised (pop size : nat) (replace : bool)
      (s s' : state G) (e : exn) :
  np_random_choice G pop size replace s = (Raised e, s') -> e = ValueError.
Proof.
  destruct (np_random_choice_outcome G pop size replace s) as [H|(idx & s1 & H)];
    rewrite H; intros E; congruence.
Qed.

(** The indices a call returns select rows of the population. *)
Lemma np_random_choice_rows (pts : cloud) (size : nat) (replace : bool)
      (s s' : state G) (idx : list nat) :
  np_random_choice G (List.length pts) size replace s = (Return idx, s') ->
  exists rows, take_rows pts idx = Ok rows /\ List.length rows = size.
Proof.
  intros H.
  assert (Hlen : List.length idx = size).
  { pose proof (np_random_choice_Return G _ _ _ _ _ _ H) as (-> & _).
    apply (draw_length G contract). }
  destruct (Nat.eq_dec (List.length pts) 0) as [Hz|Hpos].
  - (* an empty population gives an empty sample *)
    assert (Hsize : size = 0).
    { unfold np_random_choice in H. rewrite Hz in H. cbn [Nat.eqb andb] in H.
      destruct (size =? 0) eqn:E; [apply Nat.eqb_eq; exact E|discriminate]. }
    subst size. destruct idx; [|discriminate].
    exists []. split; reflexivity.
  - assert (Hrange : Forall (fun k => k < List.length pts) idx).
    { pose proof (np_random_choice_Return G _ _ _ _ _ _ H) as (-> & _).
      apply (draw_range G contract). lia. }
    destruct (take_rows_length pts idx Hrange) as (rows & Hrows & Hl).
    exists rows. split; [exact Hrows|lia].
Qed.

Lemma set_color_Ok (colors : list ndarray) (k c : nat) :
  Forall Spec.color_label colors -> k < List.length colors -> c < 3 ->
  exists colors', set_color colors k c = Ok colors'.
Proof.
  intros Hall Hk Hc. unfold set_color.
  destruct (index_lt colors k Hk) as (row & Hrow). rewrite Hrow. cbn [rbind].
  assert (Hlen : List.length row = 3).
  { rewrite Forall_forall in Hall. unfold index in Hrow.
    destruct (nth_error colors k) as [r|] eqn:Hn; [|discriminate].
    injection Hrow as ->. exact (proj1 (Hall row (nth_error_In _ _ Hn))). }
  destruct (assign_lt row c lit_1_0 ltac:(lia)) as (row' & Hrow' & _).
  rewrite Hrow'. cbn [rbind].
  destruct (assign_lt colors k row' Hk) as (colors' & Hc' & _).
  exists colors'. exact Hc'.
Qed.

(** *** One shape *)

Lemma load_shape_Raised (geom : list string) (pc_size component : nat)
      (v : loading) (i : nat) (s s' : state G) (e : exn) :
  i < List.length geom ->
  cntr v < List.length (vis_set v) ->
  cntr v < List.length (color_shape v) ->
  Forall Spec.color_label (color_shape v) ->
  component < 3 ->
  load_shape G w geom pc_size component v i s = (Raised e, s') ->
  e = FileNotFoundError \/ e = ValueError.
Proof.
  intros Hi Hvis Hcol Hlab Hcomp H. unfold load_shape in H.
  destruct (index_lt geom i Hi) as (name & Hname). rewrite Hname in H.
  rewrite bind_lift_Ok in H.
  apply bind_Raised in H. destruct H as [H|(pts & s1 & Hpts & H)].
  { left. unfold read_points in H. rewrite bind_emit in H.
    destruct (csv_points w name); unfold ret, raise in H; [discriminate|].
    injection H as <- _. reflexivity. }
  apply bind_Raised in H. destruct H as [H|(idx & s2 & Hidx & H)].
  { right. unfold resample in H.
    destruct (List.length pts <? pc_size);
      exact (np_random_choice_Raised _ _ _ _ _ _ H). }
  destruct (set_color_Ok (color_shape v) (cntr v) component Hlab Hcol Hcomp)
    as (colors & Hcolors).
  rewrite Hcolors, bind_lift_Ok in H.
  assert (Hrows : exists rows, take_rows pts idx = Ok rows /\ List.length rows = pc_size).
  { unfold resample in Hidx.
    destruct (List.length pts <? pc_size);
      exact (np_random_choice_rows _ _ _ _ _ _ Hidx). }
  destruct Hrows as (rows & Hrows & Hlen).
  rewrite Hrows, bind_lift_Ok in H.
  unfold set_rows in H.
  replace (List.length rows =? pc_size) with true in H
    by (symmetry; apply Nat.eqb_eq; exact Hlen).
  destruct (assign_lt (vis_set v) (cntr v) rows Hvis) as (vis & Hassign & _).
  rewrite Hassign, bind_lift_Ok in H. discriminate H.
Qed.

(** What a pass that ends keeps: the sizes of the two arrays, the
    labels, and the counter one up. *)
Lemma load_shape_kept (geom : list string) (pc_size component : nat)
      (v v' : loading) (i : nat) (s s' : state G) :
  Forall Spec.color_label (color_shape v) ->
  load_shape G w geom pc_size component v i s = (Return v', s') ->
  List.length (vis_set v') = List.length (vis_set v)
  /\ List.length (color_shape v') = List.length (color_shape v)
  /\ Forall Spec.color_label (color_shape v')
  /\ cntr v' = S (cntr v)
  /\ exists pts idx rows,
       pc_load v' = Some pts /\ pc_sample v' = Some idx
       /\ take_rows pts idx = Ok rows /\ List.length rows = pc_size.
Proof.
  intros Hlab H. apply load_shape_Return in H.
  destruct H as (name & pts & idx & rows & _ & _ & _ & _ & Hrows & Hcol & Hset
                 & _ & Hcntr & Hload & Hsample & _).
  destruct (set_color_labels _ _ _ _ Hlab Hcol) as [Hlab' Hlen'].
  apply set_rows_Ok in Hset. destruct Hset as [Hlen Hset].
  repeat split; try assumption.
  - exact (assign_length _ _ _ _ Hset).
  - exists pts, idx, rows. repeat split; assumption.
Qed.

(** *** A loop *)

Lemma load_loop_Raised (geom : list string) (pc_size component : nat) :
  component < 3 ->
  forall (l : list nat) (v : loading) (s s' : state G) (e : exn),
    Forall (fun i => i < List.length geom) l ->
    cntr v + List.length l <= List.length (vis_set v) ->
    cntr v + List.length l <= List.length (color_shape v) ->
    Forall Spec.color_label (color_shape v) ->
    for_each G l (load_shape G w geom pc_size component) v s = (Raised e, s') ->
    e = FileNotFoundError \/ e = ValueError.
Proof.
  intros Hcomp. induction l as [|i l IH]; intros v s s' e Hl Hvis Hcol Hlab H.
  - discriminate H.
  - cbn [for_each] in H. cbn [List.length] in Hvis, Hcol.
    inversion Hl as [|? ? Hi Hl']; subst.
    apply bind_Raised in H. destruct H as [H|(v1 & s1 & H1 & H)].
    + apply (load_shape_Raised geom pc_size component v i s s' e);
        try assumption; lia.
    + destruct (load_shape_kept _ _ _ _ _ _ _ _ Hlab H1)
        as (Hv & Hc & Hlab1 & Hcntr & _).
      apply (IH v1 s1 s' e); try assumption; lia.
Qed.

(** The loop ends with the arrays as large as before, and if it ran a
    pass, with the last shape in [pc_load] and [pc_sample]. *)
Lemma load_loop_kept (geom : list string) (pc_size component : nat) :
  forall (l : list nat) (v v' : loading) (s s' : state G),
    Forall Spec.color_label (color_shape v) ->
    for_each G l (load_shape G w geom pc_size component) v s = (Return v', s') ->
    List.length (vis_set v') = List.length (vis_set v)
    /\ List.length (color_shape v') = List.length (color_shape v)
    /\ Forall Spec.color_label (color_shape v')
    /\ cntr v' = cntr v + List.length l
    /\ ((l = [] /\ pc_load v' = pc_load v /\ pc_sample v' = pc_sample v)
        \/ exists pts idx rows,
             pc_load v' = Some pts /\ pc_sample v' = Some idx
             /\ take_rows pts idx = Ok rows /\ List.length rows = pc_size).
Proof.
  induction l as [|i l IH]; intros v v' s s' Hlab H.
  - cbn in H. apply ret_Return in H. destruct H as [-> ->].
    split; [reflexivity|]. split; [reflexivity|]. split; [exact Hlab|].
    split; [cbn; lia|]. left. repeat split.
  - cbn [for_each] in H. apply bind_Return in H. destruct H as (v1 & s1 & H1 & H).
    destruct (load_shape_kept _ _ _ _ _ _ _ _ Hlab H1)
      as (Hv & Hc & Hlab1 & Hcntr & Hlast).
    destruct (IH v1 v' s1 s' Hlab1 H) as (Hv' & Hc' & Hlab' & Hcntr' & Hlast').
    repeat split; try congruence; try assumption.
    + cbn [List.length]. lia.
    + right. destruct Hlast' as [(-> & Hp & Hs)|Hlast']; [|exact Hlast'].
      rewrite Hp, Hs. exact Hlast.
Qed.

Lemma np_random_choice_valid (pop size : nat) (s s' : state G) (idx : list nat) :
  np_random_choice G pop size false s = (Return idx, s') ->
  List.length idx = size /\ Forall (fun k => k < pop) idx.
Proof.
  intros H.
  assert (Hlen : List.length idx = size).
  { pose proof (np_random_choice_Return G _ _ _ _ _ _ H) as (-> & _).
    apply (draw_length G contract). }
  split; [exact Hlen|].
  destruct (Nat.eq_dec pop 0) as [Hz|Hpos].
  - assert (Hsize : size = 0).
    { unfold np_random_choice in H. rewrite Hz in H. cbn [Nat.eqb andb] in H.
      destruct (size =? 0) eqn:E; [apply Nat.eqb_eq; exact E|discriminate]. }
    subst size. destruct idx; [constructor|discriminate].
  - pose proof (np_random_choice_Return G _ _ _ _ _ _ H) as (-> & _).
    apply (draw_range G contract). lia.
Qed.

(** Lines 258-304.  Taking [np.random.choice] with what numpy documents
    of it, the selection and loading of the shapes can only fail with
    [ValueError] (a list of geometries shorter than the number of
    shapes, or a point file without points), with the error of a point
    file that cannot be read, or, when no shape at all is to be loaded,
    with the [NameError] of the unbound [pc_load]; no index is ever out
    of range. *)
Theorem loading_errors (st : settings) (geom_training geom_testing : list string)
        (pc_size : nat) (s s' : state G) (e : exn) :
  load_shapes G w st geom_training geom_testing pc_size s = (Raised e, s') ->
  e = ValueError \/ e = FileNotFoundError
  \/ (e = NameError /\ n_shapes_trainingset st + n_shapes_testset st = 0).
Proof.
  intros H. unfold load_shapes in H.
  set (n1 := n_shapes_trainingset st) in *. set (n2 := n_shapes_testset st) in *.
  apply bind_Raised in H. destruct H as [H|(sel1 & s1 & Hsel1 & H)].
  { left. exact (np_random_choice_Raised _ _ _ _ _ _ H). }
  apply bind_Raised in H. destruct H as [H|(sel2 & s2 & Hsel2 & H)].
  { left. exact (np_random_choice_Raised _ _ _ _ _ _ H). }
  destruct (np_random_choice_valid _ _ _ _ _ Hsel1) as [Hn1 Hr1].
  destruct (np_random_choice_valid _ _ _ _ _ Hsel2) as [Hn2 Hr2].
  assert (Hlab0 : Forall Spec.color_label (repeat (repeat zero 3) (n1 + n2 + 1))).
  { apply Forall_forall. intros c Hc. apply repeat_spec in Hc. subst c.
    split; [reflexivity|]. repeat constructor. }
  apply bind_Raised in H. destruct H as [H|(v1 & s3 & Hv1 & H)].
  { apply load_loop_Raised in H; try assumption; try lia;
      cbn [cntr vis_set color_shape]; rewrite ?repeat_length; try lia.
    destruct H as [->| ->]; tauto. }
  pose proof Hv1 as Hk1. apply load_loop_kept in Hk1; [|exact Hlab0].
  destruct Hk1 as (Hvis1 & Hcol1 & Hlab1 & Hc1 & Hlast1).
  cbn [cntr vis_set color_shape pc_load pc_sample] in Hvis1, Hcol1, Hc1, Hlast1.
  rewrite repeat_length in Hvis1, Hcol1.
  apply bind_Raised in H. destruct H as [H|(v2 & s4 & Hv2 & H)].
  { apply load_loop_Raised in H; try assumption; try lia.
    destruct H as [->| ->]; tauto. }
  pose proof Hv2 as Hk2. apply load_loop_kept in Hk2; [|exact Hlab1].
  destruct Hk2 as (Hvis2 & Hcol2 & Hlab2 & Hc2 & Hlast2).
  (* after the loops *)
  destruct (Nat.eq_dec (n1 + n2) 0) as [Hzero|Hsome].
  - (* no shape: [pc_load] is unbound *)
    assert (Hs1 : sel1 = []) by (destruct sel1; [reflexivity|cbn in Hn1; lia]).
    assert (Hs2 : sel2 = []) by (destruct sel2; [reflexivity|cbn in Hn2; lia]).
    subst sel1 sel2. cbn [for_each] in Hv1, Hv2.
    apply ret_Return in Hv1. destruct Hv1 as [-> ->].
    apply ret_Return in Hv2. destruct Hv2 as [-> ->].
    cbn [pc_load bound] in H. unfold bind, raise in H.
    injection H as <- _. right. right. split; [reflexivity|exact Hzero].
  - exfalso.
    assert (Hlast : exists pts idx rows,
               pc_load v2 = Some pts /\ pc_sample v2 = Some idx
               /\ take_rows pts idx = Ok rows /\ List.length rows = pc_size).
    { destruct Hlast2 as [(-> & Hp2 & Hs2)|Hlast2]; [|exact Hlast2].
      destruct Hlast1 as [(-> & _)|Hlast1]; [cbn in Hn1, Hn2; lia|].
      rewrite Hp2, Hs2. exact Hlast1. }
    destruct Hlast as (pts & idx & rows & Hp & Hi & Hrows & Hlen).
    rewrite Hp, Hi in H. cbn [bound] in H. rewrite !bind_ret in H.
    rewrite Hrows, bind_lift_Ok in H.
    replace (List.length rows =? pc_size) with true in H
      by (symmetry; apply Nat.eqb_eq; exact Hlen).
    unfold assign_last in H.
    destruct (List.length (vis_set v2)) as [|k] eqn:Hk; [lia|].
    destruct (assign_lt (vis_set v2) k rows ltac:(lia)) as (vis & Hassign & _).
    rewrite Hassign, bind_lift_Ok in H.
    destruct (set_color_Ok (color_shape v2) (List.length (color_shape v2) - 1) 2
                Hlab2 ltac:(lia) ltac:(lia)) as (colors & Hcolors).
    rewrite Hcolors, bind_lift_Ok in H. discriminate H.
Qed.

End Generator.

Lemma loading_errors_witness :
  exists s',
    load_shapes counter_generators Examples.small_world Examples.two_two_five
      ["a"; "b"; "c"]%string ["d"]%string 4 Examples.start
    = (Raised ValueError, s')
    /\ (ValueError = ValueError \/ ValueError = FileNotFoundError
        \/ (ValueError = NameError /\ 2 + 2 = 0)).
Proof.
  eexists. split; [vm_compute; reflexivity|].
  eapply (loading_errors counter_generators counter_generators_contract
            Examples.small_world Examples.two_two_five
            ["a"; "b"; "c"]%string ["d"]%string 4 Examples.start).
  vm_compute. reflexivity.
Defined.

End Failures.
